(** * Backfill scheduler of github-for-jira: [src/sync/installation.ts]

    A shallow embedding of the task selector, the progress update, the error
    classifier and the rescheduler, followed by the properties proved about
    them.  The relational store (Sequelize models [Subscription] and
    [RepoSyncState]) is modelled as two tables; asynchronous calls are run
    sequentially, one attempt at a time. *)

From stdpp Require Import base tactics option strings gmap list sorting numbers pretty.

#[local] Set Warnings "-clear-no-such-hyp".

Open Scope Z_scope.

(** ** Task catalog *)

(** [TaskType] of [sync.types]: the discovery step and the five categories. *)
Inductive TaskType := repository | pull | branch | commit | build | deployment.

Global Instance TaskType_eq_dec : EqDecision TaskType.
Proof. solve_decision. Defined.

Definition taskName (t : TaskType) : string :=
  match t with
  | repository => "repository"
  | pull => "pull"
  | branch => "branch"
  | commit => "commit"
  | build => "build"
  | deployment => "deployment"
  end.

Definition allTaskTypes : list TaskType := [pull; branch; commit; build; deployment].

(** lodash [intersection(xs, ys)]: the unique values of [xs] that occur in
    [ys], in the order of [xs] (first occurrences are kept). *)
Fixpoint baseIntersection {A} `{EqDecision A} (seen xs ys : list A) : list A :=
  match xs with
  | [] => []
  | x :: xs' =>
      if decide (x ∈ ys ∧ x ∉ seen)
      then x :: baseIntersection (x :: seen) xs' ys
      else baseIntersection seen xs' ys
  end.

Definition intersection {A} `{EqDecision A} (xs ys : list A) : list A :=
  baseIntersection [] xs ys.

(** [targetTasks?.length] is falsy for an absent and for an empty filter. *)
Definition getTargetTasks (targetTasks : option (list TaskType)) : list TaskType :=
  match targetTasks with
  | Some (t :: ts) => intersection allTaskTypes (t :: ts)
  | _ => allTaskTypes
  end.

Definition getCursorKey (type : TaskType) : string := taskName type +:+ "Cursor".
Definition getStatusKey (type : TaskType) : string := taskName type +:+ "Status".

(** ** Data model *)

(** Column values as the code reads and writes them: strings (statuses,
    cursors), numbers (page cursors), dates (epoch milliseconds) and null. *)
Inductive Value :=
  | VStr (s : string)
  | VNum (n : Z)
  | VDate (t : Z)
  | VNull.

Global Instance Value_eq_dec : EqDecision Value.
Proof. solve_decision. Defined.

(** JavaScript truthiness of a property read; [None] is [undefined]. *)
Definition truthy (v : option Value) : bool :=
  match v with
  | Some (VStr s) => negb (String.eqb s "")
  | Some (VNum n) => negb (n =? 0)
  | Some (VDate _) => true
  | Some VNull => false
  | None => false
  end.

(** [v || undefined] *)
Definition orUndefined (v : option Value) : option Value :=
  if truthy v then v else None.

Abbreviation Fields := (gmap string Value).

(** A [Subscription] row.  The discovery status and cursor, [syncStatus] and
    [backfillSince] live in [subColumns] under their column names. *)
Record Subscription := {
  subId : Z;
  subJiraHost : string;
  gitHubInstallationId : Z;
  gitHubAppId : option Z;
  subColumns : Fields
}.

(** A [RepoSyncState] row.  The per-category [<type>Status] and
    [<type>Cursor] columns and [commitFrom] live in [rssColumns]. *)
Record RepoSyncState := {
  rssId : Z;
  subscriptionId : Z;
  repoId : Z;
  repoName : string;
  repoOwner : string;
  repoFullName : string;
  repoUrl : string;
  repoUpdatedAt : option Z;
  rssColumns : Fields
}.

Record Owner := { login : string }.

(** The denormalised repository snapshot of a task; [{} as Repository] has
    every property undefined. *)
Record Repository := {
  id : option Z;
  name : option string;
  full_name : option string;
  owner : option Owner;
  html_url : option string;
  updated_at : option Z
}.

Definition emptyRepository : Repository :=
  {| id := None; name := None; full_name := None; owner := None;
     html_url := None; updated_at := None |}.

Record Task := {
  task : TaskType;
  repositoryId : Z;
  repositoryOf : Repository;
  cursor : option Value
}.

Record GitHubAppConfig := { appId : option Z }.

(** The queue message.  [commitsFromDate] is an ISO date string in the
    source; it is kept here as the epoch milliseconds that
    [new Date(commitsFromDate).getTime()] yields, [None] when the property
    is absent or empty. *)
Record BackfillMessagePayload := {
  installationId : Z;
  jiraHost : string;
  gitHubAppConfig : option GitHubAppConfig;
  targetTasks : option (list TaskType);
  commitsFromDate : option Z;
  startTime : option Z
}.

Record Edge := { edgeCursor : Value }.

Record TaskResultPayload := {
  edges : option (list Edge);
  jiraPayload : bool
}.

(** Errors an attempt can raise.  [RateLimitingError] and
    [GithubClientGraphQLError] extend [GithubClientError]; [OtherError] is any
    [Error] outside that hierarchy; [TaskError] is the wrapper class of this
    file, whose [task] is the value [_.cloneDeep] returned. *)
Inductive Error :=
  | RateLimitingError (rateLimitReset : Z)
  | GithubClientGraphQLError (status : option Z) (notFound : bool)
  | GithubClientError (status : option Z)
  | OtherError (status : option Z)
  | TaskError (t : Task) (cause : Error).

Definition instanceofRateLimitingError (err : Error) : bool :=
  match err with RateLimitingError _ => true | _ => false end.

Definition instanceofGithubClientGraphQLError (err : Error) : bool :=
  match err with GithubClientGraphQLError _ _ => true | _ => false end.

Definition instanceofGithubClientError (err : Error) : bool :=
  match err with
  | RateLimitingError _ | GithubClientGraphQLError _ _ | GithubClientError _ => true
  | _ => false
  end.

Definition errStatus (err : Error) : option Z :=
  match err with
  | GithubClientGraphQLError s _ | GithubClientError s | OtherError s => s
  | _ => None
  end.

Definition errIsNotFound (err : Error) : bool :=
  match err with GithubClientGraphQLError _ nf => nf | _ => false end.

(** ** The store and the attempt monad *)

Record Db := {
  subscriptions : list Subscription;
  repoSyncStates : list RepoSyncState
}.

(** One field-merge issued against the store. *)
Inductive DbWrite :=
  | SubscriptionUpdate (sid : Z) (values : Fields)
  | RepoSyncStateUpdate (sid rid : Z) (values : Fields).

(** The state one attempt runs in: the tables, the merges issued so far and
    the delays pushed through the [scheduleNextTask] callback (the array
    [nextTaskDelaysMs] of [processInstallation]). *)
Record World := {
  db : Db;
  writes : list DbWrite;
  nextTaskDelaysMs : list Z
}.

Definition M (A : Type) : Type := World → (Error + A) * World.

Global Instance M_ret : MRet M := λ A a w, (inr a, w).
Global Instance M_bind : MBind M := λ A B f m w,
  match m w with
  | (inr a, w') => f a w'
  | (inl e, w') => (inl e, w')
  end.

Definition throw {A} (e : Error) : M A := λ w, (inl e, w).

Definition tryCatch {A} (m : M A) (handler : Error → M A) : M A := λ w,
  match m w with
  | (inr a, w') => (inr a, w')
  | (inl e, w') => handler e w'
  end.

Definition getDb : M Db := λ w, (inr (db w), w).

Definition putDb (d : Db) (wr : DbWrite) : M unit := λ w,
  (inr (), {| db := d; writes := writes w ++ [wr];
              nextTaskDelaysMs := nextTaskDelaysMs w |}).

(** The callback [(delayMs) => nextTaskDelaysMs.push(delayMs)]. *)
Definition scheduleNextTask (delayMs : Z) : M unit := λ w,
  (inr (), {| db := db w; writes := writes w;
              nextTaskDelaysMs := nextTaskDelaysMs w ++ [delayMs] |}).

(** ** Store operations

    The Sequelize models are not part of this file; their operations are
    modelled on the two tables. *)

(** Modelled from the spec: [Subscription.getSingleInstallation], the store's
    [findSubscription(jiraHost, installationId, appId)]: the subscription of
    that installation, tenant and app variant, if any. *)
Definition getSingleInstallation (d : Db) (host : string) (installation : Z)
    (app : option Z) : option Subscription :=
  List.find (λ s, bool_decide (subJiraHost s = host
                               ∧ gitHubInstallationId s = installation
                               ∧ gitHubAppId s = app))
            (subscriptions d).

Definition mergeSubscription (values : Fields) (s : Subscription) : Subscription :=
  {| subId := subId s; subJiraHost := subJiraHost s;
     gitHubInstallationId := gitHubInstallationId s;
     gitHubAppId := gitHubAppId s;
     subColumns := values ∪ subColumns s |}.

Definition mergeRepoSyncState (values : Fields) (r : RepoSyncState) : RepoSyncState :=
  {| rssId := rssId r; subscriptionId := subscriptionId r; repoId := repoId r;
     repoName := repoName r; repoOwner := repoOwner r;
     repoFullName := repoFullName r; repoUrl := repoUrl r;
     repoUpdatedAt := repoUpdatedAt r;
     rssColumns := values ∪ rssColumns r |}.

Definition mergeSubscriptions (subscription : Subscription) (values : Fields)
    (table : list Subscription) : list Subscription :=
  (λ s, if decide (subId s = subId subscription)
        then mergeSubscription values s else s) <$> table.

(** Modelled from the spec: the instance method [subscription.update(values)],
    the store's [updateSubscription]: one merge of the named fields into the
    row of that subscription.  The in-memory instance is updated with it and
    returned. *)
Definition subscriptionUpdate (subscription : Subscription) (values : Fields)
    : M Subscription :=
  d ← getDb;
  putDb {| subscriptions := mergeSubscriptions subscription values (subscriptions d);
           repoSyncStates := repoSyncStates d |}
        (SubscriptionUpdate (subId subscription) values);;
  mret (mergeSubscription values subscription).

Definition ownsRepo (subscription : Subscription) (rid : Z) (r : RepoSyncState) : bool :=
  bool_decide (subscriptionId r = subId subscription ∧ repoId r = rid).

Definition mergeRepoSyncStates (subscription : Subscription) (rid : Z)
    (values : Fields) (table : list RepoSyncState) : list RepoSyncState :=
  (λ r, if ownsRepo subscription rid r
        then mergeRepoSyncState values r else r) <$> table.

(** Modelled from the spec: [RepoSyncState.updateRepoFromSubscription], the
    store's [mergeFields(subscription, repoId, fields)]. *)
Definition updateRepoFromSubscription (subscription : Subscription) (rid : Z)
    (values : Fields) : M unit :=
  d ← getDb;
  putDb {| subscriptions := subscriptions d;
           repoSyncStates := mergeRepoSyncStates subscription rid values (repoSyncStates d) |}
        (RepoSyncStateUpdate (subId subscription) rid values).

(** Modelled from the spec: [RepoSyncState.findByRepoId]. *)
Definition findByRepoId (d : Db) (subscription : Subscription) (rid : Z)
    : option RepoSyncState :=
  List.find (ownsRepo subscription rid) (repoSyncStates d).

(** The ranking [(repoUpdatedAt DESC, id DESC)]: [rankBefore x y] holds when
    [x] may precede [y].  Rows without [repoUpdatedAt] rank first, where
    PostgreSQL places nulls in a descending order. *)
Definition rankBefore (x y : RepoSyncState) : bool :=
  match repoUpdatedAt x, repoUpdatedAt y with
  | None, None => rssId y <=? rssId x
  | None, Some _ => true
  | Some _, None => false
  | Some a, Some b => (b <? a) || ((a =? b) && (rssId y <=? rssId x))
  end.

Definition rankedBefore : relation RepoSyncState := λ x y, rankBefore x y = true.

Global Instance rankedBefore_dec x y : Decision (rankedBefore x y).
Proof. unfold rankedBefore. apply _. Defined.

(** Modelled from the spec: [RepoSyncState.findAllFromSubscription] with
    [order: [["repoUpdatedAt", "DESC"], ["id", "DESC"]]], the store's
    [findRepoStates(subscription, order)]. *)
Definition findAllFromSubscription (d : Db) (subscription : Subscription)
    : list RepoSyncState :=
  merge_sort rankedBefore
    (filter (λ r, subscriptionId r = subId subscription) (repoSyncStates d)).

(** ** Task selector *)

(** [!syncState[key] || syncState[key] === "pending"] *)
Definition isOutstanding (syncState : RepoSyncState) (taskType : TaskType) : bool :=
  let v := rssColumns syncState !! getStatusKey taskType in
  negb (truthy v) || bool_decide (v = Some (VStr "pending")).

Definition repositoryOfSyncState (syncState : RepoSyncState) : Repository :=
  {| id := Some (repoId syncState);
     name := Some (repoName syncState);
     full_name := Some (repoFullName syncState);
     owner := Some {| login := repoOwner syncState |};
     html_url := Some (repoUrl syncState);
     updated_at := repoUpdatedAt syncState |}.

Definition taskOfSyncState (syncState : RepoSyncState) (t : TaskType) : Task :=
  {| task := t;
     repositoryId := repoId syncState;
     repositoryOf := repositoryOfSyncState syncState;
     cursor := orUndefined (rssColumns syncState !! getCursorKey t) |}.

(** The [for (const syncState of repoSyncStates)] loop. *)
Fixpoint nextTaskIn (tasks : list TaskType) (repoSyncStates : list RepoSyncState)
    : option Task :=
  match repoSyncStates with
  | [] => None
  | syncState :: rest =>
      match List.find (isOutstanding syncState) tasks with
      | None => nextTaskIn tasks rest
      | Some t => Some (taskOfSyncState syncState t)
      end
  end.

Definition discoveryTask (subscription : Subscription) : Task :=
  {| task := repository;
     repositoryId := 0;
     repositoryOf := emptyRepository;
     cursor := orUndefined (subColumns subscription !! "repositoryCursor") |}.

Definition getNextTask (d : Db) (subscription : Subscription)
    (targetTasks : option (list TaskType)) : option Task :=
  if bool_decide (subColumns subscription !! "repositoryStatus" ≠ Some (VStr "complete"))
  then Some (discoveryTask subscription)
  else nextTaskIn (getTargetTasks targetTasks)
                  (findAllFromSubscription d subscription).

(** ** Progress update and continuation *)

(** lodash [pick] and [omit] on a field object. *)
Definition pick (values : Fields) (keys : list string) : Fields :=
  filter (λ kv, kv.1 ∈ keys) values.

Definition omit (values : Fields) (keys : list string) : Fields :=
  filter (λ kv, kv.1 ∉ keys) values.

(** [Object.keys(values).length], as a condition. *)
Definition hasKeys (values : Fields) : bool := negb (bool_decide (values = ∅)).

(** [updateRepo] routes [repositoryStatus] and [repositoryCursor] to the
    Subscription and every other field to the RepoSyncState row; an empty
    part issues no update.  The instance returned is [subscription] as the
    update left it. *)
Definition updateRepo (subscription : Subscription) (rid : Z) (values : Fields)
    : M Subscription :=
  let subscriptionRepoStateValues := pick values ["repositoryStatus"; "repositoryCursor"] in
  let repoSyncStateValues := omit values ["repositoryStatus"; "repositoryCursor"] in
  subscription' ←
    (if hasKeys subscriptionRepoStateValues
     then subscriptionUpdate subscription subscriptionRepoStateValues
     else mret subscription);
  (if hasKeys repoSyncStateValues
   then updateRepoFromSubscription subscription' rid repoSyncStateValues
   else mret ());;
  mret subscription'.

Definition findSubscriptionForMessage (d : Db) (data : BackfillMessagePayload)
    : option Subscription :=
  getSingleInstallation d (jiraHost data) (installationId data)
    (gitHubAppConfig data ≫= appId).

(** [commitSince || null] *)
Definition getBackfillSince (data : BackfillMessagePayload) : Value :=
  match commitsFromDate data with
  | Some t => VDate t
  | None => VNull
  end.

(** The [commitFrom] column is a date or null. *)
Definition commitFrom (repoSync : RepoSyncState) : option Z :=
  match rssColumns repoSync !! "commitFrom" with
  | Some (VDate t) => Some t
  | _ => None
  end.

(** [!edges?.length] *)
Definition isCompleteResult (taskResultPayload : TaskResultPayload) : bool :=
  match edges taskResultPayload with
  | None | Some [] => true
  | Some (_ :: _) => false
  end.

(** [edges[edges.length - 1].cursor] *)
Definition lastCursor (taskResultPayload : TaskResultPayload) : Value :=
  match edges taskResultPayload with
  | Some es => default VNull (edgeCursor <$> last es)
  | None => VNull
  end.

(** The fields of the first merge: the status, and [commitFrom] when the
    floor has to be lowered. *)
Definition statusFields (d : Db) (subscription : Subscription)
    (data : BackfillMessagePayload) (isComplete : bool) (t : TaskType) (rid : Z)
    : Fields :=
  let status := if isComplete then "complete" else "pending" in
  let updateRepoSyncFields : Fields := {[ getStatusKey t := VStr status ]} in
  if isComplete && bool_decide (t = commit) then
    match commitsFromDate data with
    | Some commitsFromDate =>
        match findByRepoId d subscription rid with
        | Some repoSync =>
            match commitFrom repoSync with
            | None => <["commitFrom" := VDate commitsFromDate]> updateRepoSyncFields
            | Some stored =>
                if commitsFromDate <? stored
                then <["commitFrom" := VDate commitsFromDate]> updateRepoSyncFields
                else updateRepoSyncFields
            end
        | None => updateRepoSyncFields
        end
    | None => updateRepoSyncFields
    end
  else updateRepoSyncFields.

Definition updateTaskStatusAndContinue (data : BackfillMessagePayload)
    (taskResultPayload : TaskResultPayload) (t : TaskType) (rid : Z) : M unit :=
  d ← getDb;
  match findSubscriptionForMessage d data with
  | None => mret ()
  | Some subscription =>
      let isComplete := isCompleteResult taskResultPayload in
      subscription ← updateRepo subscription rid
                       (statusFields d subscription data isComplete t rid);
      if negb isComplete then
        updateRepo subscription rid
          {[ getCursorKey t := lastCursor taskResultPayload ]};;
        scheduleNextTask 0
      else
        d' ← getDb;
        match getNextTask d' subscription (targetTasks data) with
        | None =>
            subscriptionUpdate subscription
              (<["syncStatus" := VStr "COMPLETE"]>
                 {[ "backfillSince" := getBackfillSince data ]});;
            mret ()
        | Some _ => scheduleNextTask 0
        end
  end.

(** ** Error classifier *)

(** [isNotFoundGithubError] takes the error and returns a closure over the
    test: [(err) => () => ...]. *)
Definition isNotFoundGithubError (err : Error) : unit → bool :=
  λ _, bool_decide (errStatus err = Some 404)
       || (instanceofGithubClientGraphQLError err && errIsNotFound err).

(** A function object used as a condition is truthy. *)
Definition truthyFunction {A B} (f : A → B) : bool := true.

Definition cloneRepository (r : Repository) : Repository :=
  {| id := id r; name := name r; full_name := full_name r;
     owner := (λ o, {| login := login o |}) <$> owner r;
     html_url := html_url r; updated_at := updated_at r |}.

(** [_.cloneDeep(task)] on the task's value: the record is rebuilt field by
    field.  The copy of the objects themselves is [TaskHeap.cloneDeepAt]. *)
Definition cloneDeep (t : Task) : Task :=
  {| task := task t; repositoryId := repositoryId t;
     repositoryOf := cloneRepository (repositoryOf t); cursor := cursor t |}.

(** [new TaskError(task, cause)] *)
Definition newTaskError (t : Task) (cause : Error) : Error :=
  TaskError (cloneDeep t) cause.

(** [now] is the reading of [Date.now()]. *)
Definition handleBackfillError (err : Error) (data : BackfillMessagePayload)
    (nextTask : Task) (now : Z) : M unit :=
  match err with
  | RateLimitingError rateLimitReset =>
      let delayMs := Z.max (rateLimitReset * 1000 - now) 0 in
      if negb (delayMs =? 0)
      then scheduleNextTask delayMs
      else scheduleNextTask 0
  | _ =>
      if instanceofGithubClientError err && truthyFunction (isNotFoundGithubError err)
      then updateTaskStatusAndContinue data {| edges := Some []; jiraPayload := false |}
             (task nextTask) (repositoryId nextTask)
      else throw (newTaskError nextTask err)
  end.

Definition markCurrentTaskAsFailedAndContinue (data : BackfillMessagePayload)
    (nextTask : Task) : M unit :=
  d ← getDb;
  match findSubscriptionForMessage d data with
  | None => mret ()
  | Some subscription =>
      subscription ← updateRepo subscription (repositoryId nextTask)
                       {[ getStatusKey (task nextTask) := VStr "failed" ]};
      if bool_decide (task nextTask = repository) then
        subscriptionUpdate subscription {[ "syncStatus" := VStr "FAILED" ]};;
        mret ()
      else scheduleNextTask 0
  end.

(** ** Execution engine *)

(** What the collaborators of one attempt answer: the processor (with the
    client it needs) returns a page or raises, and the Jira submission of a
    page that carries a payload succeeds or raises. *)
Record Attempt := {
  processorResult : Error + TaskResultPayload;
  jiraSubmitError : option Error
}.

Definition doProcessInstallation (data : BackfillMessagePayload)
    (attempt : Task → Attempt) (now : Z) : M unit :=
  d ← getDb;
  match findSubscriptionForMessage d data with
  | None => mret ()
  | Some subscription =>
      match getNextTask d subscription (targetTasks data) with
      | None =>
          subscriptionUpdate subscription
            (<["syncStatus" := VStr "COMPLETE"]>
               {[ "backfillSince" := getBackfillSince data ]});;
          mret ()
      | Some nextTask =>
          subscriptionUpdate subscription {[ "syncStatus" := VStr "ACTIVE" ]};;
          tryCatch
            (taskPayload ← (match processorResult (attempt nextTask) with
                            | inl err => throw err
                            | inr p => mret p
                            end);
             (if jiraPayload taskPayload then
                match jiraSubmitError (attempt nextTask) with
                | Some err => throw err
                | None => mret ()
                end
              else mret ());;
             updateTaskStatusAndContinue data taskPayload (task nextTask)
               (repositoryId nextTask))
            (λ err, handleBackfillError err data nextTask now)
      end
  end.

(** ** Rescheduler *)

(** [String(n)] for an integer number (below 1e21 in absolute value, where
    JavaScript prints all digits). *)
Definition toString (n : Z) : string := pretty n.

Definition codeUnits (s : string) : list N :=
  Ascii.N_of_ascii <$> String.list_ascii_of_string s.

(** Order of strings by code units, as [Array.prototype.sort] without a
    comparator compares the elements converted to strings. *)
Fixpoint lexLe (a b : list N) : bool :=
  match a, b with
  | [], _ => true
  | _ :: _, [] => false
  | x :: a', y :: b' => (x <? y)%N || ((x =? y)%N && lexLe a' b')
  end.

Definition sortLe : relation Z :=
  λ x y, lexLe (codeUnits (toString x)) (codeUnits (toString y)) = true.

Global Instance sortLe_dec x y : Decision (sortLe x y).
Proof. unfold sortLe. apply _. Defined.

(** [array.sort()] *)
Definition sort (l : list Z) : list Z := merge_sort sortLe l.

(** [Math.ceil(x / k)] on integers. *)
Definition ceilDiv (x k : Z) : Z := - ((- x) / k).

(** The calls of [sendSQSBackfillMessage(jobData, delaySeconds, logger)] that
    [maybeScheduleNextTask] makes, and the array [nextTaskDelaysMs] as the
    in-place [sort], [reverse] and [shift] leave it.  On a number
    [delayMs || 0] is [delayMs]; [shift] of an empty array gives [undefined],
    for which it is 0. *)
Definition maybeScheduleNextTask (jobData : BackfillMessagePayload)
    (nextTaskDelaysMs : list Z) : list (BackfillMessagePayload * Z) * list Z :=
  match nextTaskDelaysMs with
  | [] => ([], [])
  | _ :: _ =>
      match reverse (sort nextTaskDelaysMs) with
      | delayMs :: rest => ([(jobData, ceilDiv delayMs 1000)], rest)
      | [] => ([(jobData, ceilDiv 0 1000)], [])
      end
  end.

(** * Vocabulary of the statements *)

(** ** Worlds reached by the effects *)

(** The world after one merge into a Subscription. *)
Definition applySubscriptionUpdate (s : Subscription) (values : Fields) (w : World) : World :=
  {| db := {| subscriptions := mergeSubscriptions s values (subscriptions (db w));
              repoSyncStates := repoSyncStates (db w) |};
     writes := writes w ++ [SubscriptionUpdate (subId s) values];
     nextTaskDelaysMs := nextTaskDelaysMs w |}.

(** The world after one merge into the rows of a repository. *)
Definition applyRepoUpdate (s : Subscription) (rid : Z) (values : Fields) (w : World) : World :=
  {| db := {| subscriptions := subscriptions (db w);
              repoSyncStates := mergeRepoSyncStates s rid values (repoSyncStates (db w)) |};
     writes := writes w ++ [RepoSyncStateUpdate (subId s) rid values];
     nextTaskDelaysMs := nextTaskDelaysMs w |}.

(** The world after one call of [scheduleNextTask]. *)
Definition pushDelay (delayMs : Z) (w : World) : World :=
  {| db := db w; writes := writes w;
     nextTaskDelaysMs := nextTaskDelaysMs w ++ [delayMs] |}.

(** The fields [updateRepo] sends to the Subscription. *)
Definition subscriptionKeys : list string := ["repositoryStatus"; "repositoryCursor"].

(** The owner of the fields of task [t]: the Subscription for the discovery
    step, the RepoSyncState row of the repository for a category. *)
Definition routeMerge (s : Subscription) (rid : Z) (t : TaskType) (values : Fields)
    (w : World) : Subscription * World :=
  if decide (t = repository)
  then (mergeSubscription values s, applySubscriptionUpdate s values w)
  else (s, applyRepoUpdate s rid values w).

(** The merge of [values] for task [t], addressed to the record that owns
    the fields of [t]. *)
Definition ownerWrite (s : Subscription) (rid : Z) (t : TaskType) (values : Fields)
    : DbWrite :=
  if decide (t = repository) then SubscriptionUpdate (subId s) values
  else RepoSyncStateUpdate (subId s) rid values.

(** The status written for a result. *)
Definition statusOf (isComplete : bool) : Value :=
  VStr (if isComplete then "complete" else "pending").

(** The fields written when nothing is left to select. *)
Definition completeFields (data : BackfillMessagePayload) : Fields :=
  <["syncStatus" := VStr "COMPLETE"]> {[ "backfillSince" := getBackfillSince data ]}.

(** All fields [updateTaskStatusAndContinue] merges into the rows of a
    category task. *)
Definition mergedFields (d : Db) (s : Subscription) (data : BackfillMessagePayload)
    (p : TaskResultPayload) (t : TaskType) (rid : Z) : Fields :=
  (if isCompleteResult p then ∅ else {[ getCursorKey t := lastCursor p ]})
  ∪ statusFields d s data (isCompleteResult p) t rid.

(** The result [{ edges: [] }] passed on a not-found error. *)
Definition noEdges : TaskResultPayload := {| edges := Some []; jiraPayload := false |}.

(** The world [updateTaskStatusAndContinue] ends in, step by step. *)
Definition afterUpdate (data : BackfillMessagePayload) (p : TaskResultPayload)
    (t : TaskType) (rid : Z) (w : World) : World :=
  match findSubscriptionForMessage (db w) data with
  | None => w
  | Some s =>
      let c := isCompleteResult p in
      let sw1 := routeMerge s rid t (statusFields (db w) s data c t rid) w in
      if c then
        match getNextTask (db sw1.2) sw1.1 (targetTasks data) with
        | None => applySubscriptionUpdate sw1.1 (completeFields data) sw1.2
        | Some _ => pushDelay 0 sw1.2
        end
      else
        pushDelay 0
          (routeMerge sw1.1 rid t {[ getCursorKey t := lastCursor p ]} sw1.2).2
  end.

(** The field written when a task is given up. *)
Definition failedFields (t : TaskType) : Fields := {[ getStatusKey t := VStr "failed" ]}.

(** The world [markCurrentTaskAsFailedAndContinue] ends in. *)
Definition afterFailed (data : BackfillMessagePayload) (nextTask : Task) (w : World)
    : World :=
  match findSubscriptionForMessage (db w) data with
  | None => w
  | Some s =>
      if decide (task nextTask = repository)
      then applySubscriptionUpdate
             (mergeSubscription (failedFields repository) s)
             {[ "syncStatus" := VStr "FAILED" ]}
             (applySubscriptionUpdate s (failedFields repository) w)
      else pushDelay 0
             (applyRepoUpdate s (repositoryId nextTask) (failedFields (task nextTask)) w)
  end.

(** The world one attempt ends in. *)
Definition afterAttempt (data : BackfillMessagePayload) (attempt : Task → Attempt)
    (now : Z) (w : World) : (Error + unit) * World :=
  match findSubscriptionForMessage (db w) data with
  | None => (inr (), w)
  | Some s =>
      match getNextTask (db w) s (targetTasks data) with
      | None => (inr (), applySubscriptionUpdate s (completeFields data) w)
      | Some tk =>
          let wa := applySubscriptionUpdate s {[ "syncStatus" := VStr "ACTIVE" ]} w in
          match processorResult (attempt tk), jiraSubmitError (attempt tk) with
          | inl err, _ => handleBackfillError err data tk now wa
          | inr p, Some err =>
              if jiraPayload p then handleBackfillError err data tk now wa
              else (inr (), afterUpdate data p (task tk) (repositoryId tk) wa)
          | inr p, None =>
              (inr (), afterUpdate data p (task tk) (repositoryId tk) wa)
          end
      end
  end.

(** What may happen to the store after a task was given up: further
    attempts, with any answers of the collaborators, and further give-ups. *)
Inductive Op :=
  | Process (data : BackfillMessagePayload) (attempt : Task → Attempt) (now : Z)
  | GiveUp (data : BackfillMessagePayload) (nextTask : Task).

(** The world after one operation, whether it returned or raised. *)
Definition runOp (w : World) (o : Op) : World :=
  match o with
  | Process data attempt now => (doProcessInstallation data attempt now w).2
  | GiveUp data nextTask => (markCurrentTaskAsFailedAndContinue data nextTask w).2
  end.

Definition runOps (ops : list Op) (w : World) : World := foldl runOp w ops.

(** ** Predicates of the statements *)

(** A row has outstanding work when one of the candidate categories is
    unset or pending. *)
Definition hasOutstanding (tasks : list TaskType) (r : RepoSyncState) : Prop :=
  ∃ t, t ∈ tasks ∧ isOutstanding r t = true.

(** [subscription.repositoryStatus === "complete"] *)
Definition discoveryComplete (s : Subscription) : Prop :=
  subColumns s !! "repositoryStatus" = Some (VStr "complete").

(** The errors the classifier is meant to treat as a deleted repository: a
    [GithubClientError] with status 404, or a GraphQL error carrying the
    not-found marker (the body of [isNotFoundGithubError]). *)
Definition reportsNotFound (err : Error) : Prop :=
  instanceofGithubClientError err = true ∧ isNotFoundGithubError err () = true.

(** The reading of C6 as stated: status and cursor reach the store in one
    merge. *)
Definition persistedInOneMerge (data : BackfillMessagePayload)
    (p : TaskResultPayload) (t : TaskType) (rid : Z) (w : World) : Prop :=
  ∃ wr, writes (updateTaskStatusAndContinue data p t rid w).2 = writes w ++ [wr].

(** One row per subscription and repository. *)
Definition uniqueRepos (d : Db) : Prop :=
  NoDup ((λ r, (subscriptionId r, repoId r)) <$> repoSyncStates d).

(** What one call may do to the floor of a row: leave it, or lower it to the
    floor of the message on completion of [commit]. *)
Definition floorStep (data : BackfillMessagePayload) (p : TaskResultPayload)
    (t : TaskType) (r r' : RepoSyncState) : Prop :=
  rssId r' = rssId r
  ∧ (commitFrom r' = commitFrom r
     ∨ (isCompleteResult p = true ∧ t = commit
        ∧ ∃ floor, commitsFromDate data = Some floor
                   ∧ commitFrom r' = Some floor
                   ∧ (commitFrom r = None
                      ∨ ∃ stored, commitFrom r = Some stored ∧ floor < stored))).

(** The stored floor never moves later. *)
Definition floorNotLater (r r' : RepoSyncState) : Prop :=
  match commitFrom r with
  | Some stored => ∃ floor, commitFrom r' = Some floor ∧ floor ≤ stored
  | None => True
  end.

(** The number of characters of [String(n)]. *)
Definition digitCount (n : Z) : nat := String.length (toString n).

(** The reading of C2 as stated: the one message carries the minimum of the
    requested delays, in seconds rounded up. *)
Definition sendsMinimum (jobData : BackfillMessagePayload) (l : list Z) : Prop :=
  (maybeScheduleNextTask jobData l).1
  = match l with
    | [] => []
    | x :: l' => [(jobData, ceilDiv (foldr Z.min x l') 1000)]
    end.

(** Every row of repository [rid] of subscription [sid] has category [t]
    marked failed. *)
Definition failedAt (sid rid : Z) (t : TaskType) (d : Db) : Prop :=
  ∀ r, r ∈ repoSyncStates d → subscriptionId r = sid → repoId r = rid →
       rssColumns r !! getStatusKey t = Some (VStr "failed").

(** ** A sample store *)

Module Sample.

Definition data : BackfillMessagePayload :=
  {| installationId := 1; jiraHost := "https://acme.atlassian.net";
     gitHubAppConfig := None; targetTasks := None;
     commitsFromDate := Some 1000; startTime := None |}.

Definition subscription : Subscription :=
  {| subId := 10; subJiraHost := "https://acme.atlassian.net";
     gitHubInstallationId := 1; gitHubAppId := None;
     subColumns := {[ "repositoryStatus" := VStr "complete" ]} |}.

Definition row (i rid : Z) (updated : option Z) (cols : Fields) : RepoSyncState :=
  {| rssId := i; subscriptionId := 10; repoId := rid; repoName := "repo";
     repoOwner := "acme"; repoFullName := "acme/repo";
     repoUrl := "https://github.com/acme/repo";
     repoUpdatedAt := updated; rssColumns := cols |}.

Definition done3 : Fields :=
  <["pullStatus" := VStr "complete"]>
    (<["branchStatus" := VStr "complete"]> {[ "commitStatus" := VStr "complete" ]}).

(** Repository 7 is through pull, branch and commit; repository 8, updated
    earlier, has not started. *)
Definition store : Db :=
  {| subscriptions := [subscription];
     repoSyncStates := [row 1 8 (Some 50) ∅; row 2 7 (Some 90) done3] |}.

Definition world : World :=
  {| db := store; writes := []; nextTaskDelaysMs := [] |}.

Definition buildTask : Task :=
  {| task := build; repositoryId := 7;
     repositoryOf := repositoryOfSyncState (row 2 7 (Some 90) done3);
     cursor := None |}.

Definition page (c : string) : TaskResultPayload :=
  {| edges := Some [ {| edgeCursor := VStr c |} ]; jiraPayload := false |}.

(** Three repositories in the middle of [commit], with a stored floor
    later than, earlier than, and absent with respect to the floor 1000 of
    the message. *)
Definition inCommit (floor : option Value) : Fields :=
  <["pullStatus" := VStr "complete"]>
    (<["branchStatus" := VStr "complete"]>
       (<["commitStatus" := VStr "pending"]>
          (<["commitCursor" := VStr "c9"]>
             (default ∅ ((λ v, {[ "commitFrom" := v ]}) <$> floor))))).

Definition floors : World :=
  {| db := {| subscriptions := [subscription];
              repoSyncStates := [row 1 21 (Some 30) (inCommit (Some (VDate 5000)));
                                 row 2 22 (Some 20) (inCommit (Some (VDate 500)));
                                 row 3 23 (Some 10) (inCommit None)] |};
     writes := []; nextTaskDelaysMs := [] |}.

(** One repository with only [deployment] left. *)
Definition lastCategory : World :=
  {| db := {| subscriptions := [subscription];
              repoSyncStates :=
                [row 1 7 (Some 90)
                   (<["buildStatus" := VStr "complete"]>
                      (<["deploymentStatus" := VStr "pending"]> done3))] |};
     writes := []; nextTaskDelaysMs := [] |}.

Definition deploymentTask : Task :=
  {| task := deployment; repositoryId := 7;
     repositoryOf := repositoryOfSyncState (row 1 7 (Some 90) ∅);
     cursor := None |}.

Definition idle (t : Task) : Attempt :=
  {| processorResult := inr noEdges; jiraSubmitError := None |}.

End Sample.

(** ** The task as an object graph

    [handleBackfillError] receives a reference to the task object, and
    [TaskError] keeps what [_.cloneDeep] returns for it.  Here the task, its
    repository snapshot and the owner of that are objects in a heap, so that
    a reference held elsewhere can be told from a copy. *)

Module TaskHeap.

Definition loc := positive.

Inductive Obj :=
  | TaskObj (t : TaskType) (rid : Z) (repo : loc) (c : option Value)
  | RepositoryObj (i : option Z) (n fn : option string) (o : option loc)
      (url : option string) (updated : option Z)
  | OwnerObj (l : string).

Abbreviation Heap := (gmap loc Obj).

(** The value an object graph holds, read through the references. *)
Definition readOwner (h : Heap) (l : loc) : option Owner :=
  match h !! l with
  | Some (OwnerObj s) => Some {| login := s |}
  | _ => None
  end.

Definition readRepository (h : Heap) (l : loc) : option Repository :=
  match h !! l with
  | Some (RepositoryObj i n fn o url updated) =>
      match o with
      | None => Some {| id := i; name := n; full_name := fn; owner := None;
                        html_url := url; updated_at := updated |}
      | Some lo =>
          match readOwner h lo with
          | Some ow => Some {| id := i; name := n; full_name := fn; owner := Some ow;
                               html_url := url; updated_at := updated |}
          | None => None
          end
      end
  | _ => None
  end.

Definition readTask (h : Heap) (l : loc) : option Task :=
  match h !! l with
  | Some (TaskObj t rid lr c) =>
      match readRepository h lr with
      | Some r => Some {| task := t; repositoryId := rid; repositoryOf := r; cursor := c |}
      | None => None
      end
  | _ => None
  end.

(** A new object, at a location not in use. *)
Definition alloc (h : Heap) (o : Obj) : loc * Heap :=
  let l := fresh (dom h) in (l, <[l := o]> h).

(** [_.cloneDeep]: every object reached from the task is copied into a new
    object; strings, numbers and dates are copied as values. *)
Definition cloneOwnerAt (h : Heap) (l : loc) : option (loc * Heap) :=
  match h !! l with
  | Some (OwnerObj s) => Some (alloc h (OwnerObj s))
  | _ => None
  end.

Definition cloneRepositoryAt (h : Heap) (l : loc) : option (loc * Heap) :=
  match h !! l with
  | Some (RepositoryObj i n fn o url updated) =>
      match o with
      | None => Some (alloc h (RepositoryObj i n fn None url updated))
      | Some lo =>
          match cloneOwnerAt h lo with
          | Some (lo', h1) => Some (alloc h1 (RepositoryObj i n fn (Some lo') url updated))
          | None => None
          end
      end
  | _ => None
  end.

Definition cloneDeepAt (h : Heap) (l : loc) : option (loc * Heap) :=
  match h !! l with
  | Some (TaskObj t rid lr c) =>
      match cloneRepositoryAt h lr with
      | Some (lr', h1) => Some (alloc h1 (TaskObj t rid lr' c))
      | None => None
      end
  | _ => None
  end.


(** A task object, its repository and the owner. *)
Definition sampleHeap : Heap :=
  <[1%positive := TaskObj build 7 2%positive None]>
    (<[2%positive := RepositoryObj (Some 7) (Some "repo") (Some "acme/repo")
                       (Some 3%positive) (Some "https://github.com/acme/repo") (Some 90)]>
       {[ 3%positive := OwnerObj "acme" ]}).

End TaskHeap.

(** ** Vocabulary of the further properties *)

(** The primary key of the RepoSyncState table. *)
Definition uniqueIds (d : Db) : Prop := NoDup (rssId <$> repoSyncStates d).

(** The columns [updateTaskStatusAndContinue] may write for task [t] in a
    row, and the columns it may write in a Subscription. *)
Definition rowKeys (t : TaskType) : list string :=
  [getStatusKey t; getCursorKey t; "commitFrom"].

Definition subscriptionProgressKeys : list string :=
  ["repositoryStatus"; "repositoryCursor"; "syncStatus"; "backfillSince"].

(** [r'] is the row [r] with, at most, columns of [keys] changed. *)
Definition rowChangedWithin (keys : list string) (r r' : RepoSyncState) : Prop :=
  rssId r' = rssId r ∧ subscriptionId r' = subscriptionId r ∧ repoId r' = repoId r
  ∧ repoName r' = repoName r ∧ repoOwner r' = repoOwner r
  ∧ repoFullName r' = repoFullName r ∧ repoUrl r' = repoUrl r
  ∧ repoUpdatedAt r' = repoUpdatedAt r
  ∧ ∀ k, k ∉ keys → rssColumns r' !! k = rssColumns r !! k.

(** [x'] is the Subscription [x] with, at most, columns of [keys] changed. *)
Definition subscriptionChangedWithin (keys : list string) (x x' : Subscription) : Prop :=
  subId x' = subId x ∧ subJiraHost x' = subJiraHost x
  ∧ gitHubInstallationId x' = gitHubInstallationId x ∧ gitHubAppId x' = gitHubAppId x
  ∧ ∀ k, k ∉ keys → subColumns x' !! k = subColumns x !! k.

(** What a call for repository [rid] of subscription [s] may do to a row
    and to a Subscription. *)
Definition rowFrame (s : Subscription) (rid : Z) (t : TaskType)
    (r r' : RepoSyncState) : Prop :=
  if decide (subscriptionId r = subId s ∧ repoId r = rid ∧ t ≠ repository)
  then rowChangedWithin (rowKeys t) r r'
  else r' = r.

Definition subscriptionFrame (s : Subscription) (x x' : Subscription) : Prop :=
  if decide (subId x = subId s)
  then subscriptionChangedWithin subscriptionProgressKeys x x'
  else x' = x.

(** The world after [subscription.update({ syncStatus: "ACTIVE" })]. *)
Definition active (s : Subscription) (w : World) : World :=
  applySubscriptionUpdate s {[ "syncStatus" := VStr "ACTIVE" ]} w.

(** The error the collaborators of the attempt raise for task [tk]: the
    processor's, or that of the Jira submission of a page with a payload. *)
Definition raisedBy (attempt : Task → Attempt) (tk : Task) (err : Error) : Prop :=
  processorResult (attempt tk) = inl err
  ∨ ∃ p, processorResult (attempt tk) = inr p ∧ jiraPayload p = true
         ∧ jiraSubmitError (attempt tk) = Some err.

(** The page the collaborators deliver for task [tk]. *)
Definition deliveredBy (attempt : Task → Attempt) (tk : Task) (p : TaskResultPayload)
    : Prop :=
  processorResult (attempt tk) = inr p
  ∧ (jiraPayload p = false ∨ jiraSubmitError (attempt tk) = None).

(** The five ways one attempt can end. *)
Inductive attemptOutcome (data : BackfillMessagePayload) (attempt : Task → Attempt)
    (now : Z) (w : World) : (Error + unit) * World → Prop :=
  | NoSubscription :
      findSubscriptionForMessage (db w) data = None →
      attemptOutcome data attempt now w (inr (), w)
  | NothingLeft s :
      findSubscriptionForMessage (db w) data = Some s →
      getNextTask (db w) s (targetTasks data) = None →
      attemptOutcome data attempt now w
        (inr (), applySubscriptionUpdate s (completeFields data) w)
  | RateLimited s tk rateLimitReset :
      findSubscriptionForMessage (db w) data = Some s →
      getNextTask (db w) s (targetTasks data) = Some tk →
      raisedBy attempt tk (RateLimitingError rateLimitReset) →
      attemptOutcome data attempt now w
        (inr (), pushDelay (Z.max (rateLimitReset * 1000 - now) 0) (active s w))
  | Recorded s tk p :
      findSubscriptionForMessage (db w) data = Some s →
      getNextTask (db w) s (targetTasks data) = Some tk →
      deliveredBy attempt tk p
      ∨ (p = noEdges
         ∧ ∃ err, raisedBy attempt tk err ∧ instanceofGithubClientError err = true
                  ∧ instanceofRateLimitingError err = false) →
      attemptOutcome data attempt now w
        (inr (), afterUpdate data p (task tk) (repositoryId tk) (active s w))
  | Raised s tk cause :
      findSubscriptionForMessage (db w) data = Some s →
      getNextTask (db w) s (targetTasks data) = Some tk →
      raisedBy attempt tk cause →
      instanceofGithubClientError cause = false →
      attemptOutcome data attempt now w (inl (TaskError tk cause), active s w).

(** An attempt whose processor delivers one page with a Jira payload, and
    whose Jira submission fails with [cause]. *)
Definition failingJira (cause : Error) (tk : Task) : Attempt :=
  {| processorResult := inr {| edges := Some [ {| edgeCursor := VStr "c1" |} ];
                               jiraPayload := true |};
     jiraSubmitError := Some cause |}.

(** An attempt that returned and requested no follow-up. *)
Definition quiet (w : World) (out : (Error + unit) * World) : Prop :=
  out.1 = inr () ∧ nextTaskDelaysMs out.2 = nextTaskDelaysMs w.

(** ** Outstanding work as a measure *)

(** The candidate categories a row still has outstanding, and their number
    over the rows of a Subscription: the work the selector can still return
    once discovery is complete. *)
Definition outstandingIn (tasks : list TaskType) (r : RepoSyncState) : nat :=
  length (filter (λ t, isOutstanding r t = true) tasks).

Definition pendingCount (d : Db) (s : Subscription)
    (targets : option (list TaskType)) : nat :=
  sum_list_with (outstandingIn (getTargetTasks targets))
    (filter (λ r, subscriptionId r = subId s) (repoSyncStates d)).

(** [r'] is a later state of the row [r] in which no category that was
    settled is outstanding again. *)
Definition notReopened (r r' : RepoSyncState) : Prop :=
  rssId r' = rssId r ∧ subscriptionId r' = subscriptionId r ∧ repoId r' = repoId r
  ∧ ∀ t, isOutstanding r' t = true → isOutstanding r t = true.


(** The answers of the collaborators after which [updateTaskStatusAndContinue]
    is called with a result without edges: such a page was delivered, or an
    error of the [GithubClientError] hierarchy other than a rate limit was
    raised. *)
Definition endsCategory (attempt : Task → Attempt) (tk : Task) : Prop :=
  (∃ p, deliveredBy attempt tk p ∧ isCompleteResult p = true)
  ∨ (∃ err, raisedBy attempt tk err ∧ instanceofGithubClientError err = true
            ∧ instanceofRateLimitingError err = false).

(** The first category of the repository of [Sample.world] that has not
    started. *)
Definition samplePullTask : Task :=
  {| task := pull; repositoryId := 8;
     repositoryOf := repositoryOfSyncState (Sample.row 1 8 (Some 50) ∅);
     cursor := None |}.

(** ** One run of [processInstallation] that executes the job

    In the [E_OK] arm the attempt has run with an array [nextTaskDelaysMs]
    created empty for it, and [maybeScheduleNextTask] then reads that array. *)
Definition freshDelays (w : World) : World :=
  {| db := db w; writes := writes w; nextTaskDelaysMs := [] |}.

Definition sentAfterAttempt (data : BackfillMessagePayload) (attempt : Task → Attempt)
    (now : Z) (w : World) : list (BackfillMessagePayload * Z) :=
  (maybeScheduleNextTask data
     (nextTaskDelaysMs (doProcessInstallation data attempt now (freshDelays w)).2)).1.

(** ** Draining a Subscription *)

(** An attempt for the message [data] whose collaborators end whatever
    category is selected. *)
Definition draining (data : BackfillMessagePayload) (o : Op) : Prop :=
  match o with
  | Process data' attempt _ => data' = data ∧ ∀ tk, endsCategory attempt tk
  | GiveUp _ _ => False
  end.

(** The Subscription of [s] is past discovery, in a store with one row per
    repository. *)
Definition backfilling (data : BackfillMessagePayload) (s : Subscription) (w : World)
    : Prop :=
  uniqueRepos (db w)
  ∧ ∃ s', findSubscriptionForMessage (db w) data = Some s'
          ∧ subId s' = subId s ∧ discoveryComplete s'.

(** The Subscription of the message is [COMPLETE] and the selector finds
    nothing left for it. *)
Definition backfilled (data : BackfillMessagePayload) (w : World) : Prop :=
  ∃ s', findSubscriptionForMessage (db w) data = Some s'
        ∧ subColumns s' !! "syncStatus" = Some (VStr "COMPLETE")
        ∧ subColumns s' !! "backfillSince" = Some (getBackfillSince data)
        ∧ getNextTask (db w) s' (targetTasks data) = None.

(** The message of [Sample.data] with a target filter that names the
    discovery step only. *)
Definition discoveryOnly : BackfillMessagePayload :=
  {| installationId := 1; jiraHost := "https://acme.atlassian.net";
     gitHubAppConfig := None; targetTasks := Some [repository];
     commitsFromDate := Some 1000; startTime := None |}.

(** * Properties *)

(** ** Task catalog *)

Lemma baseIntersection_filter {A} `{EqDecision A} (seen xs ys : list A) :
  NoDup xs → (∀ x, x ∈ xs → x ∉ seen) →
  baseIntersection seen xs ys = filter (λ x, x ∈ ys) xs.
Proof.
  revert seen. induction xs as [|x xs IH]; intros seen Hnd Hseen; [done|].
  apply NoDup_cons in Hnd as [Hx Hnd]. cbn [baseIntersection].
  rewrite filter_cons.
  destruct (decide (x ∈ ys ∧ x ∉ seen)) as [[Hin _]|Hno].
  - rewrite decide_True by done. f_equal. apply IH; [done|].
    intros y Hy [->|Hys]%elem_of_cons; [done|].
    by apply (Hseen y); [right|].
  - assert (x ∉ ys) as Hout.
    { intros Hin. apply Hno. split; [done|]. apply Hseen. by left. }
    rewrite decide_False by done. apply IH; [done|].
    intros y Hy. apply Hseen. by right.
Qed.

Lemma allTaskTypes_NoDup : NoDup allTaskTypes.
Proof.
  apply NoDup_ListNoDup. unfold allTaskTypes.
  repeat constructor; cbn; intuition discriminate.
Qed.

Lemma intersection_allTaskTypes (f : list TaskType) :
  intersection allTaskTypes f = filter (λ t, t ∈ f) allTaskTypes.
Proof.
  apply baseIntersection_filter; [apply allTaskTypes_NoDup|].
  intros x _. apply not_elem_of_nil.
Qed.

Lemma getTargetTasks_sublist (f : option (list TaskType)) :
  sublist (getTargetTasks f) allTaskTypes.
Proof.
  destruct f as [[|t ts]|]; cbn [getTargetTasks]; try done.
  rewrite intersection_allTaskTypes. apply sublist_filter.
Qed.

Lemma getTargetTasks_NoDup (f : option (list TaskType)) :
  NoDup (getTargetTasks f).
Proof.
  eapply sublist_NoDup; [apply allTaskTypes_NoDup|apply getTargetTasks_sublist].
Qed.

(** C8.  [getTargetTasks] returns the fixed order intersected with the
    filter, in the sequence of the fixed order, and the whole fixed order for
    an empty or absent filter. *)
Theorem getTargetTasks_fixed_order (targets : option (list TaskType)) :
  getTargetTasks targets =
    match targets with
    | None | Some [] => allTaskTypes
    | Some f => filter (λ t, t ∈ f) allTaskTypes
    end
  ∧ sublist (getTargetTasks targets) allTaskTypes
  ∧ NoDup (getTargetTasks targets)
  ∧ ∀ t, t ∈ getTargetTasks targets ↔
         t ∈ allTaskTypes ∧ (default [] targets = [] ∨ t ∈ default [] targets).
Proof.
  split_and!.
  - destruct targets as [[|t ts]|]; cbn [getTargetTasks]; try done.
    apply intersection_allTaskTypes.
  - apply getTargetTasks_sublist.
  - apply getTargetTasks_NoDup.
  - intros t. destruct targets as [[|t' ts]|]; cbn [getTargetTasks default].
    + naive_solver.
    + rewrite intersection_allTaskTypes, list_elem_of_filter. naive_solver.
    + naive_solver.
Qed.

(** ** Running the store operations *)

Lemma subscriptionUpdate_run s values w :
  subscriptionUpdate s values w
  = (inr (mergeSubscription values s), applySubscriptionUpdate s values w).
Proof. reflexivity. Qed.

Lemma updateRepoFromSubscription_run s rid values w :
  updateRepoFromSubscription s rid values w = (inr (), applyRepoUpdate s rid values w).
Proof. reflexivity. Qed.

Lemma pick_all (values : Fields) keys :
  (∀ k v, values !! k = Some v → k ∈ keys) →
  pick values keys = values ∧ omit values keys = ∅.
Proof.
  intros Hk. unfold pick, omit. split.
  - apply map_filter_id. intros k v Hkv. cbn. eauto.
  - apply map_empty_filter_2. intros k v Hkv Hout. cbn in Hout. eauto.
Qed.

Lemma pick_none (values : Fields) keys :
  (∀ k v, values !! k = Some v → k ∉ keys) →
  pick values keys = ∅ ∧ omit values keys = values.
Proof.
  intros Hk. unfold pick, omit. split.
  - apply map_empty_filter_2. intros k v Hkv Hin. cbn in Hin.
    by apply (Hk k v).
  - apply map_filter_id. intros k v Hkv. cbn. eauto.
Qed.

Lemma hasKeys_true (values : Fields) k v :
  values !! k = Some v → hasKeys values = true.
Proof.
  intros Hkv. unfold hasKeys. rewrite bool_decide_eq_false_2; [done|].
  intros ->. by rewrite lookup_empty in Hkv.
Qed.

Lemma hasKeys_empty : hasKeys ∅ = false.
Proof. reflexivity. Qed.

(** Fields of the Subscription only: one merge into the Subscription. *)
Lemma updateRepo_subscription s rid (values : Fields) k0 v0 w :
  values !! k0 = Some v0 →
  (∀ k v, values !! k = Some v → k ∈ subscriptionKeys) →
  updateRepo s rid values w
  = (inr (mergeSubscription values s), applySubscriptionUpdate s values w).
Proof.
  intros Hne Hk. unfold updateRepo. fold subscriptionKeys.
  destruct (pick_all values subscriptionKeys Hk) as [-> ->].
  by rewrite (hasKeys_true _ _ _ Hne), hasKeys_empty.
Qed.

(** Fields of the RepoSyncState only: one merge into the row. *)
Lemma updateRepo_repoSyncState s rid (values : Fields) k0 v0 w :
  values !! k0 = Some v0 →
  (∀ k v, values !! k = Some v → k ∉ subscriptionKeys) →
  updateRepo s rid values w = (inr s, applyRepoUpdate s rid values w).
Proof.
  intros Hne Hk. unfold updateRepo. fold subscriptionKeys.
  destruct (pick_none values subscriptionKeys Hk) as [-> ->].
  by rewrite (hasKeys_true _ _ _ Hne), hasKeys_empty.
Qed.

Lemma getStatusKey_subscription t :
  getStatusKey t ∈ subscriptionKeys ↔ t = repository.
Proof.
  split; [|intros ->; by left].
  destruct t; try done; intros Hin; exfalso;
    repeat (apply elem_of_cons in Hin as [Hin|Hin]; [discriminate Hin|]);
    by apply elem_of_nil in Hin.
Qed.

Lemma getCursorKey_subscription t :
  getCursorKey t ∈ subscriptionKeys ↔ t = repository.
Proof.
  split; [|intros ->; right; by left].
  destruct t; try done; intros Hin; exfalso;
    repeat (apply elem_of_cons in Hin as [Hin|Hin]; [discriminate Hin|]);
    by apply elem_of_nil in Hin.
Qed.

Lemma commitFrom_not_subscription : "commitFrom" ∉ subscriptionKeys.
Proof.
  intros Hin.
  repeat (apply elem_of_cons in Hin as [Hin|Hin]; [discriminate Hin|]).
  by apply elem_of_nil in Hin.
Qed.

Global Instance getStatusKey_inj : Inj (=) (=) getStatusKey.
Proof. intros [] [] Heq; try done; discriminate Heq. Qed.

Global Instance getCursorKey_inj : Inj (=) (=) getCursorKey.
Proof. intros [] [] Heq; try done; discriminate Heq. Qed.

Lemma status_ne_cursor t t' : getStatusKey t ≠ getCursorKey t'.
Proof. destruct t, t'; discriminate. Qed.

Lemma status_ne_commitFrom t : getStatusKey t ≠ "commitFrom".
Proof. destruct t; discriminate. Qed.

Lemma cursor_ne_commitFrom t : getCursorKey t ≠ "commitFrom".
Proof. destruct t; discriminate. Qed.

(** ** Routing of the merges of [updateTaskStatusAndContinue] *)

Lemma statusFields_cases d s data c t rid :
  statusFields d s data c t rid = {[ getStatusKey t := statusOf c ]}
  ∨ (∃ floor, c = true ∧ t = commit ∧ commitsFromDate data = Some floor
       ∧ statusFields d s data c t rid
         = <["commitFrom" := VDate floor]> {[ getStatusKey t := statusOf c ]}
       ∧ ∃ repoSync, findByRepoId d s rid = Some repoSync
           ∧ (commitFrom repoSync = None
              ∨ ∃ stored, commitFrom repoSync = Some stored ∧ floor < stored)).
Proof.
  unfold statusFields, statusOf.
  destruct c; cbn [andb]; [|by left].
  case_bool_decide as Ht; [|by left].
  destruct (commitsFromDate data) as [floor|]; [|by left].
  destruct (findByRepoId d s rid) as [repoSync|] eqn:Hfind; [|by left].
  destruct (commitFrom repoSync) as [stored|] eqn:Hstored.
  - destruct (floor <? stored) eqn:Hlt; [|by left].
    right. exists floor. split_and!; try done.
    exists repoSync. split; [done|]. right. exists stored.
    split; [done|]. by apply Z.ltb_lt.
  - right. exists floor. split_and!; try done.
    exists repoSync. split; [done|]. by left.
Qed.

Lemma statusFields_status d s data c t rid :
  statusFields d s data c t rid !! getStatusKey t = Some (statusOf c).
Proof.
  destruct (statusFields_cases d s data c t rid) as [->|(f & _ & _ & _ & -> & _)].
  - apply lookup_singleton_eq.
  - rewrite lookup_insert_ne by (symmetry; apply status_ne_commitFrom).
    apply lookup_singleton_eq.
Qed.

Lemma statusFields_keys d s data c t rid k v :
  statusFields d s data c t rid !! k = Some v →
  k = getStatusKey t ∨ (k = "commitFrom" ∧ t = commit).
Proof.
  destruct (statusFields_cases d s data c t rid) as [->|(f & _ & -> & _ & -> & _)].
  - intros [<- _]%lookup_singleton_Some. by left.
  - intros [[<- _]|[_ [<- _]%lookup_singleton_Some]]%lookup_insert_Some; auto.
Qed.

Lemma statusFields_no_cursor d s data c t rid t' :
  statusFields d s data c t rid !! getCursorKey t' = None.
Proof.
  destruct (statusFields d s data c t rid !! getCursorKey t') as [v|] eqn:Hv; [|done].
  apply statusFields_keys in Hv as [Hk|[Hk _]].
  - by apply symmetry, status_ne_cursor in Hk.
  - by apply cursor_ne_commitFrom in Hk.
Qed.

Lemma updateRepo_statusFields d s data c t rid w :
  updateRepo s rid (statusFields d s data c t rid) w
  = (inr (routeMerge s rid t (statusFields d s data c t rid) w).1,
     (routeMerge s rid t (statusFields d s data c t rid) w).2).
Proof.
  unfold routeMerge. destruct (decide (t = repository)) as [->|Hne]; cbn [fst snd].
  - eapply updateRepo_subscription; [apply statusFields_status|].
    intros k v [->|[_ [=]]]%statusFields_keys. by left.
  - eapply updateRepo_repoSyncState; [apply statusFields_status|].
    intros k v [->|[-> _]]%statusFields_keys.
    + by rewrite getStatusKey_subscription.
    + apply commitFrom_not_subscription.
Qed.

Lemma updateRepo_cursorField s rid t v w :
  updateRepo s rid {[ getCursorKey t := v ]} w
  = (inr (routeMerge s rid t {[ getCursorKey t := v ]} w).1,
     (routeMerge s rid t {[ getCursorKey t := v ]} w).2).
Proof.
  unfold routeMerge. destruct (decide (t = repository)) as [->|Hne]; cbn [fst snd].
  - eapply updateRepo_subscription; [apply lookup_singleton_eq|].
    intros k v' [<- _]%lookup_singleton_Some. right. by left.
  - eapply updateRepo_repoSyncState; [apply lookup_singleton_eq|].
    intros k v' [<- _]%lookup_singleton_Some.
    by rewrite getCursorKey_subscription.
Qed.

Lemma updateRepo_statusField s rid t v w :
  updateRepo s rid {[ getStatusKey t := v ]} w
  = (inr (routeMerge s rid t {[ getStatusKey t := v ]} w).1,
     (routeMerge s rid t {[ getStatusKey t := v ]} w).2).
Proof.
  unfold routeMerge. destruct (decide (t = repository)) as [->|Hne]; cbn [fst snd].
  - eapply updateRepo_subscription; [apply lookup_singleton_eq|].
    intros k v' [<- _]%lookup_singleton_Some. by left.
  - eapply updateRepo_repoSyncState; [apply lookup_singleton_eq|].
    intros k v' [<- _]%lookup_singleton_Some.
    by rewrite getStatusKey_subscription.
Qed.

Lemma updateTaskStatusAndContinue_run data p t rid w :
  updateTaskStatusAndContinue data p t rid w = (inr (), afterUpdate data p t rid w).
Proof.
  unfold updateTaskStatusAndContinue, afterUpdate.
  unfold mbind at 1, M_bind at 1. cbn [getDb].
  destruct (findSubscriptionForMessage (db w) data) as [s|]; [|done].
  unfold mbind at 1, M_bind at 1. rewrite updateRepo_statusFields.
  destruct (isCompleteResult p); cbn [negb].
  - unfold mbind at 1, M_bind at 1. cbn [getDb].
    destruct (getNextTask _ _ _); [done|].
    unfold mbind, M_bind. by rewrite subscriptionUpdate_run.
  - unfold mbind at 1, M_bind at 1. by rewrite updateRepo_cursorField.
Qed.

(** ** Task selector *)

Global Instance rankedBefore_total : Total rankedBefore.
Proof.
  intros x y. unfold rankedBefore, rankBefore.
  destruct (repoUpdatedAt x) as [a|], (repoUpdatedAt y) as [b|]; auto.
  - destruct (Z.lt_trichotomy a b) as [Hab|[->|Hab]].
    + right. apply orb_true_iff. left. by apply Z.ltb_lt.
    + rewrite Z.ltb_irrefl, Z.eqb_refl. cbn.
      destruct (Z.le_ge_cases (rssId x) (rssId y)) as [Hle|Hle];
        [right|left]; by apply Z.leb_le.
    + left. apply orb_true_iff. left. by apply Z.ltb_lt.
  - destruct (Z.le_ge_cases (rssId x) (rssId y)) as [Hle|Hle];
      [right|left]; by apply Z.leb_le.
Qed.

Global Instance rankedBefore_trans : Transitive rankedBefore.
Proof.
  intros x y z. unfold rankedBefore, rankBefore.
  destruct (repoUpdatedAt x) as [a|], (repoUpdatedAt y) as [b|],
    (repoUpdatedAt z) as [c|]; try done.
  - rewrite !orb_true_iff, !andb_true_iff, !Z.ltb_lt, !Z.eqb_eq, !Z.leb_le. lia.
  - rewrite !Z.leb_le. lia.
Qed.

Lemma rankedBefore_refl x : rankedBefore x x.
Proof. destruct (total rankedBefore x x); done. Qed.

Lemma findAllFromSubscription_elem d s r :
  r ∈ findAllFromSubscription d s ↔
  r ∈ repoSyncStates d ∧ subscriptionId r = subId s.
Proof.
  unfold findAllFromSubscription.
  by rewrite merge_sort_Permutation, list_elem_of_filter, (comm and).
Qed.

Lemma findAllFromSubscription_sorted d s :
  StronglySorted rankedBefore (findAllFromSubscription d s).
Proof. apply StronglySorted_merge_sort; apply _. Qed.

Lemma find_Some_split {A} (p : A → bool) l x :
  List.find p l = Some x →
  ∃ pre post, l = pre ++ x :: post ∧ p x = true ∧ ∀ y, y ∈ pre → p y = false.
Proof.
  induction l as [|a l IH]; [done|]. cbn.
  destruct (p a) eqn:Hpa.
  - intros [= ->]. exists [], l. split_and!; [done..|].
    intros y Hy. by apply elem_of_nil in Hy.
  - intros (pre & post & -> & Hx & Hpre)%IH.
    exists (a :: pre), post. split_and!; [done..|].
    intros y [->|Hy]%elem_of_cons; auto.
Qed.

Lemma find_None_iff {A} (p : A → bool) l :
  List.find p l = None ↔ ∀ y, y ∈ l → p y = false.
Proof.
  induction l as [|a l IH]; cbn.
  - split; [|done]. intros _ y Hy. by apply elem_of_nil in Hy.
  - destruct (p a) eqn:Hpa.
    + split; [done|]. intros Hall. rewrite Hall in Hpa; [done|by left].
    + rewrite IH. split.
      * intros Hall y [->|Hy]%elem_of_cons; auto.
      * intros Hall y Hy. apply Hall. by right.
Qed.

Lemma nextTaskIn_None tasks rows :
  nextTaskIn tasks rows = None ↔ ∀ r, r ∈ rows → ¬ hasOutstanding tasks r.
Proof.
  induction rows as [|r rows IH]; cbn.
  - split; [|done]. intros _ r Hr. by apply elem_of_nil in Hr.
  - destruct (List.find (isOutstanding r) tasks) as [t|] eqn:Hfind.
    + split; [done|]. intros Hall. exfalso. apply (Hall r); [by left|].
      apply find_Some_split in Hfind as (pre & post & -> & Ht & _).
      exists t. split; [|done]. apply elem_of_app. right. by left.
    + rewrite IH. rewrite find_None_iff in Hfind. split.
      * intros Hall r' [->|Hr']%elem_of_cons; [|by auto].
        intros (t & Ht & Hout). by rewrite Hfind in Hout.
      * intros Hall r' Hr'. apply Hall. by right.
Qed.

Lemma nextTaskIn_Some tasks rows tk :
  nextTaskIn tasks rows = Some tk →
  ∃ pre r post tpre t tpost,
    rows = pre ++ r :: post
    ∧ (∀ r', r' ∈ pre → ¬ hasOutstanding tasks r')
    ∧ tasks = tpre ++ t :: tpost
    ∧ isOutstanding r t = true
    ∧ (∀ t', t' ∈ tpre → isOutstanding r t' = false)
    ∧ tk = taskOfSyncState r t.
Proof.
  induction rows as [|r rows IH]; [done|]. cbn.
  destruct (List.find (isOutstanding r) tasks) as [t|] eqn:Hfind.
  - intros [= <-].
    apply find_Some_split in Hfind as (tpre & tpost & -> & Ht & Hpre).
    exists [], r, rows, tpre, t, tpost. split_and!; try done.
    intros r' Hr'. by apply elem_of_nil in Hr'.
  - intros (pre & r0 & post & tpre & t & tpost & -> & Hpre & -> & Ht & Htpre & ->)%IH.
    exists (r :: pre), r0, post, tpre, t, tpost. split_and!; try done.
    intros r' [->|Hr']%elem_of_cons; [|by auto].
    rewrite find_None_iff in Hfind.
    intros (t' & Ht' & Hout). by rewrite Hfind in Hout.
Qed.

Lemma getNextTask_discovery d s targets :
  ¬ discoveryComplete s → getNextTask d s targets = Some (discoveryTask s).
Proof. intros Hnc. unfold getNextTask. by rewrite bool_decide_eq_true_2. Qed.

Lemma getNextTask_None d s targets :
  getNextTask d s targets = None ↔
  discoveryComplete s
  ∧ ∀ r, r ∈ repoSyncStates d → subscriptionId r = subId s →
         ¬ hasOutstanding (getTargetTasks targets) r.
Proof.
  unfold getNextTask, discoveryComplete. case_bool_decide as Hst.
  - split; [done|]. by intros [? _].
  - rewrite nextTaskIn_None.
    assert (subColumns s !! "repositoryStatus" = Some (VStr "complete")) as Hc.
    { destruct (decide (subColumns s !! "repositoryStatus" = Some (VStr "complete")));
        [done|by destruct Hst]. }
    split.
    + intros Hall. split; [done|]. intros r Hr Hs. apply Hall.
      by apply findAllFromSubscription_elem.
    + intros [_ Hall] r [Hr Hs]%findAllFromSubscription_elem. by apply Hall.
Qed.

Lemma getNextTask_category d s targets tk :
  discoveryComplete s → getNextTask d s targets = Some tk →
  ∃ r tpre tpost,
    r ∈ repoSyncStates d ∧ subscriptionId r = subId s
    ∧ getTargetTasks targets = tpre ++ task tk :: tpost
    ∧ isOutstanding r (task tk) = true
    ∧ (∀ t', t' ∈ tpre → isOutstanding r t' = false)
    ∧ (∀ r', r' ∈ repoSyncStates d → subscriptionId r' = subId s →
         hasOutstanding (getTargetTasks targets) r' → rankedBefore r r')
    ∧ repositoryId tk = repoId r
    ∧ repositoryOf tk = repositoryOfSyncState r
    ∧ cursor tk = orUndefined (rssColumns r !! getCursorKey (task tk)).
Proof.
  unfold getNextTask, discoveryComplete. intros Hc.
  rewrite bool_decide_eq_false_2 by (by intros []).
  intros (pre & r & post & tpre & t & tpost & Hrows & Hpre & Htasks & Ht & Htpre & ->)
    %nextTaskIn_Some.
  exists r, tpre, tpost. cbn [task taskOfSyncState repositoryId repositoryOf cursor].
  assert (r ∈ findAllFromSubscription d s) as [Hr Hs]%findAllFromSubscription_elem.
  { rewrite Hrows. apply elem_of_app. right. by left. }
  split_and!; try done.
  intros r' Hr' Hs' Hout.
  assert (r' ∈ findAllFromSubscription d s) as Hin
    by by apply findAllFromSubscription_elem.
  pose proof (findAllFromSubscription_sorted d s) as Hsorted.
  rewrite Hrows in Hin, Hsorted.
  apply elem_of_app in Hin as [Hin|[->|Hin]%elem_of_cons].
  - by destruct (Hpre r' Hin).
  - apply rankedBefore_refl.
  - apply StronglySorted_app_1_r, StronglySorted_cons in Hsorted as [Hall _].
    by eapply Forall_forall in Hall.
Qed.


Lemma getTargetTasks_category targets t :
  t ∈ getTargetTasks targets → t ≠ repository.
Proof.
  intros Hin ->.
  pose proof (sublist_subseteq _ _ (getTargetTasks_sublist targets) _ Hin) as Hall.
  unfold allTaskTypes in Hall.
  repeat (apply elem_of_cons in Hall as [Hall|Hall]; [discriminate Hall|]).
  by apply elem_of_nil in Hall.
Qed.

(** What a selected task tells about the store. *)
Lemma getNextTask_Some d s targets tk :
  getNextTask d s targets = Some tk →
  (¬ discoveryComplete s ∧ tk = discoveryTask s)
  ∨ (discoveryComplete s ∧ task tk ≠ repository
     ∧ task tk ∈ getTargetTasks targets
     ∧ ∃ r, r ∈ repoSyncStates d ∧ subscriptionId r = subId s
            ∧ repoId r = repositoryId tk ∧ isOutstanding r (task tk) = true).
Proof.
  intros Hnext.
  destruct (decide (discoveryComplete s)) as [Hc|Hnc].
  - right.
    destruct (getNextTask_category d s targets tk Hc Hnext)
      as (r & tpre & tpost & Hr & Hs & Htasks & Hout & _ & _ & Hrid & _).
    assert (task tk ∈ getTargetTasks targets) as Hin.
    { rewrite Htasks. apply elem_of_app. right. by left. }
    split_and!; [done|by eapply getTargetTasks_category|done|].
    by exists r.
  - left. split; [done|].
    rewrite (getNextTask_discovery d s targets Hnc) in Hnext. congruence.
Qed.

Lemma isOutstanding_status r t st :
  rssColumns r !! getStatusKey t = Some (VStr st) →
  st ≠ "" → st ≠ "pending" → isOutstanding r t = false.
Proof.
  intros Hst Hne Hnp. unfold isOutstanding. rewrite Hst. cbn.
  rewrite bool_decide_eq_false_2 by congruence.
  by apply String.eqb_neq in Hne as ->.
Qed.

(** ** Rows and subscriptions under a merge *)

Lemma ownsRepo_merge s rid values r :
  ownsRepo s rid (mergeRepoSyncState values r) = ownsRepo s rid r.
Proof. reflexivity. Qed.

Lemma lookup_merge (values cols : Fields) k :
  (values ∪ cols) !! k = match values !! k with
                         | Some v => Some v
                         | None => cols !! k
                         end.
Proof. rewrite lookup_union. by destruct (values !! k), (cols !! k). Qed.

Lemma mergeRepoSyncStates_compose s rid v1 v2 rows :
  mergeRepoSyncStates s rid v2 (mergeRepoSyncStates s rid v1 rows)
  = mergeRepoSyncStates s rid (v2 ∪ v1) rows.
Proof.
  unfold mergeRepoSyncStates. rewrite <-list_fmap_compose.
  apply list_fmap_ext. intros _ r _. cbn.
  destruct (ownsRepo s rid r) eqn:Howns.
  - rewrite ownsRepo_merge, Howns. unfold mergeRepoSyncState. cbn.
    by rewrite (assoc_L (∪)).
  - by rewrite Howns.
Qed.

Lemma mergeRepoSyncStates_elem s rid values rows r' :
  r' ∈ mergeRepoSyncStates s rid values rows →
  ∃ r, r ∈ rows ∧ subscriptionId r' = subscriptionId r ∧ repoId r' = repoId r
       ∧ rssId r' = rssId r
       ∧ rssColumns r' = if ownsRepo s rid r then values ∪ rssColumns r
                         else rssColumns r.
Proof.
  intros (r & -> & Hr)%list_elem_of_fmap. exists r.
  by destruct (ownsRepo s rid r).
Qed.

Lemma mergeSubscriptions_elem s values table s' :
  s' ∈ mergeSubscriptions s values table →
  ∃ s0, s0 ∈ table ∧ subId s' = subId s0
        ∧ subColumns s' = if decide (subId s0 = subId s) then values ∪ subColumns s0
                          else subColumns s0.
Proof.
  intros (s0 & -> & Hs0)%list_elem_of_fmap. exists s0.
  by destruct (decide (subId s0 = subId s)).
Qed.

Lemma getSingleInstallation_merge d s values host inst app :
  getSingleInstallation
    {| subscriptions := mergeSubscriptions s values (subscriptions d);
       repoSyncStates := repoSyncStates d |} host inst app
  = (λ s0, if decide (subId s0 = subId s) then mergeSubscription values s0 else s0)
      <$> getSingleInstallation d host inst app.
Proof.
  unfold getSingleInstallation, mergeSubscriptions. cbn [subscriptions].
  induction (subscriptions d) as [|s0 l IH]; [done|]. cbn.
  assert (∀ x, bool_decide (subJiraHost
            (if decide (subId x = subId s) then mergeSubscription values x else x) = host
          ∧ gitHubInstallationId
              (if decide (subId x = subId s) then mergeSubscription values x else x) = inst
          ∧ gitHubAppId
              (if decide (subId x = subId s) then mergeSubscription values x else x) = app)
          = bool_decide (subJiraHost x = host ∧ gitHubInstallationId x = inst
                         ∧ gitHubAppId x = app)) as Hkeys.
  { intros x. by destruct (decide (subId x = subId s)). }
  rewrite Hkeys. by destruct (bool_decide _).
Qed.

(** The most recently updated repository with outstanding work is taken
    first, at its first outstanding category. *)
Example sample_selects_build :
  getNextTask Sample.store Sample.subscription None = Some Sample.buildTask.
Proof. vm_compute. reflexivity. Qed.

(** ** Error classifier: rate limiting *)

Lemma handleBackfillError_rate_limit_run rateLimitReset now data nextTask w :
  handleBackfillError (RateLimitingError rateLimitReset) data nextTask now w
  = (inr (), pushDelay (Z.max (rateLimitReset * 1000 - now) 0) w).
Proof.
  unfold handleBackfillError.
  destruct (Z.max (rateLimitReset * 1000 - now) 0 =? 0) eqn:Hd; cbn [negb].
  - apply Z.eqb_eq in Hd. by rewrite Hd.
  - reflexivity.
Qed.

(** C4.  A [RateLimitingError] requests exactly one follow-up, after
    [max(rateLimitReset * 1000 - now, 0)] milliseconds — the time left until
    the reset when that is positive, none when the limit has reset — changes
    nothing in the store and raises nothing. *)
Theorem handleBackfillError_rate_limited (rateLimitReset now : Z)
    (data : BackfillMessagePayload) (nextTask : Task) (w : World) :
  let delayMs := Z.max (rateLimitReset * 1000 - now) 0 in
  let out := handleBackfillError (RateLimitingError rateLimitReset) data nextTask now w in
  out.1 = inr ()
  ∧ nextTaskDelaysMs out.2 = nextTaskDelaysMs w ++ [delayMs]
  ∧ db out.2 = db w
  ∧ writes out.2 = writes w
  ∧ (if decide (now < rateLimitReset * 1000)
     then delayMs = rateLimitReset * 1000 - now ∧ 0 < delayMs
     else delayMs = 0).
Proof.
  intros delayMs out. subst out. rewrite handleBackfillError_rate_limit_run.
  cbn [fst snd pushDelay nextTaskDelaysMs db writes].
  split_and!; try done.
  subst delayMs. case_decide; lia.
Qed.

(** Reset five seconds ahead: a follow-up after 5000 ms; reset one second
    ago: an immediate follow-up. *)
Example rate_limit_scenario (T : Z) (data : BackfillMessagePayload) (tk : Task) :
  nextTaskDelaysMs
    (handleBackfillError (RateLimitingError (T + 5)) data tk (T * 1000) Sample.world).2
  = [5000]
  ∧ nextTaskDelaysMs
      (handleBackfillError (RateLimitingError (T + 5)) data tk (T * 1000 + 6000)
         Sample.world).2
    = [0].
Proof.
  rewrite !handleBackfillError_rate_limit_run. cbn.
  split; f_equal; lia.
Qed.

(** ** Giving up on a task *)

Lemma markCurrentTaskAsFailedAndContinue_run data nextTask w :
  markCurrentTaskAsFailedAndContinue data nextTask w
  = (inr (), afterFailed data nextTask w).
Proof.
  unfold markCurrentTaskAsFailedAndContinue, afterFailed.
  unfold mbind at 1, M_bind at 1. cbn [getDb].
  destruct (findSubscriptionForMessage (db w) data) as [s|]; [|done].
  unfold mbind at 1, M_bind at 1. rewrite updateRepo_statusField.
  unfold routeMerge, failedFields.
  destruct (decide (task nextTask = repository)) as [Heq|Hne]; cbn [fst snd].
  - rewrite bool_decide_eq_true_2 by done. rewrite Heq.
    unfold mbind, M_bind. by rewrite subscriptionUpdate_run.
  - by rewrite bool_decide_eq_false_2.
Qed.

(** C9.  Without a Subscription nothing happens.  Otherwise the status of
    the task becomes [failed]; for the discovery task the Subscription gets
    [syncStatus = FAILED] and no follow-up is requested; for a category one
    follow-up with delay 0 is requested and the Subscription is left alone. *)
Theorem markCurrentTaskAsFailedAndContinue_spec (data : BackfillMessagePayload)
    (nextTask : Task) (w : World) :
  let w' := afterFailed data nextTask w in
  markCurrentTaskAsFailedAndContinue data nextTask w = (inr (), w')
  ∧ match findSubscriptionForMessage (db w) data with
    | None => w' = w
    | Some s =>
        if decide (task nextTask = repository) then
          (∀ s', s' ∈ subscriptions (db w') → subId s' = subId s →
             subColumns s' !! "repositoryStatus" = Some (VStr "failed")
             ∧ subColumns s' !! "syncStatus" = Some (VStr "FAILED"))
          ∧ repoSyncStates (db w') = repoSyncStates (db w)
          ∧ nextTaskDelaysMs w' = nextTaskDelaysMs w
          ∧ writes w' = writes w
              ++ [SubscriptionUpdate (subId s) (failedFields repository);
                  SubscriptionUpdate (subId s) {[ "syncStatus" := VStr "FAILED" ]}]
        else
          (∀ r, r ∈ repoSyncStates (db w') →
             ownsRepo s (repositoryId nextTask) r = true →
             rssColumns r !! getStatusKey (task nextTask) = Some (VStr "failed"))
          ∧ repoSyncStates (db w')
            = mergeRepoSyncStates s (repositoryId nextTask)
                (failedFields (task nextTask)) (repoSyncStates (db w))
          ∧ subscriptions (db w') = subscriptions (db w)
          ∧ nextTaskDelaysMs w' = nextTaskDelaysMs w ++ [0]
          ∧ writes w' = writes w
              ++ [RepoSyncStateUpdate (subId s) (repositoryId nextTask)
                    (failedFields (task nextTask))]
    end.
Proof.
  intros w'. split; [apply markCurrentTaskAsFailedAndContinue_run|].
  subst w'. unfold afterFailed.
  destruct (findSubscriptionForMessage (db w) data) as [s|]; [|done].
  destruct (decide (task nextTask = repository)) as [Heq|Hne].
  - cbn. split_and!; try done; [|by rewrite <-(assoc_L (++))].
    intros s' (s1 & Hs1 & Hid1 & Hcols1)%mergeSubscriptions_elem Hid.
    apply mergeSubscriptions_elem in Hs1 as (s0 & Hs0 & Hid0 & Hcols0).
    cbn [subId mergeSubscription] in *.
    rewrite decide_True in Hcols1 by congruence.
    rewrite decide_True in Hcols0 by congruence.
    rewrite Hcols1, Hcols0, !lookup_merge. unfold failedFields. by cbn.
  - cbn. split_and!; try done.
    intros r (r0 & Hr0 & Hsid & Hrid & _ & Hcols)%mergeRepoSyncStates_elem Howns.
    assert (ownsRepo s (repositoryId nextTask) r0 = true) as Howns0.
    { unfold ownsRepo in *. by rewrite <-Hsid, <-Hrid. }
    rewrite Howns0 in Hcols. rewrite Hcols, lookup_merge.
    unfold failedFields. by rewrite lookup_singleton_eq.
Qed.

(** ** Error classifier: not-found and unknown errors *)

Lemma cloneDeep_value (t : Task) : cloneDeep t = t.
Proof. by destruct t as [? ? [? ? ? [[?]|] ? ?] ?]. Qed.

(** Whatever [isNotFoundGithubError] would answer, every error of the
    [GithubClientError] hierarchy other than a rate limit takes the
    completion path: the guard tests the closure, not its result. *)
Lemma handleBackfillError_github_client_error err data nextTask now w :
  instanceofRateLimitingError err = false →
  instanceofGithubClientError err = true →
  handleBackfillError err data nextTask now w
  = updateTaskStatusAndContinue data noEdges (task nextTask) (repositoryId nextTask) w.
Proof. by destruct err. Qed.

(** Errors outside the hierarchy are wrapped with the task and raised; the
    store and the requested delays are left as they were. *)
Lemma handleBackfillError_rethrow err data nextTask now w :
  instanceofGithubClientError err = false →
  handleBackfillError err data nextTask now w = (inl (TaskError nextTask err), w).
Proof.
  intros Hno. destruct err; try done; cbn;
    unfold throw, newTaskError; by rewrite cloneDeep_value.
Qed.

Lemma updateTaskStatusAndContinue_never_raises data p t rid w :
  (updateTaskStatusAndContinue data p t rid w).1 = inr ().
Proof. by rewrite updateTaskStatusAndContinue_run. Qed.

(** C1, at a server error.  A [GithubClientError] with status 500 is neither
    a rate limit nor a not-found error, yet [handleBackfillError] does not
    raise a [TaskError] for it: it marks the task complete and requests a
    follow-up. *)
Theorem handleBackfillError_server_error_not_rethrown :
  let err := GithubClientError (Some 500) in
  let out := handleBackfillError err Sample.data Sample.buildTask 0 Sample.world in
  instanceofRateLimitingError err = false
  ∧ isNotFoundGithubError err () = false
  ∧ out.1 = inr ()
  ∧ out.1 ≠ inl (newTaskError Sample.buildTask err)
  ∧ nextTaskDelaysMs out.2 = [0]
  ∧ (λ r, (repoId r, rssColumns r !! "buildStatus")) <$> repoSyncStates (db out.2)
    = [(8, None); (7, Some (VStr "complete"))].
Proof. vm_compute. by split_and!. Qed.

(** ** The deep copy of the task *)



(** Renaming the repository through the original reference after the wrap:
    the copy kept by the error still reads the old name, the original reads
    the new one. *)
Example cloneDeepAt_then_mutate :
  ∃ copy h',
    TaskHeap.cloneDeepAt TaskHeap.sampleHeap 1%positive = Some (copy, h')
    ∧ let h'' := <[2%positive := TaskHeap.RepositoryObj (Some 7) (Some "renamed")
                                   (Some "acme/renamed") (Some 3%positive) None None]> h' in
      (name ∘ repositoryOf <$> TaskHeap.readTask h'' copy) = Some (Some "repo")
      ∧ (name ∘ repositoryOf <$> TaskHeap.readTask h'' 1%positive) = Some (Some "renamed").
Proof. eexists _, _. split; [vm_compute; reflexivity|]. vm_compute. by split. Qed.

(** ** The completion path *)

Lemma find_applySubscriptionUpdate data s values w s0 :
  findSubscriptionForMessage (db w) data = Some s0 →
  subId s0 = subId s →
  findSubscriptionForMessage (db (applySubscriptionUpdate s values w)) data
  = Some (mergeSubscription values s0).
Proof.
  unfold findSubscriptionForMessage, applySubscriptionUpdate. cbn [db].
  intros Hfind Hid. rewrite getSingleInstallation_merge, Hfind. cbn.
  by rewrite decide_True.
Qed.

Lemma find_applyRepoUpdate data s rid values w :
  findSubscriptionForMessage (db (applyRepoUpdate s rid values w)) data
  = findSubscriptionForMessage (db w) data.
Proof. reflexivity. Qed.

(** The selector reads the discovery columns of the instance and the rows of
    the subscription, nothing else. *)
Lemma getNextTask_ext d d' s s' targets :
  subId s = subId s' →
  subColumns s !! "repositoryStatus" = subColumns s' !! "repositoryStatus" →
  subColumns s !! "repositoryCursor" = subColumns s' !! "repositoryCursor" →
  repoSyncStates d = repoSyncStates d' →
  getNextTask d s targets = getNextTask d' s' targets.
Proof.
  intros Hid Hst Hcur Hrows.
  unfold getNextTask, discoveryTask, findAllFromSubscription.
  by rewrite Hid, Hst, Hcur, Hrows.
Qed.

Lemma completeFields_lookup data k :
  k ≠ "syncStatus" → k ≠ "backfillSince" → completeFields data !! k = None.
Proof.
  intros H1 H2. unfold completeFields.
  rewrite lookup_insert_ne by done. by rewrite lookup_singleton_ne.
Qed.

Lemma completeFields_syncStatus data :
  completeFields data !! "syncStatus" = Some (VStr "COMPLETE").
Proof. unfold completeFields. by rewrite lookup_insert_eq. Qed.

Section completion.
Context (data : BackfillMessagePayload) (p : TaskResultPayload)
        (t : TaskType) (rid : Z) (w : World) (s : Subscription).
Hypothesis Hfind : findSubscriptionForMessage (db w) data = Some s.
Hypothesis Hcomplete : isCompleteResult p = true.

Let fields := statusFields (db w) s data true t rid.
Let s1 := (routeMerge s rid t fields w).1.
Let w1 := (routeMerge s rid t fields w).2.
Let w' := afterUpdate data p t rid w.

Lemma completion_world :
  w' = match getNextTask (db w1) s1 (targetTasks data) with
       | None => applySubscriptionUpdate s1 (completeFields data) w1
       | Some _ => pushDelay 0 w1
       end.
Proof. subst w' w1 s1 fields. unfold afterUpdate. by rewrite Hfind, Hcomplete. Qed.

Lemma completion_s1_id : subId s1 = subId s.
Proof. subst s1. unfold routeMerge. by destruct (decide _). Qed.

Lemma completion_find1 : findSubscriptionForMessage (db w1) data = Some s1.
Proof.
  subst w1 s1. unfold routeMerge. destruct (decide (t = repository)); cbn [fst snd].
  - by apply find_applySubscriptionUpdate.
  - by rewrite find_applyRepoUpdate.
Qed.

Lemma completion_rows1 :
  repoSyncStates (db w1)
  = if decide (t = repository) then repoSyncStates (db w)
    else mergeRepoSyncStates s rid fields (repoSyncStates (db w)).
Proof. subst w1. unfold routeMerge. by destruct (decide _). Qed.

Lemma completion_rows : repoSyncStates (db w') = repoSyncStates (db w1).
Proof. rewrite completion_world. by destruct (getNextTask _ _ _). Qed.

(** The instance a fresh lookup yields after the call. *)
Lemma completion_find :
  findSubscriptionForMessage (db w') data
  = Some (match getNextTask (db w1) s1 (targetTasks data) with
          | None => mergeSubscription (completeFields data) s1
          | Some _ => s1
          end).
Proof.
  rewrite completion_world. destruct (getNextTask _ _ _).
  - apply completion_find1.
  - apply find_applySubscriptionUpdate; [apply completion_find1|done].
Qed.

Lemma completion_status_category r :
  t ≠ repository → r ∈ repoSyncStates (db w') → ownsRepo s rid r = true →
  rssColumns r !! getStatusKey t = Some (VStr "complete").
Proof.
  intros Hne. rewrite completion_rows, completion_rows1, decide_False by done.
  intros (r0 & Hr0 & Hsid & Hrid & _ & Hcols)%mergeRepoSyncStates_elem Howns.
  assert (ownsRepo s rid r0 = true) as Howns0.
  { unfold ownsRepo in *. by rewrite <-Hsid, <-Hrid. }
  rewrite Howns0 in Hcols. rewrite Hcols, lookup_merge.
  subst fields. by rewrite statusFields_status.
Qed.

Lemma completion_s1_status :
  t = repository → subColumns s1 !! "repositoryStatus" = Some (VStr "complete").
Proof.
  intros ->. subst s1. unfold routeMerge. rewrite decide_True by done.
  cbn. rewrite lookup_merge. subst fields.
  pose proof (statusFields_status (db w) s data true repository rid) as Hst.
  change (getStatusKey repository) with "repositoryStatus" in Hst.
  by rewrite Hst.
Qed.

Lemma completion_s1_cursor :
  subColumns s1 !! "repositoryCursor" = subColumns s !! "repositoryCursor".
Proof.
  subst s1. unfold routeMerge. destruct (decide _); [|done].
  cbn. rewrite lookup_merge. subst fields.
  pose proof (statusFields_no_cursor (db w) s data true t rid repository) as Hcur.
  change (getCursorKey repository) with "repositoryCursor" in Hcur.
  by rewrite Hcur.
Qed.

(** No cursor column of any row moves. *)
Lemma completion_row_cursors t' :
  (λ r, (rssId r, rssColumns r !! getCursorKey t')) <$> repoSyncStates (db w')
  = (λ r, (rssId r, rssColumns r !! getCursorKey t')) <$> repoSyncStates (db w).
Proof.
  rewrite completion_rows, completion_rows1.
  destruct (decide (t = repository)); [done|].
  unfold mergeRepoSyncStates. rewrite <-list_fmap_compose.
  apply list_fmap_ext. intros _ r _. cbn.
  destruct (ownsRepo s rid r); [|done]. cbn. rewrite lookup_merge.
  subst fields. by rewrite statusFields_no_cursor.
Qed.

(** Neither does the discovery cursor of any subscription. *)
Lemma completion_subscription_cursors :
  (λ x, (subId x, subColumns x !! "repositoryCursor")) <$> subscriptions (db w')
  = (λ x, (subId x, subColumns x !! "repositoryCursor")) <$> subscriptions (db w).
Proof.
  assert ((λ x, (subId x, subColumns x !! "repositoryCursor")) <$> subscriptions (db w1)
          = (λ x, (subId x, subColumns x !! "repositoryCursor")) <$> subscriptions (db w))
    as H1.
  { subst w1. unfold routeMerge. destruct (decide _); [|done]. cbn.
    unfold mergeSubscriptions. rewrite <-list_fmap_compose.
    apply list_fmap_ext. intros _ x _. cbn.
    destruct (decide _); [|done]. cbn. rewrite lookup_merge.
    subst fields.
    pose proof (statusFields_no_cursor (db w) s data true t rid repository) as Hcur.
    change (getCursorKey repository) with "repositoryCursor" in Hcur.
    by rewrite Hcur. }
  rewrite completion_world. destruct (getNextTask _ _ _); [done|].
  rewrite <-H1. cbn. unfold mergeSubscriptions. rewrite <-list_fmap_compose.
  apply list_fmap_ext. intros _ x _. cbn.
  destruct (decide _); [|done]. cbn. rewrite lookup_merge.
  by rewrite completeFields_lookup.
Qed.

(** Continuation, read off the final world: a follow-up when the selector
    still finds work, [COMPLETE] when it does not. *)
Lemma completion_continuation s' :
  findSubscriptionForMessage (db w') data = Some s' →
  match getNextTask (db w') s' (targetTasks data) with
  | Some _ => nextTaskDelaysMs w' = nextTaskDelaysMs w ++ [0]
  | None => nextTaskDelaysMs w' = nextTaskDelaysMs w
            ∧ subColumns s' !! "syncStatus" = Some (VStr "COMPLETE")
  end.
Proof.
  rewrite completion_find. intros [= <-].
  assert (nextTaskDelaysMs w1 = nextTaskDelaysMs w) as Hd.
  { subst w1. unfold routeMerge. by destruct (decide _). }
  destruct (getNextTask (db w1) s1 (targetTasks data)) as [tk|] eqn:Hnext.
  - rewrite (getNextTask_ext (db w') (db w1) s1 s1 _ eq_refl eq_refl eq_refl
               completion_rows), Hnext.
    rewrite completion_world, Hnext. cbn. by rewrite Hd.
  - rewrite (getNextTask_ext (db w') (db w1)
               (mergeSubscription (completeFields data) s1) s1); first last.
    + apply completion_rows.
    + cbn. rewrite lookup_merge. by rewrite completeFields_lookup.
    + cbn. rewrite lookup_merge. by rewrite completeFields_lookup.
    + done.
    + rewrite Hnext. rewrite completion_world, Hnext. cbn.
      split; [done|]. by rewrite lookup_merge, completeFields_syncStatus.
Qed.

(** Selection has moved on: the completed pair is not selected again. *)
Lemma completion_moves_on s' targets tk :
  findSubscriptionForMessage (db w') data = Some s' →
  getNextTask (db w') s' targets = Some tk →
  ¬ (task tk = t ∧ repositoryId tk = rid).
Proof.
  rewrite completion_find. intros Hs' Hnext [Ht Hrid].
  assert (subId s' = subId s) as Hid.
  { rewrite <-completion_s1_id. destruct (getNextTask _ _ _); by injection Hs' as <-. }
  assert (t = repository → discoveryComplete s') as Hdisc.
  { intros Heq. unfold discoveryComplete.
    destruct (getNextTask (db w1) s1 (targetTasks data)); injection Hs' as <-.
    - by apply completion_s1_status.
    - cbn. rewrite lookup_merge, completeFields_lookup by done.
      by apply completion_s1_status. }
  apply getNextTask_Some in Hnext
    as [[Hnc ->]|(_ & Hcat & _ & r & Hr & Hsid & Hrepo & Hout)].
  - cbn in Ht. by destruct Hnc; apply Hdisc.
  - rewrite Ht in Hcat, Hout.
    assert (ownsRepo s rid r = true) as Howns.
    { unfold ownsRepo. apply bool_decide_eq_true_2. split; congruence. }
    pose proof (completion_status_category r Hcat Hr Howns) as Hst.
    by rewrite (isOutstanding_status r t "complete" Hst) in Hout.
Qed.

End completion.

(** C3.  An error that reports the repository as gone takes the completion
    path with zero edges: the status of the task becomes [complete] in the
    record that owns it, no cursor moves, a follow-up is requested when the
    selector still finds work and the Subscription becomes [COMPLETE] when it
    does not, and the selector does not return the same pair again. *)
Theorem handleBackfillError_not_found (err : Error) (data : BackfillMessagePayload)
    (nextTask : Task) (now : Z) (w : World) :
  reportsNotFound err →
  let t := task nextTask in
  let rid := repositoryId nextTask in
  let w' := (handleBackfillError err data nextTask now w).2 in
  handleBackfillError err data nextTask now w
    = updateTaskStatusAndContinue data noEdges t rid w
  ∧ (handleBackfillError err data nextTask now w).1 = inr ()
  ∧ ∀ s, findSubscriptionForMessage (db w) data = Some s →
      (∃ s', findSubscriptionForMessage (db w') data = Some s'
             ∧ subId s' = subId s
             ∧ (t = repository →
                subColumns s' !! "repositoryStatus" = Some (VStr "complete")))
      ∧ (t ≠ repository → ∀ r, r ∈ repoSyncStates (db w') → ownsRepo s rid r = true →
           rssColumns r !! getStatusKey t = Some (VStr "complete"))
      ∧ (∀ t', (λ r, (rssId r, rssColumns r !! getCursorKey t')) <$> repoSyncStates (db w')
               = (λ r, (rssId r, rssColumns r !! getCursorKey t')) <$> repoSyncStates (db w))
      ∧ (λ x, (subId x, subColumns x !! "repositoryCursor")) <$> subscriptions (db w')
        = (λ x, (subId x, subColumns x !! "repositoryCursor")) <$> subscriptions (db w)
      ∧ (∀ s', findSubscriptionForMessage (db w') data = Some s' →
           match getNextTask (db w') s' (targetTasks data) with
           | Some _ => nextTaskDelaysMs w' = nextTaskDelaysMs w ++ [0]
           | None => nextTaskDelaysMs w' = nextTaskDelaysMs w
                     ∧ subColumns s' !! "syncStatus" = Some (VStr "COMPLETE")
           end)
      ∧ (∀ s' targets tk,
           findSubscriptionForMessage (db w') data = Some s' →
           getNextTask (db w') s' targets = Some tk →
           ¬ (task tk = t ∧ repositoryId tk = rid)).
Proof.
  intros [Hgh Hnf] t rid w'.
  assert (instanceofRateLimitingError err = false) as Hrl by by destruct err.
  assert (handleBackfillError err data nextTask now w
          = (inr (), afterUpdate data noEdges t rid w)) as Hrun.
  { rewrite handleBackfillError_github_client_error by done.
    apply updateTaskStatusAndContinue_run. }
  subst w'. rewrite Hrun. cbn [fst snd].
  split_and!; [by rewrite updateTaskStatusAndContinue_run|done|].
  intros s Hfind.
  assert (isCompleteResult noEdges = true) as Hc by done.
  split_and!.
  - eexists. split; [by apply completion_find|].
    pose proof (completion_s1_id data t rid w s) as Hid.
    pose proof (completion_s1_status data noEdges t rid w s) as Hst.
    destruct (getNextTask _ _ _); cbn; split; try done.
    intros Heq. rewrite lookup_merge, completeFields_lookup by done. by apply Hst.
  - intros Hne r. by apply (completion_status_category data noEdges).
  - intros t'. by apply (completion_row_cursors data noEdges t rid w s).
  - by apply (completion_subscription_cursors data noEdges t rid w s).
  - intros s'. by apply (completion_continuation data noEdges t rid w s).
  - intros s' targets tk. by apply (completion_moves_on data noEdges t rid w s).
Qed.

Lemma handleBackfillError_not_found_witness :
  reportsNotFound (GithubClientError (Some 404))
  ∧ (handleBackfillError (GithubClientError (Some 404)) Sample.data Sample.buildTask 0
       Sample.world).1 = inr ().
Proof.
  assert (reportsNotFound (GithubClientError (Some 404))) as H by (by split).
  split; [exact H|].
  exact (proj1 (proj2 (handleBackfillError_not_found (GithubClientError (Some 404))
                         Sample.data Sample.buildTask 0 Sample.world H))).
Defined.

(** The scenario of the spec: a 404 for [build] of repository 7 marks it
    complete without a cursor, and the next selection is [deployment]. *)
Example not_found_scenario :
  let out := handleBackfillError (GithubClientError (Some 404)) Sample.data
               Sample.buildTask 0 Sample.world in
  (λ r, (repoId r, rssColumns r !! "buildStatus", rssColumns r !! "buildCursor"))
    <$> repoSyncStates (db out.2)
  = [(8, None, None); (7, Some (VStr "complete"), None)]
  ∧ nextTaskDelaysMs out.2 = [0]
  ∧ (λ tk, (task tk, repositoryId tk))
      <$> getNextTask (db out.2) Sample.subscription None = Some (deployment, 7).
Proof. vm_compute. by split_and!. Qed.

(** ** The merges issued by the progress update *)

Lemma routeMerge_writes s rid t values w :
  writes (routeMerge s rid t values w).2 = writes w ++ [ownerWrite s rid t values].
Proof. unfold routeMerge, ownerWrite. by destruct (decide _). Qed.

Lemma routeMerge_id s rid t values w : subId (routeMerge s rid t values w).1 = subId s.
Proof. unfold routeMerge. by destruct (decide _). Qed.

(** C6 as stated fails: a page of builds for repository 7 is persisted by
    two merges, the status first and the cursor after it. *)
Lemma status_and_cursor_in_two_merges :
  writes (updateTaskStatusAndContinue Sample.data (Sample.page "c1") build 7
            Sample.world).2
  = [RepoSyncStateUpdate 10 7 {[ "buildStatus" := VStr "pending" ]};
     RepoSyncStateUpdate 10 7 {[ "buildCursor" := VStr "c1" ]}]
  ∧ ¬ persistedInOneMerge Sample.data (Sample.page "c1") build 7 Sample.world.
Proof.
  assert (writes (updateTaskStatusAndContinue Sample.data (Sample.page "c1") build 7
                    Sample.world).2
          = [RepoSyncStateUpdate 10 7 {[ "buildStatus" := VStr "pending" ]};
             RepoSyncStateUpdate 10 7 {[ "buildCursor" := VStr "c1" ]}]) as Hw.
  { vm_compute. reflexivity. }
  split; [exact Hw|].
  intros [wr Hone]. rewrite Hw in Hone. discriminate Hone.
Qed.

(** C6, amended.  The status change (with the lowered commit floor when
    there is one) is persisted by one merge; when the task is not complete
    the cursor of the last edge is persisted by a second merge issued after
    it.  Each merge goes to the Subscription for the discovery fields and to
    the RepoSyncState row of the repository for the fields of a category. *)
Theorem updateTaskStatusAndContinue_merges (data : BackfillMessagePayload)
    (p : TaskResultPayload) (t : TaskType) (rid : Z) (w : World) (s : Subscription) :
  findSubscriptionForMessage (db w) data = Some s →
  let w' := (updateTaskStatusAndContinue data p t rid w).2 in
  let fields := statusFields (db w) s data (isCompleteResult p) t rid in
  let cursorFields : Fields := {[ getCursorKey t := lastCursor p ]} in
  (if isCompleteResult p
   then writes w' = writes w ++ [ownerWrite s rid t fields]
        ∨ writes w' = writes w ++ [ownerWrite s rid t fields;
                                    SubscriptionUpdate (subId s) (completeFields data)]
   else writes w' = writes w ++ [ownerWrite s rid t fields;
                                  ownerWrite s rid t cursorFields])
  ∧ fields !! getStatusKey t = Some (statusOf (isCompleteResult p))
  ∧ (∀ t', fields !! getCursorKey t' = None)
  ∧ (∀ k v, fields !! k = Some v → (k ∈ subscriptionKeys ↔ t = repository))
  ∧ (∀ k v, cursorFields !! k = Some v → (k ∈ subscriptionKeys ↔ t = repository))
  ∧ (t = repository →
       ownerWrite s rid t fields = SubscriptionUpdate (subId s) fields
       ∧ ownerWrite s rid t cursorFields = SubscriptionUpdate (subId s) cursorFields)
  ∧ (t ≠ repository →
       ownerWrite s rid t fields = RepoSyncStateUpdate (subId s) rid fields
       ∧ ownerWrite s rid t cursorFields = RepoSyncStateUpdate (subId s) rid cursorFields).
Proof.
  intros Hfind w' fields cursorFields.
  split_and!.
  - subst w'. rewrite updateTaskStatusAndContinue_run. cbn [snd].
    unfold afterUpdate. rewrite Hfind. fold fields.
    destruct (isCompleteResult p).
    + destruct (getNextTask _ _ _); cbn.
      * left. apply routeMerge_writes.
      * right. rewrite routeMerge_writes, routeMerge_id.
        by rewrite <-(assoc_L (++)).
    + cbn [pushDelay writes]. rewrite !routeMerge_writes.
      fold cursorFields. unfold ownerWrite. rewrite routeMerge_id.
      by rewrite <-(assoc_L (++)).
  - apply statusFields_status.
  - intros t'. apply statusFields_no_cursor.
  - intros k v [->|[-> ->]]%statusFields_keys.
    + apply getStatusKey_subscription.
    + split; [intros Hin; by destruct commitFrom_not_subscription|done].
  - intros k v [<- _]%lookup_singleton_Some. apply getCursorKey_subscription.
  - intros ->. by unfold ownerWrite.
  - intros Hne. unfold ownerWrite. destruct (decide (t = repository)); done.
Qed.

Lemma updateTaskStatusAndContinue_merges_witness :
  findSubscriptionForMessage (db Sample.world) Sample.data = Some Sample.subscription
  ∧ statusFields (db Sample.world) Sample.subscription Sample.data
      (isCompleteResult (Sample.page "c1")) build 7 !! getStatusKey build
    = Some (statusOf (isCompleteResult (Sample.page "c1"))).
Proof.
  assert (findSubscriptionForMessage (db Sample.world) Sample.data
          = Some Sample.subscription) as H by reflexivity.
  split; [exact H|].
  exact (proj1 (proj2 (updateTaskStatusAndContinue_merges Sample.data
                         (Sample.page "c1") build 7 Sample.world Sample.subscription H))).
Defined.

(** ** The commit floor *)

Lemma afterUpdate_repoSyncStates data p t rid w s :
  findSubscriptionForMessage (db w) data = Some s →
  repoSyncStates (db (afterUpdate data p t rid w))
  = if decide (t = repository) then repoSyncStates (db w)
    else mergeRepoSyncStates s rid (mergedFields (db w) s data p t rid)
           (repoSyncStates (db w)).
Proof.
  intros Hfind. unfold afterUpdate, mergedFields. rewrite Hfind.
  unfold routeMerge. destruct (decide (t = repository)) as [->|Hne]; cbn [fst snd].
  - destruct (isCompleteResult p); [|done].
    by destruct (getNextTask _ _ _).
  - destruct (isCompleteResult p).
    + rewrite (left_id_L ∅ (∪)). by destruct (getNextTask _ _ _).
    + cbn. apply mergeRepoSyncStates_compose.
Qed.

Lemma mergedFields_commitFrom d s data p t rid :
  mergedFields d s data p t rid !! "commitFrom"
  = statusFields d s data (isCompleteResult p) t rid !! "commitFrom".
Proof.
  unfold mergedFields. rewrite lookup_merge.
  destruct (isCompleteResult p); [by rewrite lookup_empty|].
  rewrite lookup_singleton_ne; [done|apply cursor_ne_commitFrom].
Qed.

Lemma commitFrom_merge values r :
  commitFrom (mergeRepoSyncState values r)
  = match values !! "commitFrom" with
    | Some (VDate floor) => Some floor
    | Some _ => None
    | None => commitFrom r
    end.
Proof.
  unfold commitFrom. cbn. rewrite lookup_merge.
  by destruct (values !! "commitFrom") as [[]|].
Qed.

Lemma NoDup_fmap_eq {A B} (f : A → B) (l : list A) x y :
  NoDup (f <$> l) → x ∈ l → y ∈ l → f x = f y → x = y.
Proof.
  induction l as [|a l IH]; [by intros _ ?%elem_of_nil|].
  rewrite fmap_cons, NoDup_cons.
  intros [Ha Hnd] [->|Hx]%elem_of_cons [->|Hy]%elem_of_cons Hf; auto.
  - destruct Ha. rewrite Hf. by apply list_elem_of_fmap_2.
  - destruct Ha. rewrite <-Hf. by apply list_elem_of_fmap_2.
Qed.

Lemma findByRepoId_Some d s rid r :
  findByRepoId d s rid = Some r → r ∈ repoSyncStates d ∧ ownsRepo s rid r = true.
Proof.
  intros (pre & post & Hrows & Howns & _)%find_Some_split. split; [|done].
  rewrite Hrows. apply elem_of_app. right. by left.
Qed.

Lemma findByRepoId_unique d s rid r r' :
  uniqueRepos d → findByRepoId d s rid = Some r →
  r' ∈ repoSyncStates d → ownsRepo s rid r' = true → r' = r.
Proof.
  intros Hu [Hr Howns]%findByRepoId_Some Hr' Howns'.
  apply (NoDup_fmap_eq _ _ _ _ Hu Hr' Hr).
  apply bool_decide_eq_true in Howns as [-> ->].
  by apply bool_decide_eq_true in Howns' as [-> ->].
Qed.

Lemma floorStep_notLater data p t r r' : floorStep data p t r r' → floorNotLater r r'.
Proof.
  unfold floorNotLater.
  intros [_ [Heq|(_ & _ & floor & _ & Hf & [Hn|(stored & Hs & Hlt)])]].
  - rewrite Heq. destruct (commitFrom r) as [stored|]; [|done].
    exists stored. split; [done|lia].
  - by rewrite Hn.
  - rewrite Hs. exists floor. split; [done|lia].
Qed.

Lemma afterUpdate_floorStep data p t rid w :
  uniqueRepos (db w) →
  Forall2 (floorStep data p t) (repoSyncStates (db w))
          (repoSyncStates (db (afterUpdate data p t rid w))).
Proof.
  intros Hu.
  assert (∀ l : list RepoSyncState, Forall2 (floorStep data p t) l l) as Hrefl.
  { intros l. apply Forall_Forall2_diag, Forall_forall. intros r _.
    split; [done|by left]. }
  destruct (findSubscriptionForMessage (db w) data) as [s|] eqn:Hfind;
    [|unfold afterUpdate; by rewrite Hfind].
  rewrite (afterUpdate_repoSyncStates _ _ _ _ _ _ Hfind).
  destruct (decide (t = repository)) as [->|Hne]; [done|].
  unfold mergeRepoSyncStates. apply Forall2_fmap_r, Forall_Forall2_diag, Forall_forall.
  intros r Hr. unfold compose.
  destruct (ownsRepo s rid r) eqn:Howns; [|split; [done|by left]].
  split; [done|]. rewrite commitFrom_merge, mergedFields_commitFrom.
  destruct (statusFields_cases (db w) s data (isCompleteResult p) t rid)
    as [->|(floor & Hc & -> & Hfloor & -> & r1 & Hr1 & Hstored)].
  - left. rewrite lookup_singleton_ne; [done|apply status_ne_commitFrom].
  - right. rewrite lookup_insert_eq.
    rewrite (findByRepoId_unique _ _ _ _ _ Hu Hr1 Hr Howns).
    split_and!; [done..|]. by exists floor.
Qed.

Lemma mergeRepoSyncStates_subId s s' rid values rows :
  subId s' = subId s →
  mergeRepoSyncStates s' rid values rows = mergeRepoSyncStates s rid values rows.
Proof. intros Hid. unfold mergeRepoSyncStates, ownsRepo. by rewrite Hid. Qed.

Lemma findByRepoId_merge d d' s s' rid values :
  subId s' = subId s →
  repoSyncStates d' = mergeRepoSyncStates s rid values (repoSyncStates d) →
  findByRepoId d' s' rid = mergeRepoSyncState values <$> findByRepoId d s rid.
Proof.
  intros Hid Hrows. unfold findByRepoId. rewrite Hrows. clear Hrows.
  unfold mergeRepoSyncStates.
  induction (repoSyncStates d) as [|r l IH]; [done|]. cbn.
  assert (ownsRepo s' rid (if ownsRepo s rid r then mergeRepoSyncState values r else r)
          = ownsRepo s rid r) as ->.
  { unfold ownsRepo. rewrite Hid.
    destruct (bool_decide (subscriptionId r = subId s ∧ repoId r = rid)) eqn:E;
      exact E. }
  destruct (ownsRepo s rid r); [done|apply IH].
Qed.

Lemma uniqueRepos_merge s rid values d d' :
  repoSyncStates d' = mergeRepoSyncStates s rid values (repoSyncStates d) →
  uniqueRepos d → uniqueRepos d'.
Proof.
  unfold uniqueRepos. intros -> Hu.
  unfold mergeRepoSyncStates. rewrite <-list_fmap_compose.
  erewrite list_fmap_ext; [exact Hu|].
  intros _ r _. cbn. by destruct (ownsRepo s rid r).
Qed.

(** Replaying a complete result: the first merge is the bare status again. *)
Lemma statusFields_replay d d' s s' data t rid :
  subId s' = subId s →
  repoSyncStates d' = mergeRepoSyncStates s rid (statusFields d s data true t rid)
                        (repoSyncStates d) →
  statusFields d' s' data true t rid = {[ getStatusKey t := VStr "complete" ]}.
Proof.
  intros Hid Hrows.
  pose proof (findByRepoId_merge d d' s s' rid _ Hid Hrows) as Hfind'.
  set (fields1 := statusFields d s data true t rid) in *.
  unfold statusFields. cbn [andb].
  destruct (bool_decide (t = commit)) eqn:Ht; [|done].
  destruct (commitsFromDate data) as [floor|] eqn:Hfloor; [|done].
  rewrite Hfind'.
  destruct (findByRepoId d s rid) as [r1|] eqn:Hr1; [|done]. cbn.
  rewrite commitFrom_merge. subst fields1. unfold statusFields.
  cbn [andb]. rewrite Ht, Hfloor, Hr1.
  destruct (commitFrom r1) as [stored|] eqn:Hstored.
  - destruct (floor <? stored) eqn:Hlt.
    + by rewrite lookup_insert_eq, Z.ltb_irrefl.
    + rewrite lookup_singleton_ne by apply status_ne_commitFrom. by rewrite Hlt.
  - by rewrite lookup_insert_eq, Z.ltb_irrefl.
Qed.

Lemma afterUpdate_replay_rows data p t rid w :
  isCompleteResult p = true →
  repoSyncStates (db (afterUpdate data p t rid (afterUpdate data p t rid w)))
  = repoSyncStates (db (afterUpdate data p t rid w)).
Proof.
  intros Hc.
  destruct (findSubscriptionForMessage (db w) data) as [s|] eqn:Hfind; first last.
  { unfold afterUpdate at 2 3. rewrite Hfind. unfold afterUpdate. by rewrite Hfind. }
  pose proof (completion_find data p t rid w s Hfind Hc) as Hfind'.
  set (w1 := afterUpdate data p t rid w) in *.
  set (s' := match getNextTask _ _ _ with Some _ => _ | None => _ end) in Hfind'.
  assert (subId s' = subId s) as Hid.
  { subst s'. rewrite <-(completion_s1_id data t rid w s).
    by destruct (getNextTask _ _ _). }
  rewrite (afterUpdate_repoSyncStates _ _ _ _ _ _ Hfind').
  destruct (decide (t = repository)) as [->|Hne]; [done|].
  assert (repoSyncStates (db w1)
          = mergeRepoSyncStates s rid (statusFields (db w) s data true t rid)
              (repoSyncStates (db w))) as Hrows.
  { subst w1. rewrite (afterUpdate_repoSyncStates _ _ _ _ _ _ Hfind).
    rewrite decide_False by done. unfold mergedFields. rewrite Hc.
    by rewrite (left_id_L ∅ (∪)). }
  unfold mergedFields. rewrite Hc, (left_id_L ∅ (∪)).
  rewrite (statusFields_replay (db w) (db w1) s s' data t rid Hid Hrows).
  rewrite (mergeRepoSyncStates_subId s s') by done.
  rewrite Hrows at 1. rewrite mergeRepoSyncStates_compose. rewrite Hrows.
  f_equal. apply map_eq. intros k. rewrite lookup_merge.
  destruct (decide (k = getStatusKey t)) as [->|Hk].
  - by rewrite lookup_singleton_eq, statusFields_status.
  - by rewrite lookup_singleton_ne.
Qed.

(** C5.  With one row per repository, a call of
    [updateTaskStatusAndContinue] never moves a stored [commitFrom] later: a
    row keeps its floor, or — only on completion of [commit], with a floor in
    the message, and a stored floor that is unset or strictly later — gets
    the floor of the message.  Replaying the same complete result changes no
    row. *)
Theorem commitFrom_monotone (data : BackfillMessagePayload) (p : TaskResultPayload)
    (t : TaskType) (rid : Z) (w : World) :
  uniqueRepos (db w) →
  let w' := (updateTaskStatusAndContinue data p t rid w).2 in
  Forall2 floorNotLater (repoSyncStates (db w)) (repoSyncStates (db w'))
  ∧ Forall2 (floorStep data p t) (repoSyncStates (db w)) (repoSyncStates (db w'))
  ∧ uniqueRepos (db w')
  ∧ (isCompleteResult p = true →
     repoSyncStates (db (updateTaskStatusAndContinue data p t rid w').2)
     = repoSyncStates (db w')).
Proof.
  intros Hu w'. subst w'. rewrite !updateTaskStatusAndContinue_run. cbn [snd].
  pose proof (afterUpdate_floorStep data p t rid w Hu) as Hstep.
  split_and!.
  - eapply Forall2_impl; [exact Hstep|]. apply floorStep_notLater.
  - exact Hstep.
  - destruct (findSubscriptionForMessage (db w) data) as [s|] eqn:Hfind;
      [|unfold afterUpdate; by rewrite Hfind].
    pose proof (afterUpdate_repoSyncStates data p t rid w s Hfind) as Hrows.
    destruct (decide (t = repository)).
    + unfold uniqueRepos. by rewrite Hrows.
    + by eapply uniqueRepos_merge.
  - intros Hc. by apply afterUpdate_replay_rows.
Qed.

(** ** Rescheduler *)

Lemma lexLe_total a b : lexLe a b = true ∨ lexLe b a = true.
Proof.
  revert b. induction a as [|x a IH]; intros [|y b]; cbn; auto.
  destruct (N.lt_trichotomy x y) as [Hlt|[->|Hlt]].
  - left. apply orb_true_iff. left. by apply N.ltb_lt.
  - rewrite N.ltb_irrefl, N.eqb_refl. cbn. apply IH.
  - right. apply orb_true_iff. left. by apply N.ltb_lt.
Qed.

Lemma lexLe_trans a b c : lexLe a b = true → lexLe b c = true → lexLe a c = true.
Proof.
  revert b c. induction a as [|x a IH]; intros [|y b] [|z c]; cbn; try done.
  rewrite !orb_true_iff, !andb_true_iff, !N.ltb_lt, !N.eqb_eq.
  intros [Hxy|[-> Hab]] [Hyz|[-> Hbc]]; eauto with lia.
Qed.

Global Instance sortLe_total : Total sortLe.
Proof. intros x y. apply lexLe_total. Qed.

Global Instance sortLe_trans : Transitive sortLe.
Proof. intros x y z. apply lexLe_trans. Qed.

Lemma sort_Permutation l : sort l ≡ₚ l.
Proof. apply merge_sort_Permutation. Qed.

Lemma sort_sorted l : StronglySorted sortLe (sort l).
Proof. apply StronglySorted_merge_sort; apply _. Qed.

(** The element [shift] takes after [sort] and [reverse]: one of the
    requested delays, last in the order of the sort. *)
Lemma reverse_sort_head l d rest :
  reverse (sort l) = d :: rest →
  d ∈ l ∧ (∀ x, x ∈ l → sortLe x d) ∧ d :: rest ≡ₚ l.
Proof.
  intros Hrev.
  assert (sort l = reverse rest ++ [d]) as Hsort.
  { by rewrite <-(reverse_involutive (sort l)), Hrev, reverse_cons. }
  assert (d :: rest ≡ₚ l) as Hperm.
  { rewrite <-(sort_Permutation l), Hsort, reverse_Permutation.
    by rewrite Permutation_app_comm. }
  split_and!; [| |done].
  - rewrite <-Hperm. by left.
  - intros x Hx. pose proof (sort_sorted l) as Hs. rewrite Hsort in Hs.
    rewrite <-(sort_Permutation l), Hsort in Hx.
    apply elem_of_app in Hx as [Hx|Hx].
    + eapply StronglySorted_app_1_elem_of; [exact Hs|exact Hx|by left].
    + apply list_elem_of_singleton in Hx as ->.
      by destruct (total sortLe d d).
Qed.

(** *** Decimal strings of equal length *)

Lemma pretty_N_char_code d :
  (d < 10)%N → Ascii.N_of_ascii (pretty_N_char d) = (48 + d)%N.
Proof.
  intros Hd.
  assert (d = 0 ∨ d = 1 ∨ d = 2 ∨ d = 3 ∨ d = 4 ∨ d = 5 ∨ d = 6 ∨ d = 7
          ∨ d = 8 ∨ d = 9)%N as Hcases by lia.
  repeat (destruct Hcases as [->|Hcases]; [reflexivity|]). by subst.
Qed.

Lemma pretty_N_go_length x s :
  (String.length s ≤ String.length (pretty_N_go x s))%nat.
Proof.
  revert s. induction (N.lt_wf_0 x) as [x _ IH]; intros s.
  assert (x = 0 ∨ 0 < x)%N as [->|Hpos] by lia; [by rewrite pretty_N_go_0|].
  rewrite pretty_N_go_step by done.
  etrans; [|apply IH; by apply N.div_lt]. cbn. lia.
Qed.

Lemma pretty_N_go_length_pos x s :
  (0 < x)%N → (String.length s < String.length (pretty_N_go x s))%nat.
Proof.
  intros Hpos. rewrite pretty_N_go_step by done.
  eapply Nat.lt_le_trans; [|apply pretty_N_go_length]. cbn. lia.
Qed.

Lemma codeUnits_String c s :
  codeUnits (String c s) = Ascii.N_of_ascii c :: codeUnits s.
Proof. reflexivity. Qed.

(** On strings of equal length the order of the sort is the order of the
    numbers. *)
Lemma pretty_N_go_lex x y s s' :
  String.length (pretty_N_go x s) = String.length (pretty_N_go y s') →
  String.length s = String.length s' →
  lexLe (codeUnits (pretty_N_go x s)) (codeUnits (pretty_N_go y s')) = true
  ↔ (x < y)%N ∨ (x = y ∧ lexLe (codeUnits s) (codeUnits s') = true).
Proof.
  revert y s s'. induction (N.lt_wf_0 x) as [x _ IH]; intros y s s' Hlen Hs.
  assert ((x = 0 ∨ 0 < x) ∧ (y = 0 ∨ 0 < y))%N as [[->|Hx] [->|Hy]] by lia.
  - rewrite !pretty_N_go_0. intuition lia.
  - rewrite pretty_N_go_0 in Hlen.
    pose proof (pretty_N_go_length_pos y s' Hy). lia.
  - rewrite pretty_N_go_0 in Hlen.
    pose proof (pretty_N_go_length_pos x s Hx). lia.
  - rewrite (pretty_N_go_step x), (pretty_N_go_step y) in Hlen |- * by done.
    rewrite IH; [|by apply N.div_lt|done|by cbn; rewrite Hs].
    rewrite !codeUnits_String. cbn [lexLe].
    rewrite !pretty_N_char_code by (by apply N.mod_lt).
    rewrite orb_true_iff, andb_true_iff, N.ltb_lt, N.eqb_eq.
    pose proof (N.div_mod x 10 ltac:(done)) as Hdx.
    pose proof (N.div_mod y 10 ltac:(done)) as Hdy.
    pose proof (N.mod_lt x 10 ltac:(done)) as Hmx.
    pose proof (N.mod_lt y 10 ltac:(done)) as Hmy.
    assert (true = true ↔ True) as Htt by done.
    assert (false = true ↔ False) as Hft by done.
    clear IH Hlen. revert Hdx Hdy Hmx Hmy.
    generalize (x `div` 10)%N (x `mod` 10)%N (y `div` 10)%N (y `mod` 10)%N.
    intros qx rx qy ry Hdx Hdy Hmx Hmy.
    destruct (lexLe (codeUnits s) (codeUnits s')); rewrite ?Htt, ?Hft; split; lia.
Qed.

Lemma toString_nonneg n : 0 ≤ n → toString n = pretty (Z.to_N n).
Proof. intros Hn. by destruct n. Qed.

Lemma sortLe_numeric x y :
  0 ≤ x → 0 ≤ y → digitCount x = digitCount y → sortLe x y ↔ x ≤ y.
Proof.
  unfold digitCount, sortLe. intros Hx Hy.
  rewrite !toString_nonneg by done.
  assert (x ≤ y ↔ (Z.to_N x ≤ Z.to_N y)%N) as -> by lia.
  generalize (Z.to_N x) (Z.to_N y). clear. intros x y.
  unfold pretty, pretty_N.
  destruct (decide (x = 0%N)) as [->|Hx], (decide (y = 0%N)) as [->|Hy].
  - done.
  - intros Hlen. rewrite (pretty_N_go_step y) in Hlen |- * by lia.
    change "0"%string with (pretty_N_go 0 "0") in Hlen |- * at 1.
    rewrite pretty_N_go_lex by done.
    rewrite !codeUnits_String. change (codeUnits "") with (@nil N).
    cbn [lexLe]. rewrite pretty_N_char_code by (by apply N.mod_lt).
    change (Ascii.N_of_ascii (Ascii.Ascii false false false false true true false false))
      with 48%N.
    pose proof (N.div_mod y 10 ltac:(done)) as Hdy.
    pose proof (N.mod_lt y 10 ltac:(done)) as Hmy.
    rewrite orb_true_iff, andb_true_iff, N.ltb_lt, N.eqb_eq.
    clear Hlen. revert Hdy Hmy. generalize (y `div` 10)%N (y `mod` 10)%N.
    intros qy ry Hdy Hmy. split; [lia|]. intros _.
    destruct (decide (qy = 0%N)); [right|left]; lia.
  - intros Hlen. rewrite (pretty_N_go_step x) in Hlen |- * by lia.
    change "0"%string with (pretty_N_go 0 "0") in Hlen |- * at 1.
    rewrite pretty_N_go_lex by done.
    rewrite !codeUnits_String. change (codeUnits "") with (@nil N).
    cbn [lexLe]. rewrite pretty_N_char_code by (by apply N.mod_lt).
    change (Ascii.N_of_ascii (Ascii.Ascii false false false false true true false false))
      with 48%N.
    pose proof (N.div_mod x 10 ltac:(done)) as Hdx.
    pose proof (N.mod_lt x 10 ltac:(done)) as Hmx.
    rewrite orb_true_iff, andb_true_iff, N.ltb_lt, N.eqb_eq.
    clear Hlen. revert Hdx Hmx. generalize (x `div` 10)%N (x `mod` 10)%N.
    intros qx rx Hdx Hmx. split; [|lia].
    intros [Hlt|[Hq [Hlt|[Heq _]]]]; lia.
  - intros Hlen. rewrite pretty_N_go_lex by done.
    change (codeUnits "") with (@nil N). cbn [lexLe]. split; [|lia].
    intros [Hlt|[-> _]]; lia.
Qed.

Lemma ceilDiv_spec x : x ≤ 1000 * ceilDiv x 1000 < x + 1000.
Proof.
  unfold ceilDiv.
  pose proof (Z.div_mod (- x) 1000 ltac:(done)).
  pose proof (Z.mod_pos_bound (- x) 1000 ltac:(done)).
  lia.
Qed.

(** C2 as stated fails: with an immediate and a five-second request the
    message is sent with a delay of five seconds, not zero. *)
Lemma maybeScheduleNextTask_not_minimum :
  (maybeScheduleNextTask Sample.data [0; 5000]).1 = [(Sample.data, 5)]
  ∧ ¬ sendsMinimum Sample.data [0; 5000].
Proof.
  assert ((maybeScheduleNextTask Sample.data [0; 5000]).1 = [(Sample.data, 5)]) as Hrun
    by (vm_compute; reflexivity).
  split; [exact Hrun|].
  unfold sendsMinimum. rewrite Hrun. vm_compute. discriminate.
Qed.

(** C2, amended.  An empty list sends nothing.  A non-empty list sends
    exactly one message; its delay is one of the requested delays, in seconds
    rounded up, and the rest of the requests is dropped.  The delay chosen is
    the greatest one whenever the requests are non-negative and written with
    the same number of digits, so in particular when there is one request. *)
Theorem maybeScheduleNextTask_one_message (jobData : BackfillMessagePayload)
    (l : list Z) :
  match l with
  | [] => maybeScheduleNextTask jobData l = ([], [])
  | _ :: _ =>
      ∃ d rest,
        maybeScheduleNextTask jobData l = ([(jobData, ceilDiv d 1000)], rest)
        ∧ d ∈ l
        ∧ d :: rest ≡ₚ l
        ∧ d ≤ 1000 * ceilDiv d 1000 < d + 1000
        ∧ ((∀ x, x ∈ l → 0 ≤ x ∧ digitCount x = digitCount d) →
           ∀ x, x ∈ l → x ≤ d)
  end.
Proof.
  destruct l as [|x0 l0]; [done|].
  unfold maybeScheduleNextTask.
  destruct (reverse (sort (x0 :: l0))) as [|d rest] eqn:Hrev.
  { exfalso. apply (f_equal length) in Hrev.
    rewrite length_reverse, (Permutation_length (sort_Permutation _)) in Hrev.
    discriminate Hrev. }
  apply reverse_sort_head in Hrev as (Hd & Hmax & Hperm).
  exists d, rest.
  split; [done|]. split; [done|]. split; [done|]. split; [apply ceilDiv_spec|].
  intros Hdigits x Hx.
  destruct (Hdigits x Hx) as [Hx0 Hxd]. destruct (Hdigits d Hd) as [Hd0 _].
  apply sortLe_numeric; auto.
Qed.

Example maybeScheduleNextTask_examples :
  maybeScheduleNextTask Sample.data [] = ([], [])
  ∧ (maybeScheduleNextTask Sample.data [0]).1 = [(Sample.data, 0)]
  ∧ (maybeScheduleNextTask Sample.data [4001]).1 = [(Sample.data, 5)]
  ∧ (maybeScheduleNextTask Sample.data [30000; 60000]).1 = [(Sample.data, 60)].
Proof. vm_compute. by split_and!. Qed.

(** ** Failed categories *)

Lemma failedAt_not_selected sid rid t d s targets tk :
  failedAt sid rid t d → t ≠ repository → subId s = sid →
  getNextTask d s targets = Some tk →
  ¬ (task tk = t ∧ repositoryId tk = rid).
Proof.
  intros Hfailed Hne Hid Hnext [Ht Hrid].
  apply getNextTask_Some in Hnext
    as [[_ ->]|(_ & _ & _ & r & Hr & Hsid & Hrepo & Hout)].
  - cbn in Ht. congruence.
  - assert (rssColumns r !! getStatusKey t = Some (VStr "failed")) as Hst.
    { apply Hfailed; congruence. }
    rewrite Ht in Hout.
    by rewrite (isOutstanding_status r t "failed" Hst) in Hout.
Qed.

Lemma mergedFields_keys d s data p t rid k v :
  mergedFields d s data p t rid !! k = Some v →
  k = getCursorKey t ∨ k = getStatusKey t ∨ k = "commitFrom".
Proof.
  unfold mergedFields. rewrite lookup_merge.
  destruct (isCompleteResult p).
  - rewrite lookup_empty. intros [->|[-> _]]%statusFields_keys; auto.
  - destruct (decide (k = getCursorKey t)) as [->|Hk]; [auto|].
    rewrite lookup_singleton_ne by done.
    intros [->|[-> _]]%statusFields_keys; auto.
Qed.

(** The progress update of another pair leaves the mark in place. *)
Lemma failedAt_afterUpdate sid rid t data p t' rid' w :
  failedAt sid rid t (db w) →
  (∀ s, findSubscriptionForMessage (db w) data = Some s →
        ¬ (subId s = sid ∧ rid' = rid ∧ t' = t)) →
  failedAt sid rid t (db (afterUpdate data p t' rid' w)).
Proof.
  intros Hfailed Hother.
  destruct (findSubscriptionForMessage (db w) data) as [s|] eqn:Hfind;
    [|unfold afterUpdate; by rewrite Hfind].
  intros r'. rewrite (afterUpdate_repoSyncStates _ _ _ _ _ _ Hfind).
  destruct (decide (t' = repository)); [apply Hfailed|].
  intros (r & Hr & Hsid & Hrid & _ & Hcols)%mergeRepoSyncStates_elem Hs Hrepo.
  rewrite Hcols. rewrite Hsid in Hs. rewrite Hrid in Hrepo.
  destruct (ownsRepo s rid' r) eqn:Howns; [|by apply Hfailed].
  apply bool_decide_eq_true in Howns as [Hs' Hrepo'].
  rewrite lookup_merge.
  destruct (mergedFields _ _ _ _ _ _ !! getStatusKey t) as [v|] eqn:Hv;
    [|by apply Hfailed].
  exfalso. apply mergedFields_keys in Hv as [Hk|[Hk|Hk]].
  - by apply status_ne_cursor in Hk.
  - apply (inj getStatusKey) in Hk. apply (Hother s eq_refl). split_and!; congruence.
  - by apply status_ne_commitFrom in Hk.
Qed.

Lemma failedAt_rows sid rid t d d' :
  repoSyncStates d' = repoSyncStates d → failedAt sid rid t d → failedAt sid rid t d'.
Proof. unfold failedAt. by intros ->. Qed.

Lemma handleBackfillError_world err data tk now w :
  (handleBackfillError err data tk now w).2 = w
  ∨ (∃ delayMs, (handleBackfillError err data tk now w).2 = pushDelay delayMs w)
  ∨ (handleBackfillError err data tk now w).2
    = afterUpdate data noEdges (task tk) (repositoryId tk) w.
Proof.
  destruct (instanceofGithubClientError err) eqn:Hgh.
  - destruct (instanceofRateLimitingError err) eqn:Hrl.
    + destruct err; try done. rewrite handleBackfillError_rate_limit_run. eauto.
    + rewrite handleBackfillError_github_client_error by done.
      rewrite updateTaskStatusAndContinue_run. auto.
  - rewrite handleBackfillError_rethrow by done. auto.
Qed.

Lemma doProcessInstallation_run data attempt now w :
  doProcessInstallation data attempt now w = afterAttempt data attempt now w.
Proof.
  unfold doProcessInstallation, afterAttempt.
  unfold mbind at 1, M_bind at 1. cbn [getDb].
  destruct (findSubscriptionForMessage (db w) data) as [s|]; [|done].
  destruct (getNextTask (db w) s (targetTasks data)) as [tk|].
  - unfold mbind at 1, M_bind at 1. rewrite subscriptionUpdate_run.
    unfold tryCatch. unfold mbind at 1, M_bind at 1.
    destruct (processorResult (attempt tk)) as [err|p]; [done|].
    unfold mret at 1, M_ret at 1. unfold mbind at 1, M_bind at 1.
    destruct (jiraPayload p), (jiraSubmitError (attempt tk)) as [err|];
      try done; unfold mret, M_ret; by rewrite updateTaskStatusAndContinue_run.
  - unfold mbind, M_bind. by rewrite subscriptionUpdate_run.
Qed.

Lemma afterFailed_marks data nextTask w s :
  findSubscriptionForMessage (db w) data = Some s →
  task nextTask ≠ repository →
  failedAt (subId s) (repositoryId nextTask) (task nextTask)
    (db (afterFailed data nextTask w)).
Proof.
  intros Hfind Hne. unfold afterFailed. rewrite Hfind, decide_False by done.
  intros r (r0 & Hr0 & Hsid & Hrid & _ & Hcols)%mergeRepoSyncStates_elem Hs Hrepo.
  assert (ownsRepo s (repositoryId nextTask) r0 = true) as Howns.
  { unfold ownsRepo. apply bool_decide_eq_true_2. split; congruence. }
  rewrite Howns in Hcols. rewrite Hcols, lookup_merge.
  unfold failedFields. by rewrite lookup_singleton_eq.
Qed.

Lemma failedAt_afterFailed sid rid t data nextTask w :
  failedAt sid rid t (db w) → failedAt sid rid t (db (afterFailed data nextTask w)).
Proof.
  intros Hfailed. unfold afterFailed.
  destruct (findSubscriptionForMessage (db w) data) as [s|]; [|done].
  destruct (decide (task nextTask = repository)); [done|].
  intros r' (r & Hr & Hsid & Hrid & _ & Hcols)%mergeRepoSyncStates_elem Hs Hrepo.
  rewrite Hcols. rewrite Hsid in Hs. rewrite Hrid in Hrepo.
  destruct (ownsRepo s (repositoryId nextTask) r); [|by apply Hfailed].
  rewrite lookup_merge. unfold failedFields.
  destruct (decide (getStatusKey (task nextTask) = getStatusKey t)) as [->|Hk].
  - by rewrite lookup_singleton_eq.
  - rewrite lookup_singleton_ne by done. by apply Hfailed.
Qed.

Lemma failedAt_afterAttempt sid rid t data attempt now w :
  t ≠ repository → failedAt sid rid t (db w) →
  failedAt sid rid t (db (afterAttempt data attempt now w).2).
Proof.
  intros Hne Hfailed. unfold afterAttempt.
  destruct (findSubscriptionForMessage (db w) data) as [s|] eqn:Hfind; [|done].
  destruct (getNextTask (db w) s (targetTasks data)) as [tk|] eqn:Hnext; [|done].
  set (wa := applySubscriptionUpdate s _ w).
  assert (failedAt sid rid t (db wa)) as Hwa by done.
  assert (∀ s', findSubscriptionForMessage (db wa) data = Some s' →
                ¬ (subId s' = sid ∧ repositoryId tk = rid ∧ task tk = t)) as Hother.
  { intros s'. subst wa. rewrite (find_applySubscriptionUpdate _ _ _ _ s Hfind eq_refl).
    intros [= <-] (Hid & Hrid & Ht). cbn [subId mergeSubscription] in Hid.
    by apply (failedAt_not_selected _ _ _ _ _ _ _ Hfailed Hne Hid Hnext). }
  assert (∀ err, failedAt sid rid t (db (handleBackfillError err data tk now wa).2))
    as Herr.
  { intros err.
    destruct (handleBackfillError_world err data tk now wa) as [->|[[? ->]| ->]];
      [done|done|by apply failedAt_afterUpdate]. }
  destruct (processorResult (attempt tk)) as [err|p]; [apply Herr|].
  destruct (jiraSubmitError (attempt tk)) as [err|].
  - destruct (jiraPayload p); [apply Herr|by apply failedAt_afterUpdate].
  - by apply failedAt_afterUpdate.
Qed.

Lemma failedAt_runOps sid rid t ops w :
  t ≠ repository → failedAt sid rid t (db w) → failedAt sid rid t (db (runOps ops w)).
Proof.
  intros Hne. revert w. induction ops as [|o ops IH]; intros w Hfailed; [done|].
  cbn. apply IH. destruct o as [data attempt now|data nextTask]; cbn [runOp].
  - rewrite doProcessInstallation_run. by apply failedAt_afterAttempt.
  - rewrite markCurrentTaskAsFailedAndContinue_run. by apply failedAt_afterFailed.
Qed.

(** With nothing left to select, the attempt marks the Subscription
    [COMPLETE], requests no follow-up and touches no row. *)
Lemma doProcessInstallation_completes data attempt now w s :
  findSubscriptionForMessage (db w) data = Some s →
  getNextTask (db w) s (targetTasks data) = None →
  let w' := (doProcessInstallation data attempt now w).2 in
  findSubscriptionForMessage (db w') data
    = Some (mergeSubscription (completeFields data) s)
  ∧ subColumns (mergeSubscription (completeFields data) s) !! "syncStatus"
    = Some (VStr "COMPLETE")
  ∧ repoSyncStates (db w') = repoSyncStates (db w)
  ∧ nextTaskDelaysMs w' = nextTaskDelaysMs w.
Proof.
  intros Hfind Hnext w'. subst w'.
  rewrite doProcessInstallation_run. unfold afterAttempt. rewrite Hfind, Hnext.
  cbn [snd]. split_and!; try done.
  - by apply find_applySubscriptionUpdate.
  - cbn. by rewrite lookup_merge, completeFields_syncStatus.
Qed.

(** C10.  The selector returns a category only where its status is unset or
    pending.  Once [markCurrentTaskAsFailedAndContinue] has marked a category
    failed for a repository, the mark stays through every later attempt and
    give-up, the selector never returns that pair again, and when the
    selector finds nothing left the next attempt marks the Subscription
    [COMPLETE] with the failed category still in place. *)
Theorem failed_category_never_selected (data : BackfillMessagePayload)
    (nextTask : Task) (w : World) (s : Subscription) :
  findSubscriptionForMessage (db w) data = Some s →
  task nextTask ≠ repository →
  let t := task nextTask in
  let rid := repositoryId nextTask in
  let w1 := (markCurrentTaskAsFailedAndContinue data nextTask w).2 in
  (∀ d s0 targets tk,
     getNextTask d s0 targets = Some tk → task tk ≠ repository →
     ∃ r, r ∈ repoSyncStates d ∧ subscriptionId r = subId s0
          ∧ repoId r = repositoryId tk
          ∧ (truthy (rssColumns r !! getStatusKey (task tk)) = false
             ∨ rssColumns r !! getStatusKey (task tk) = Some (VStr "pending"))
          ∧ rssColumns r !! getStatusKey (task tk) ≠ Some (VStr "failed")
          ∧ rssColumns r !! getStatusKey (task tk) ≠ Some (VStr "complete"))
  ∧ failedAt (subId s) rid t (db w1)
  ∧ ∀ ops,
      let w2 := runOps ops w1 in
      failedAt (subId s) rid t (db w2)
      ∧ (∀ s' targets tk,
           subId s' = subId s → getNextTask (db w2) s' targets = Some tk →
           ¬ (task tk = t ∧ repositoryId tk = rid))
      ∧ (∀ s2 attempt now,
           findSubscriptionForMessage (db w2) data = Some s2 →
           getNextTask (db w2) s2 (targetTasks data) = None →
           let w3 := (doProcessInstallation data attempt now w2).2 in
           (∃ s3, findSubscriptionForMessage (db w3) data = Some s3
                  ∧ subColumns s3 !! "syncStatus" = Some (VStr "COMPLETE"))
           ∧ failedAt (subId s) rid t (db w3)).
Proof.
  intros Hfind Hne t rid w1.
  assert (failedAt (subId s) rid t (db w1)) as Hfailed.
  { subst w1. rewrite markCurrentTaskAsFailedAndContinue_run. cbn [snd].
    by apply afterFailed_marks. }
  split_and!; [|done|].
  - intros d s0 targets tk Hnext Hcat.
    apply getNextTask_Some in Hnext
      as [[_ ->]|(_ & _ & _ & r & Hr & Hsid & Hrepo & Hout)]; [done|].
    exists r. split_and!; try done.
    + unfold isOutstanding in Hout. apply orb_true_iff in Hout as [Hu|Hp].
      * left. by apply negb_true_iff.
      * right. by apply bool_decide_eq_true in Hp.
    + intros Hst. by rewrite (isOutstanding_status r _ "failed" Hst) in Hout.
    + intros Hst. by rewrite (isOutstanding_status r _ "complete" Hst) in Hout.
  - intros ops w2.
    assert (failedAt (subId s) rid t (db w2)) as Hfailed2
      by by apply failedAt_runOps.
    split_and!; [done| |].
    + intros s' targets tk Hid Hnext.
      by apply (failedAt_not_selected _ _ _ _ _ _ _ Hfailed2 Hne Hid Hnext).
    + intros s2 attempt now Hfind2 Hnone w3.
      destruct (doProcessInstallation_completes data attempt now w2 s2 Hfind2 Hnone)
        as (Hfind3 & Hsync & Hrows & _).
      split; [eauto|]. by eapply failedAt_rows.
Qed.

(** ** Scenarios *)

Lemma commitFrom_monotone_witness :
  uniqueRepos (db Sample.floors)
  ∧ Forall2 floorNotLater (repoSyncStates (db Sample.floors))
      (repoSyncStates
         (db (updateTaskStatusAndContinue Sample.data noEdges commit 21
                Sample.floors).2)).
Proof.
  assert (uniqueRepos (db Sample.floors)) as H.
  { unfold uniqueRepos. apply NoDup_ListNoDup. cbn.
    repeat constructor; cbn; intuition congruence. }
  split; [exact H|].
  exact (proj1 (commitFrom_monotone Sample.data noEdges commit 21 Sample.floors H)).
Defined.

(** Completing [commit] with floor 1000 in the message: a stored floor of
    5000 is lowered, a stored floor of 500 stays, an unset floor is set; a
    replay changes nothing. *)
Example commit_floor_scenario :
  let run rid w := (updateTaskStatusAndContinue Sample.data noEdges commit rid w).2 in
  let w1 := run 23 (run 22 (run 21 Sample.floors)) in
  commitFrom <$> repoSyncStates (db Sample.floors) = [Some 5000; Some 500; None]
  ∧ commitFrom <$> repoSyncStates (db w1) = [Some 1000; Some 500; Some 1000]
  ∧ commitFrom <$> repoSyncStates (db (run 21 w1)) = [Some 1000; Some 500; Some 1000]
  ∧ (λ r, rssColumns r !! "commitStatus") <$> repoSyncStates (db w1)
    = [Some (VStr "complete"); Some (VStr "complete"); Some (VStr "complete")].
Proof. vm_compute. by split_and!. Qed.

Lemma failed_category_never_selected_witness :
  findSubscriptionForMessage (db Sample.lastCategory) Sample.data
    = Some Sample.subscription
  ∧ task Sample.deploymentTask ≠ repository
  ∧ failedAt (subId Sample.subscription) 7 deployment
      (db (markCurrentTaskAsFailedAndContinue Sample.data Sample.deploymentTask
             Sample.lastCategory).2).
Proof.
  assert (findSubscriptionForMessage (db Sample.lastCategory) Sample.data
          = Some Sample.subscription) as H1 by reflexivity.
  assert (task Sample.deploymentTask ≠ repository) as H2 by discriminate.
  split; [exact H1|]. split; [exact H2|].
  exact (proj1 (proj2 (failed_category_never_selected Sample.data
                         Sample.deploymentTask Sample.lastCategory
                         Sample.subscription H1 H2))).
Defined.

(** Giving up on the last outstanding category: it is marked failed, a
    follow-up is requested, the follow-up attempt finds nothing to select and
    marks the Subscription [COMPLETE] while the category stays failed. *)
Example failed_then_complete :
  let w1 := (markCurrentTaskAsFailedAndContinue Sample.data Sample.deploymentTask
               Sample.lastCategory).2 in
  let w2 := (doProcessInstallation Sample.data Sample.idle 0 w1).2 in
  nextTaskDelaysMs w1 = [0]
  ∧ getNextTask (db w1) Sample.subscription None = None
  ∧ (λ x, subColumns x !! "syncStatus") <$> subscriptions (db w2)
    = [Some (VStr "COMPLETE")]
  ∧ (λ r, rssColumns r !! "deploymentStatus") <$> repoSyncStates (db w2)
    = [Some (VStr "failed")].
Proof. vm_compute. by split_and!. Qed.

(** End to end on one repository: discovery first, then the five categories
    in fixed order, then nothing; the Subscription ends [COMPLETE]. *)
Example end_to_end :
  let fresh : World :=
    {| db := {| subscriptions :=
                  [ {| subId := 10; subJiraHost := "https://acme.atlassian.net";
                       gitHubInstallationId := 1; gitHubAppId := None;
                       subColumns := ∅ |} ];
                repoSyncStates := [Sample.row 1 7 (Some 90) ∅] |};
       writes := []; nextTaskDelaysMs := [] |} in
  let step w := (doProcessInstallation Sample.data Sample.idle 0 w).2 in
  let selected w :=
    s ← findSubscriptionForMessage (db w) Sample.data;
    tk ← getNextTask (db w) s None;
    Some (task tk) in
  let w6 := step (step (step (step (step (step fresh))))) in
  selected <$> [fresh; step fresh; step (step fresh); step (step (step fresh));
                step (step (step (step fresh)));
                step (step (step (step (step fresh)))); w6]
  = [Some repository; Some pull; Some branch; Some commit; Some build;
     Some deployment; None]
  ∧ (λ x, subColumns x !! "syncStatus") <$> subscriptions (db w6)
    = [Some (VStr "COMPLETE")].
Proof. vm_compute. by split_and!. Qed.

(** * Further properties *)

(** ** The ranking does not depend on how the rows are stored *)

Lemma rankedBefore_antisym x y :
  rankedBefore x y → rankedBefore y x →
  repoUpdatedAt x = repoUpdatedAt y ∧ rssId x = rssId y.
Proof.
  unfold rankedBefore, rankBefore.
  destruct (repoUpdatedAt x) as [a|], (repoUpdatedAt y) as [b|]; try done.
  - rewrite !orb_true_iff, !andb_true_iff, !Z.ltb_lt, !Z.eqb_eq, !Z.leb_le.
    intros Hxy Hyx. assert (a = b ∧ rssId x = rssId y) as [-> ?] by lia. done.
  - rewrite !Z.leb_le. intros. split; [done|lia].
Qed.

Lemma findAllFromSubscription_perm_elem d s :
  findAllFromSubscription d s
  ≡ₚ filter (λ r, subscriptionId r = subId s) (repoSyncStates d).
Proof. apply merge_sort_Permutation. Qed.

Lemma findAllFromSubscription_perm d d' s :
  repoSyncStates d ≡ₚ repoSyncStates d' → uniqueIds d →
  findAllFromSubscription d s = findAllFromSubscription d' s.
Proof.
  intros Hperm Hu.
  apply (StronglySorted_unique_strong rankedBefore);
    [|apply findAllFromSubscription_sorted..|].
  - intros x1 x2 [Hx1 _]%findAllFromSubscription_elem
      [Hx2 _]%findAllFromSubscription_elem H12 H21.
    rewrite <-Hperm in Hx2.
    apply (NoDup_fmap_eq rssId _ _ _ Hu Hx1 Hx2).
    by destruct (rankedBefore_antisym _ _ H12 H21).
  - rewrite !findAllFromSubscription_perm_elem. by rewrite Hperm.
Qed.

(** X1.  The selection is the same for every order in which the store holds
    the rows, as long as their ids are distinct: ties on [repoUpdatedAt], and
    rows without it, are settled by the id. *)
Theorem getNextTask_storage_order (d d' : Db) (s : Subscription)
    (targets : option (list TaskType)) :
  uniqueIds d →
  repoSyncStates d ≡ₚ repoSyncStates d' →
  getNextTask d s targets = getNextTask d' s targets.
Proof.
  intros Hu Hperm. unfold getNextTask.
  by rewrite (findAllFromSubscription_perm d d' s Hperm Hu).
Qed.

Lemma getNextTask_storage_order_witness :
  uniqueIds Sample.store
  ∧ getNextTask Sample.store Sample.subscription None
    = getNextTask {| subscriptions := subscriptions Sample.store;
                     repoSyncStates := reverse (repoSyncStates Sample.store) |}
        Sample.subscription None.
Proof.
  assert (uniqueIds Sample.store) as H.
  { unfold uniqueIds. apply NoDup_ListNoDup. cbn.
    repeat constructor; cbn; intuition congruence. }
  split; [exact H|].
  apply (getNextTask_storage_order _ _ _ _ H). cbn [repoSyncStates].
  symmetry. apply reverse_Permutation.
Defined.

(** ** Resuming a category from its cursor *)






Lemma isOutstanding_ext r r' t :
  rssColumns r' !! getStatusKey t = rssColumns r !! getStatusKey t →
  isOutstanding r' t = isOutstanding r t.
Proof. unfold isOutstanding. by intros ->. Qed.


Lemma mergedFields_other_status d s data p t rid t' :
  t' ≠ t → mergedFields d s data p t rid !! getStatusKey t' = None.
Proof.
  intros Hne.
  destruct (mergedFields d s data p t rid !! getStatusKey t') as [v|] eqn:Hv; [|done].
  apply mergedFields_keys in Hv as [Hk|[Hk|Hk]].
  - by apply status_ne_cursor in Hk.
  - by apply (inj getStatusKey) in Hk.
  - by apply status_ne_commitFrom in Hk.
Qed.



(** ** What the progress update leaves alone *)

Lemma rowFrame_refl s rid t r : rowFrame s rid t r r.
Proof. unfold rowFrame, rowChangedWithin. by case_decide. Qed.

Lemma subscriptionFrame_refl s x : subscriptionFrame s x x.
Proof. unfold subscriptionFrame, subscriptionChangedWithin. by case_decide. Qed.

Lemma subscriptionFrame_trans s x y z :
  subscriptionFrame s x y → subscriptionFrame s y z → subscriptionFrame s x z.
Proof.
  unfold subscriptionFrame, subscriptionChangedWithin.
  destruct (decide (subId x = subId s)) as [Hx|Hx].
  - intros (Hid & H1 & H2 & H3 & Hxy). rewrite decide_True by congruence.
    intros (Hid' & H1' & H2' & H3' & Hyz). split_and!; try congruence.
    intros k Hk. by rewrite Hyz, Hxy.
  - intros ->. by rewrite decide_False.
Qed.

Lemma mergeRepoSyncStates_frame s0 s rid t (values : Fields) rows :
  subId s0 = subId s → t ≠ repository →
  (∀ k v, values !! k = Some v → k ∈ rowKeys t) →
  Forall2 (rowFrame s rid t) rows (mergeRepoSyncStates s0 rid values rows).
Proof.
  intros Hid Hne Hkeys. unfold mergeRepoSyncStates.
  apply Forall2_fmap_r, Forall_Forall2_diag, Forall_forall. intros r _.
  unfold compose, rowFrame, ownsRepo. rewrite Hid.
  destruct (decide (subscriptionId r = subId s ∧ repoId r = rid ∧ t ≠ repository))
    as [(Hs & Hr & _)|Hno].
  - rewrite bool_decide_eq_true_2 by done.
    unfold rowChangedWithin. cbn. split_and!; try done.
    intros k Hk. rewrite lookup_merge.
    destruct (values !! k) as [v|] eqn:Hv; [|done]. by destruct Hk; eapply Hkeys.
  - rewrite bool_decide_eq_false_2; [done|]. intros [? ?]. by apply Hno.
Qed.

Lemma mergeSubscriptions_frame s0 s (values : Fields) table :
  subId s0 = subId s →
  (∀ k v, values !! k = Some v → k ∈ subscriptionProgressKeys) →
  Forall2 (subscriptionFrame s) table (mergeSubscriptions s0 values table).
Proof.
  intros Hid Hkeys. unfold mergeSubscriptions.
  apply Forall2_fmap_r, Forall_Forall2_diag, Forall_forall. intros x _.
  unfold compose, subscriptionFrame. rewrite Hid.
  destruct (decide (subId x = subId s)); [|done].
  unfold subscriptionChangedWithin. cbn. split_and!; try done.
  intros k Hk. rewrite lookup_merge.
  destruct (values !! k) as [v|] eqn:Hv; [|done]. by destruct Hk; eapply Hkeys.
Qed.

Lemma mergedFields_rowKeys d s data p t rid k v :
  mergedFields d s data p t rid !! k = Some v → k ∈ rowKeys t.
Proof.
  intros [-> | [-> | ->]]%mergedFields_keys; unfold rowKeys.
  - right. by left.
  - by left.
  - right. right. by left.
Qed.

Lemma completeFields_progressKeys data k v :
  completeFields data !! k = Some v → k ∈ subscriptionProgressKeys.
Proof.
  unfold completeFields.
  intros [[<- _]|[_ [<- _]%lookup_singleton_Some]]%lookup_insert_Some;
    unfold subscriptionProgressKeys.
  - right. right. by left.
  - right. right. right. by left.
Qed.

Lemma routeMerge_subscriptions_frame s0 s rid t (values : Fields) w :
  subId s0 = subId s →
  (∀ k v, values !! k = Some v → t = repository → k ∈ subscriptionProgressKeys) →
  Forall2 (subscriptionFrame s) (subscriptions (db w))
          (subscriptions (db (routeMerge s0 rid t values w).2)).
Proof.
  intros Hid Hkeys. unfold routeMerge.
  destruct (decide (t = repository)) as [Ht|Ht]; cbn.
  - apply mergeSubscriptions_frame; [done|]. eauto.
  - apply Forall_Forall2_diag, Forall_forall. intros x _. apply subscriptionFrame_refl.
Qed.

Lemma afterUpdate_frame data p t rid w s :
  findSubscriptionForMessage (db w) data = Some s →
  Forall2 (rowFrame s rid t) (repoSyncStates (db w))
          (repoSyncStates (db (afterUpdate data p t rid w)))
  ∧ Forall2 (subscriptionFrame s) (subscriptions (db w))
            (subscriptions (db (afterUpdate data p t rid w))).
Proof.
  intros Hfind. split.
  - rewrite (afterUpdate_repoSyncStates _ _ _ _ _ _ Hfind).
    destruct (decide (t = repository)) as [Ht|Ht].
    + apply Forall_Forall2_diag, Forall_forall. intros r _. apply rowFrame_refl.
    + apply mergeRepoSyncStates_frame; [done..|]. apply mergedFields_rowKeys.
  - unfold afterUpdate. rewrite Hfind.
    set (F := statusFields (db w) s data (isCompleteResult p) t rid).
    assert (∀ k v, F !! k = Some v → t = repository → k ∈ subscriptionProgressKeys)
      as HF.
    { intros k v Hk Ht. apply statusFields_keys in Hk as [->|[_ Hc]];
        [subst t; by left|congruence]. }
    pose proof (routeMerge_subscriptions_frame s s rid t F w eq_refl HF) as H1.
    destruct (isCompleteResult p).
    + destruct (getNextTask _ _ _); [done|]. cbn [applySubscriptionUpdate db subscriptions].
      eapply Forall2_trans; [apply subscriptionFrame_trans|exact H1|].
      apply mergeSubscriptions_frame; [apply routeMerge_id|].
      apply completeFields_progressKeys.
    + cbn [pushDelay db].
      eapply Forall2_trans; [apply subscriptionFrame_trans|exact H1|].
      apply routeMerge_subscriptions_frame; [apply routeMerge_id|].
      intros k v [<- _]%lookup_singleton_Some Ht. subst t. right. by left.
Qed.

(** X3.  Only the columns of the task change, and only in the rows of its
    repository; of the Subscriptions only the one of the message changes, and
    only in its discovery and sync columns. *)
Theorem updateTaskStatusAndContinue_frame (data : BackfillMessagePayload)
    (p : TaskResultPayload) (t : TaskType) (rid : Z) (w : World) (s : Subscription) :
  findSubscriptionForMessage (db w) data = Some s →
  let w' := (updateTaskStatusAndContinue data p t rid w).2 in
  Forall2 (rowFrame s rid t) (repoSyncStates (db w)) (repoSyncStates (db w'))
  ∧ Forall2 (subscriptionFrame s) (subscriptions (db w)) (subscriptions (db w')).
Proof.
  intros Hfind w'. subst w'. rewrite updateTaskStatusAndContinue_run. cbn [snd].
  by apply afterUpdate_frame.
Qed.

Lemma updateTaskStatusAndContinue_frame_witness :
  findSubscriptionForMessage (db Sample.world) Sample.data = Some Sample.subscription
  ∧ Forall2 (rowFrame Sample.subscription 7 build)
      (repoSyncStates (db Sample.world))
      (repoSyncStates
         (db (updateTaskStatusAndContinue Sample.data (Sample.page "c1") build 7
                Sample.world).2)).
Proof.
  assert (findSubscriptionForMessage (db Sample.world) Sample.data
          = Some Sample.subscription) as H by reflexivity.
  split; [exact H|].
  exact (proj1 (updateTaskStatusAndContinue_frame Sample.data (Sample.page "c1")
                  build 7 Sample.world Sample.subscription H)).
Defined.

(** ** When the progress update asks for a follow-up *)

Lemma find_routeMerge data s0 s rid t values w :
  findSubscriptionForMessage (db w) data = Some s0 → subId s0 = subId s →
  findSubscriptionForMessage (db (routeMerge s rid t values w).2) data
  = Some (if decide (t = repository) then mergeSubscription values s0 else s0).
Proof.
  intros Hfind Hid. unfold routeMerge. destruct (decide (t = repository)); cbn [snd].
  - by apply find_applySubscriptionUpdate.
  - by rewrite find_applyRepoUpdate.
Qed.

Lemma completeFields_backfillSince data :
  completeFields data !! "backfillSince" = Some (getBackfillSince data).
Proof.
  unfold completeFields. rewrite lookup_insert_ne by done.
  apply lookup_singleton_eq.
Qed.

(** X4.  [updateTaskStatusAndContinue] never raises.  Without a Subscription
    it does nothing.  After a page with edges it requests one follow-up with
    delay 0.  After an empty page it requests one follow-up with delay 0 when
    the selector still finds a task, and otherwise requests none and leaves
    the Subscription [COMPLETE] with [backfillSince] set to the commit floor
    of the message, or to null without one. *)
Theorem updateTaskStatusAndContinue_follow_up (data : BackfillMessagePayload)
    (p : TaskResultPayload) (t : TaskType) (rid : Z) (w : World) :
  let out := updateTaskStatusAndContinue data p t rid w in
  out.1 = inr ()
  ∧ match findSubscriptionForMessage (db w) data with
    | None => out.2 = w
    | Some s =>
        ∃ s', findSubscriptionForMessage (db out.2) data = Some s'
              ∧ subId s' = subId s
              ∧ if isCompleteResult p then
                  match getNextTask (db out.2) s' (targetTasks data) with
                  | Some _ => nextTaskDelaysMs out.2 = nextTaskDelaysMs w ++ [0]
                  | None =>
                      nextTaskDelaysMs out.2 = nextTaskDelaysMs w
                      ∧ subColumns s' !! "syncStatus" = Some (VStr "COMPLETE")
                      ∧ subColumns s' !! "backfillSince" = Some (getBackfillSince data)
                  end
                else nextTaskDelaysMs out.2 = nextTaskDelaysMs w ++ [0]
    end.
Proof.
  intros out. subst out. rewrite updateTaskStatusAndContinue_run. cbn [fst snd].
  split; [done|].
  destruct (findSubscriptionForMessage (db w) data) as [s|] eqn:Hfind;
    [|unfold afterUpdate; by rewrite Hfind].
  destruct (isCompleteResult p) eqn:Hp.
  - pose proof (completion_find data p t rid w s Hfind Hp) as Hfind'.
    pose proof (completion_rows data p t rid w s Hfind Hp) as Hrows.
    pose proof (completion_world data p t rid w s Hfind Hp) as Hw.
    set (s1 := (routeMerge s rid t (statusFields (db w) s data true t rid) w).1) in *.
    set (w1 := (routeMerge s rid t (statusFields (db w) s data true t rid) w).2) in *.
    assert (subId s1 = subId s) as Hid by apply routeMerge_id.
    assert (nextTaskDelaysMs w1 = nextTaskDelaysMs w) as Hd.
    { subst w1. unfold routeMerge. by destruct (decide _). }
    destruct (getNextTask (db w1) s1 (targetTasks data)) as [tk|] eqn:Hnext.
    + exists s1. split_and!; [done..|].
      assert (getNextTask (db (afterUpdate data p t rid w)) s1 (targetTasks data)
              = getNextTask (db w1) s1 (targetTasks data)) as ->
        by by apply getNextTask_ext.
      rewrite Hnext, Hw. cbn. by rewrite Hd.
    + exists (mergeSubscription (completeFields data) s1). split_and!; [done..|].
      assert (getNextTask (db (afterUpdate data p t rid w))
                (mergeSubscription (completeFields data) s1) (targetTasks data)
              = getNextTask (db w1) s1 (targetTasks data)) as ->.
      { apply getNextTask_ext; [done| | |done]; cbn;
          by rewrite lookup_merge, completeFields_lookup. }
      rewrite Hnext, Hw. cbn. split_and!; [done|..].
      * by rewrite lookup_merge, completeFields_syncStatus.
      * by rewrite lookup_merge, completeFields_backfillSince.
  - unfold afterUpdate. rewrite Hfind, Hp.
    set (sw1 := routeMerge s rid t (statusFields (db w) s data false t rid) w).
    assert (findSubscriptionForMessage (db sw1.2) data
            = Some (if decide (t = repository)
                    then mergeSubscription (statusFields (db w) s data false t rid) s
                    else s)) as H1 by by apply find_routeMerge.
    eexists. split; [|split].
    + cbn [pushDelay db]. apply (find_routeMerge _ _ _ _ _ _ _ H1).
      subst sw1. rewrite routeMerge_id. by destruct (decide _).
    + by destruct (decide (t = repository)).
    + cbn. subst sw1. unfold routeMerge. by destruct (decide (t = repository)).
Qed.

(** ** The ways an attempt ends *)

Lemma handleBackfillError_cases err data tk now w :
  (∃ rateLimitReset,
     err = RateLimitingError rateLimitReset
     ∧ handleBackfillError err data tk now w
       = (inr (), pushDelay (Z.max (rateLimitReset * 1000 - now) 0) w))
  ∨ (instanceofGithubClientError err = true
     ∧ instanceofRateLimitingError err = false
     ∧ handleBackfillError err data tk now w
       = (inr (), afterUpdate data noEdges (task tk) (repositoryId tk) w))
  ∨ (instanceofGithubClientError err = false
     ∧ handleBackfillError err data tk now w = (inl (TaskError tk err), w)).
Proof.
  destruct (instanceofGithubClientError err) eqn:Hgh.
  - destruct (instanceofRateLimitingError err) eqn:Hrl.
    + left. destruct err; try done. eexists. split; [done|].
      apply handleBackfillError_rate_limit_run.
    + right. left. split_and!; [done..|].
      rewrite handleBackfillError_github_client_error by done.
      apply updateTaskStatusAndContinue_run.
  - right. right. split; [done|]. by apply handleBackfillError_rethrow.
Qed.

Lemma doProcessInstallation_outcome data attempt now w :
  attemptOutcome data attempt now w (doProcessInstallation data attempt now w).
Proof.
  rewrite doProcessInstallation_run. unfold afterAttempt.
  destruct (findSubscriptionForMessage (db w) data) as [s|] eqn:Hfind;
    [|by apply NoSubscription].
  destruct (getNextTask (db w) s (targetTasks data)) as [tk|] eqn:Hnext;
    [|by apply NothingLeft].
  change (applySubscriptionUpdate s {[ "syncStatus" := VStr "ACTIVE" ]} w)
    with (active s w).
  remember (active s w) as wa eqn:Hwa.
  assert (∀ err, raisedBy attempt tk err →
            attemptOutcome data attempt now w
              (handleBackfillError err data tk now wa)) as Herr.
  { intros err Hraised.
    destruct (handleBackfillError_cases err data tk now wa)
      as [(reset & Herr & Hrun)|[(Hgh & Hrl & Hrun)|(Hgh & Hrun)]];
      rewrite Hrun, Hwa.
    - subst err. by apply RateLimited with (tk := tk).
    - apply Recorded; [done..|]. right. split; [done|]. by exists err.
    - by apply Raised. }
  destruct (processorResult (attempt tk)) as [err|p] eqn:Hproc.
  { apply Herr. by left. }
  destruct (jiraSubmitError (attempt tk)) as [err|] eqn:Hjira.
  - destruct (jiraPayload p) eqn:Hpay.
    + apply Herr. right. by exists p.
    + rewrite Hwa. apply Recorded; [done..|]. left. split; [done|]. by left.
  - rewrite Hwa. apply Recorded; [done..|]. left. split; [done|]. by right.
Qed.

Lemma active_rows s w : repoSyncStates (db (active s w)) = repoSyncStates (db w).
Proof. reflexivity. Qed.

Lemma active_find data s w :
  findSubscriptionForMessage (db w) data = Some s →
  findSubscriptionForMessage (db (active s w)) data
  = Some (mergeSubscription {[ "syncStatus" := VStr "ACTIVE" ]} s).
Proof. intros Hfind. by apply find_applySubscriptionUpdate. Qed.

Lemma afterUpdate_delays data p t rid w :
  nextTaskDelaysMs (afterUpdate data p t rid w) = nextTaskDelaysMs w
  ∨ nextTaskDelaysMs (afterUpdate data p t rid w) = nextTaskDelaysMs w ++ [0].
Proof.
  unfold afterUpdate.
  destruct (findSubscriptionForMessage (db w) data) as [s|]; [|by left].
  assert (∀ s0 v w0, nextTaskDelaysMs (routeMerge s0 rid t v w0).2 = nextTaskDelaysMs w0)
    as Hd.
  { intros s0 v w0. unfold routeMerge. by destruct (decide _). }
  destruct (isCompleteResult p).
  - destruct (getNextTask _ _ _); cbn; rewrite Hd; auto.
  - right. cbn. by rewrite !Hd.
Qed.

(** X5.  One attempt requests at most one follow-up, and never with a negative
    delay. *)
Theorem doProcessInstallation_one_follow_up (data : BackfillMessagePayload)
    (attempt : Task → Attempt) (now : Z) (w : World) :
  let w' := (doProcessInstallation data attempt now w).2 in
  nextTaskDelaysMs w' = nextTaskDelaysMs w
  ∨ ∃ delayMs, 0 ≤ delayMs ∧ nextTaskDelaysMs w' = nextTaskDelaysMs w ++ [delayMs].
Proof.
  intros w'. subst w'.
  destruct (doProcessInstallation_outcome data attempt now w)
    as [?|s ? ?|s tk reset ? ? ?|s tk p ? ? ?|s tk cause ? ? ? ?]; cbn [snd].
  - by left.
  - by left.
  - right. eexists. split; [|done]. lia.
  - destruct (afterUpdate_delays data p (task tk) (repositoryId tk) (active s w))
      as [->| ->]; [by left|]. right. exists 0. done.
  - by left.
Qed.

(** X6.  Whatever an attempt raises is a [TaskError] that names the selected
    task and wraps the error of the processor or of the Jira submission, which
    is no [GithubClientError].  Nothing of the attempt is recorded then: the
    rows are as before, no follow-up was requested, and the Subscription is
    left [ACTIVE]. *)
Theorem doProcessInstallation_raises (data : BackfillMessagePayload)
    (attempt : Task → Attempt) (now : Z) (w : World) (e : Error) :
  (doProcessInstallation data attempt now w).1 = inl e →
  let w' := (doProcessInstallation data attempt now w).2 in
  ∃ s tk cause,
    findSubscriptionForMessage (db w) data = Some s
    ∧ getNextTask (db w) s (targetTasks data) = Some tk
    ∧ e = TaskError tk cause
    ∧ raisedBy attempt tk cause
    ∧ instanceofGithubClientError cause = false
    ∧ repoSyncStates (db w') = repoSyncStates (db w)
    ∧ nextTaskDelaysMs w' = nextTaskDelaysMs w
    ∧ ∃ s', findSubscriptionForMessage (db w') data = Some s'
            ∧ subColumns s' !! "syncStatus" = Some (VStr "ACTIVE").
Proof.
  intros Hraise w'. subst w'.
  destruct (doProcessInstallation_outcome data attempt now w)
    as [?|s ? ?|s tk reset ? ? ?|s tk p ? ? ?|s tk cause Hfind Hnext Hby Hgh];
    cbn [fst snd] in *; try discriminate Hraise.
  injection Hraise as <-. exists s, tk, cause. split_and!; try done.
  eexists. split; [by apply active_find|]. cbn. by rewrite lookup_merge.
Qed.

Lemma doProcessInstallation_raises_witness :
  (doProcessInstallation Sample.data (failingJira (OtherError (Some 500))) 0
     Sample.world).1
  = inl (TaskError Sample.buildTask (OtherError (Some 500)))
  ∧ repoSyncStates
      (db (doProcessInstallation Sample.data (failingJira (OtherError (Some 500))) 0
             Sample.world).2)
    = repoSyncStates (db Sample.world).
Proof.
  assert ((doProcessInstallation Sample.data (failingJira (OtherError (Some 500))) 0
             Sample.world).1
          = inl (TaskError Sample.buildTask (OtherError (Some 500)))) as H
    by (vm_compute; reflexivity).
  split; [exact H|].
  destruct (doProcessInstallation_raises _ _ _ _ _ H)
    as (s & tk & cause & _ & _ & _ & _ & _ & Hrows & _).
  exact Hrows.
Defined.

(** ** The sync status an attempt leaves *)

Lemma routeMerge_other_column s rid t values w k :
  values !! k = None →
  subColumns (routeMerge s rid t values w).1 !! k = subColumns s !! k.
Proof.
  intros Hk. unfold routeMerge. destruct (decide (t = repository)); [|done].
  cbn. by rewrite lookup_merge, Hk.
Qed.

Lemma statusFields_syncStatus d s data c t rid :
  statusFields d s data c t rid !! "syncStatus" = None.
Proof.
  destruct (statusFields d s data c t rid !! "syncStatus") as [v|] eqn:Hv; [|done].
  apply statusFields_keys in Hv as [Hk|[Hk _]]; [|done].
  by destruct t.
Qed.

Lemma app_singleton_neq {A} (l : list A) x : l ++ [x] ≠ l.
Proof.
  intros H. apply (f_equal length) in H. rewrite length_app in H. cbn in H. lia.
Qed.

Lemma afterUpdate_outcome data p t rid w s :
  findSubscriptionForMessage (db w) data = Some s →
  let w' := afterUpdate data p t rid w in
  ∃ s', findSubscriptionForMessage (db w') data = Some s'
        ∧ subId s' = subId s
        ∧ ((nextTaskDelaysMs w' = nextTaskDelaysMs w
            ∧ isCompleteResult p = true
            ∧ subColumns s' !! "syncStatus" = Some (VStr "COMPLETE")
            ∧ subColumns s' !! "backfillSince" = Some (getBackfillSince data)
            ∧ getNextTask (db w') s' (targetTasks data) = None)
           ∨ (nextTaskDelaysMs w' = nextTaskDelaysMs w ++ [0]
              ∧ subColumns s' !! "syncStatus" = subColumns s !! "syncStatus")).
Proof.
  intros Hfind w'. subst w'.
  destruct (isCompleteResult p) eqn:Hp.
  - pose proof (completion_find data p t rid w s Hfind Hp) as Hfind'.
    pose proof (completion_rows data p t rid w s Hfind Hp) as Hrows.
    pose proof (completion_world data p t rid w s Hfind Hp) as Hw.
    assert (subColumns (routeMerge s rid t (statusFields (db w) s data true t rid) w).1
              !! "syncStatus" = subColumns s !! "syncStatus") as Hsync
      by apply routeMerge_other_column, statusFields_syncStatus.
    set (s1 := (routeMerge s rid t (statusFields (db w) s data true t rid) w).1) in *.
    set (w1 := (routeMerge s rid t (statusFields (db w) s data true t rid) w).2) in *.
    assert (subId s1 = subId s) as Hid by apply routeMerge_id.
    assert (nextTaskDelaysMs w1 = nextTaskDelaysMs w) as Hd.
    { subst w1. unfold routeMerge. by destruct (decide _). }
    destruct (getNextTask (db w1) s1 (targetTasks data)) as [tk|] eqn:Hnext.
    + exists s1. split_and!; [done..|]. right. rewrite Hw. cbn. by rewrite Hd.
    + exists (mergeSubscription (completeFields data) s1). split_and!; [done..|].
      left. split_and!; [by rewrite Hw|done|..].
      * cbn. by rewrite lookup_merge, completeFields_syncStatus.
      * cbn. by rewrite lookup_merge, completeFields_backfillSince.
      * rewrite <- Hnext. apply getNextTask_ext; [done| | |done]; cbn;
          by rewrite lookup_merge, completeFields_lookup.
  - unfold afterUpdate. rewrite Hfind, Hp.
    set (sw1 := routeMerge s rid t (statusFields (db w) s data false t rid) w).
    assert (findSubscriptionForMessage (db sw1.2) data
            = Some (if decide (t = repository)
                    then mergeSubscription (statusFields (db w) s data false t rid) s
                    else s)) as H1 by by apply find_routeMerge.
    eexists. split; [|split].
    + cbn [pushDelay db]. apply (find_routeMerge _ _ _ _ _ _ _ H1).
      subst sw1. rewrite routeMerge_id. by destruct (decide _).
    + by destruct (decide (t = repository)).
    + right. split.
      * cbn. subst sw1. unfold routeMerge. by destruct (decide (t = repository)).
      * destruct (decide (t = repository)) as [->|Hne]; [|done].
        cbn [subColumns mergeSubscription].
        rewrite !lookup_merge, statusFields_syncStatus.
        by rewrite lookup_singleton_ne.
Qed.

(** X7.  When an attempt finds the Subscription, a fresh lookup afterwards
    finds it again, and its sync status tells how the attempt ended:
    [COMPLETE], with [backfillSince] set from the message and nothing left for
    the selector, exactly when the attempt returned without requesting a
    follow-up; [ACTIVE] in every other case. *)
Theorem doProcessInstallation_sync_status (data : BackfillMessagePayload)
    (attempt : Task → Attempt) (now : Z) (w : World) (s : Subscription) :
  findSubscriptionForMessage (db w) data = Some s →
  let out := doProcessInstallation data attempt now w in
  ∃ s', findSubscriptionForMessage (db out.2) data = Some s'
        ∧ subId s' = subId s
        ∧ (quiet w out →
             subColumns s' !! "syncStatus" = Some (VStr "COMPLETE")
             ∧ subColumns s' !! "backfillSince" = Some (getBackfillSince data)
             ∧ getNextTask (db out.2) s' (targetTasks data) = None)
        ∧ (¬ quiet w out → subColumns s' !! "syncStatus" = Some (VStr "ACTIVE")).
Proof.
  intros Hfind out. subst out. unfold quiet.
  destruct (doProcessInstallation_outcome data attempt now w)
    as [Hnone|s0 Hs Hnext|s0 tk reset Hs Hnext Hby|s0 tk p Hs Hnext Hby
        |s0 tk cause Hs Hnext Hby Hgh]; cbn [fst snd].
  - congruence.
  - assert (s0 = s) as -> by congruence.
    exists (mergeSubscription (completeFields data) s). split_and!.
    + by apply find_applySubscriptionUpdate.
    + done.
    + intros _. split_and!.
      * cbn. by rewrite lookup_merge, completeFields_syncStatus.
      * cbn. by rewrite lookup_merge, completeFields_backfillSince.
      * rewrite <- Hnext. apply getNextTask_ext; [done| | |done]; cbn;
          by rewrite lookup_merge, completeFields_lookup.
    + intros []. done.
  - assert (s0 = s) as -> by congruence.
    eexists. split_and!; [by apply active_find|done|..].
    + intros [_ Hd]. cbn in Hd. by apply app_singleton_neq in Hd.
    + intros _. cbn. by rewrite lookup_merge.
  - assert (s0 = s) as -> by congruence.
    destruct (afterUpdate_outcome data p (task tk) (repositoryId tk) (active s w) _
                (active_find data s w Hfind))
      as (s' & Hfind' & Hid & [(Hd & _ & Hsync & Hsince & Hleft)|[Hd Hsync]]).
    + exists s'. split_and!; [done..| |].
      * done.
      * intros []. done.
    + exists s'. split_and!; [done..| |].
      * intros [_ Hq]. rewrite Hd in Hq. by apply app_singleton_neq in Hq.
      * intros _. rewrite Hsync. cbn. by rewrite lookup_merge.
  - assert (s0 = s) as -> by congruence.
    eexists. split_and!; [by apply active_find|done|..].
    + intros [? _]. done.
    + intros _. cbn. by rewrite lookup_merge.
Qed.

Lemma doProcessInstallation_sync_status_witness :
  findSubscriptionForMessage (db Sample.lastCategory) Sample.data
  = Some Sample.subscription
  ∧ ∃ s', findSubscriptionForMessage
            (db (doProcessInstallation Sample.data Sample.idle 0
                   Sample.lastCategory).2) Sample.data = Some s'
          ∧ subId s' = 10.
Proof.
  assert (findSubscriptionForMessage (db Sample.lastCategory) Sample.data
          = Some Sample.subscription) as H by reflexivity.
  split; [exact H|].
  destruct (doProcessInstallation_sync_status Sample.data Sample.idle 0
              Sample.lastCategory Sample.subscription H) as (s' & Hs' & Hid & _).
  exists s'. split; [exact Hs'|exact Hid].
Defined.

(** ** Outstanding work never grows *)

Lemma Forall2_diag_refl {A} (R : A → A → Prop) (l : list A) :
  (∀ x, R x x) → Forall2 R l l.
Proof. intros HR. induction l; constructor; auto. Qed.



Lemma length_filter_mono {A} (P Q : A → Prop) `{∀ x, Decision (P x)}
    `{∀ x, Decision (Q x)} (l : list A) :
  (∀ x, x ∈ l → P x → Q x) →
  (length (filter P l) ≤ length (filter Q l))%nat.
Proof.
  induction l as [|x l IH]; intros HPQ; [done|].
  assert (length (filter P l) ≤ length (filter Q l))%nat as Hl.
  { apply IH. intros y Hy. apply HPQ. by right. }
  rewrite !filter_cons. destruct (decide (P x)) as [HP|HP].
  - rewrite decide_True by (apply HPQ; [left|done]). cbn. lia.
  - destruct (decide (Q x)); cbn; lia.
Qed.

Lemma length_filter_strict {A} (P Q : A → Prop) `{∀ x, Decision (P x)}
    `{∀ x, Decision (Q x)} (l : list A) x :
  (∀ x, x ∈ l → P x → Q x) → x ∈ l → Q x → ¬ P x →
  (length (filter P l) < length (filter Q l))%nat.
Proof.
  induction l as [|y l IH]; intros HPQ Hx HQ HP; [by apply elem_of_nil in Hx|].
  assert (∀ z, z ∈ l → P z → Q z) as HPQ' by (intros z Hz; apply HPQ; by right).
  pose proof (length_filter_mono P Q l HPQ') as Hl.
  rewrite !filter_cons. apply elem_of_cons in Hx as [<-|Hx].
  - rewrite decide_False, decide_True by done. cbn. lia.
  - specialize (IH HPQ' Hx HQ HP). destruct (decide (P y)) as [HPy|HPy].
    + rewrite decide_True by (apply HPQ; [left|done]). cbn. lia.
    + destruct (decide (Q y)); cbn; lia.
Qed.

Lemma notReopened_refl r : notReopened r r.
Proof. by split_and!. Qed.






Lemma outstandingIn_notReopened tasks r r' :
  notReopened r r' → (outstandingIn tasks r' ≤ outstandingIn tasks r)%nat.
Proof.
  intros (_ & _ & _ & Hout). unfold outstandingIn.
  apply length_filter_mono. intros t _. apply Hout.
Qed.

Lemma pendingCount_notReopened d d' s targets :
  Forall2 notReopened (repoSyncStates d) (repoSyncStates d') →
  (pendingCount d' s targets ≤ pendingCount d s targets)%nat.
Proof.
  unfold pendingCount. generalize (repoSyncStates d), (repoSyncStates d').
  induction 1 as [|r r' l l' Hr _ IH]; [done|].
  pose proof (outstandingIn_notReopened (getTargetTasks targets) r r' Hr) as Hle.
  destruct Hr as (_ & Hsid & _ & _).
  rewrite !filter_cons, Hsid.
  destruct (decide (subscriptionId r = subId s)); cbn [sum_list_with]; lia.
Qed.

Lemma pendingCount_strict d d' s targets i r r' t :
  Forall2 notReopened (repoSyncStates d) (repoSyncStates d') →
  repoSyncStates d !! i = Some r → repoSyncStates d' !! i = Some r' →
  subscriptionId r = subId s → t ∈ getTargetTasks targets →
  isOutstanding r t = true → isOutstanding r' t = false →
  (pendingCount d' s targets < pendingCount d s targets)%nat.
Proof.
  unfold pendingCount. generalize (repoSyncStates d), (repoSyncStates d').
  intros l l' Hall. revert i.
  induction Hall as [|x x' l l' Hx Hall IH]; intros i Hi Hi' Hs Ht Hout Hout';
    [done|].
  pose proof (outstandingIn_notReopened (getTargetTasks targets) x x' Hx) as Hle.
  assert (subscriptionId x' = subscriptionId x) as Hsid by apply Hx.
  rewrite !filter_cons, Hsid. destruct i as [|i].
  - injection Hi as ->. injection Hi' as ->.
    destruct (decide (subscriptionId r = subId s)); [|done]. cbn [sum_list_with].
    pose proof (pendingCount_notReopened
                  {| subscriptions := []; repoSyncStates := l |}
                  {| subscriptions := []; repoSyncStates := l' |} s targets Hall)
      as Hrest.
    unfold pendingCount in Hrest. cbn [repoSyncStates] in Hrest.
    assert (outstandingIn (getTargetTasks targets) r'
            < outstandingIn (getTargetTasks targets) r)%nat.
    { unfold outstandingIn. apply length_filter_strict with (x := t).
      - intros t' _. apply Hx.
      - done.
      - done.
      - by rewrite Hout'. }
    lia.
  - specialize (IH i Hi Hi' Hs Ht Hout Hout').
    destruct (decide (subscriptionId x = subId s)); cbn [sum_list_with]; lia.
Qed.

Lemma mergeRepoSyncStates_notReopened s rid values rows t :
  (∀ t', t' ≠ t → values !! getStatusKey t' = None) →
  (∀ r, r ∈ rows → ownsRepo s rid r = true →
        isOutstanding (mergeRepoSyncState values r) t = true →
        isOutstanding r t = true) →
  Forall2 notReopened rows (mergeRepoSyncStates s rid values rows).
Proof.
  intros Hother Hsame. unfold mergeRepoSyncStates.
  apply Forall2_fmap_r, Forall_Forall2_diag, Forall_forall. intros r Hr.
  unfold compose. destruct (ownsRepo s rid r) eqn:Howns; [|apply notReopened_refl].
  split_and!; [done..|]. intros t' Hout.
  destruct (decide (t' = t)) as [->|Hne]; [by apply Hsame|].
  rewrite <- Hout. symmetry. apply isOutstanding_ext.
  cbn. by rewrite lookup_merge, Hother.
Qed.

Lemma selected_row_unique d s targets tk r :
  uniqueRepos d → getNextTask d s targets = Some tk → task tk ≠ repository →
  r ∈ repoSyncStates d → ownsRepo s (repositoryId tk) r = true →
  isOutstanding r (task tk) = true.
Proof.
  intros Hu Hnext Hne Hr Howns.
  apply getNextTask_Some in Hnext
    as [[_ ->]|(_ & _ & _ & r0 & Hr0 & Hs0 & Hrid0 & Hout)]; [done|].
  apply bool_decide_eq_true_1 in Howns as [Hs Hrid].
  assert (r = r0) as ->; [|done].
  apply (NoDup_fmap_eq (λ r, (subscriptionId r, repoId r)) (repoSyncStates d));
    [done..|]. cbn. congruence.
Qed.

Lemma afterUpdate_notReopened data p tk w s :
  uniqueRepos (db w) →
  findSubscriptionForMessage (db w) data = Some s →
  getNextTask (db w) s (targetTasks data) = Some tk →
  Forall2 notReopened (repoSyncStates (db w))
    (repoSyncStates (db (afterUpdate data p (task tk) (repositoryId tk) w))).
Proof.
  intros Hu Hfind Hnext. rewrite (afterUpdate_repoSyncStates _ _ _ _ _ _ Hfind).
  destruct (decide (task tk = repository)) as [Heq|Hne].
  - apply Forall2_diag_refl, notReopened_refl.
  - apply mergeRepoSyncStates_notReopened with (t := task tk).
    + intros t' Ht'. by apply mergedFields_other_status.
    + intros r Hr Howns _. by eapply selected_row_unique.
Qed.

Lemma afterUpdate_uniqueRepos data p t rid w :
  uniqueRepos (db w) → uniqueRepos (db (afterUpdate data p t rid w)).
Proof.
  intros Hu.
  destruct (findSubscriptionForMessage (db w) data) as [s|] eqn:Hfind;
    [|unfold afterUpdate; by rewrite Hfind].
  pose proof (afterUpdate_repoSyncStates data p t rid w s Hfind) as Hrows.
  destruct (decide (t = repository)).
  - unfold uniqueRepos. by rewrite Hrows.
  - by eapply uniqueRepos_merge.
Qed.

Lemma active_getNextTask s w targets :
  getNextTask (db (active s w))
    (mergeSubscription {[ "syncStatus" := VStr "ACTIVE" ]} s) targets
  = getNextTask (db w) s targets.
Proof.
  apply getNextTask_ext; [done| | |done]; cbn;
    by rewrite lookup_merge, lookup_singleton_ne.
Qed.




Lemma afterFailed_rows data nextTask w :
  repoSyncStates (db (afterFailed data nextTask w)) = repoSyncStates (db w)
  ∨ ∃ s, findSubscriptionForMessage (db w) data = Some s
         ∧ task nextTask ≠ repository
         ∧ repoSyncStates (db (afterFailed data nextTask w))
           = mergeRepoSyncStates s (repositoryId nextTask)
               (failedFields (task nextTask)) (repoSyncStates (db w)).
Proof.
  unfold afterFailed.
  destruct (findSubscriptionForMessage (db w) data) as [s|]; [|by left].
  destruct (decide (task nextTask = repository)); [by left|].
  right. by exists s.
Qed.

Lemma failedFields_settles t r :
  isOutstanding (mergeRepoSyncState (failedFields t) r) t = false.
Proof.
  apply isOutstanding_status with (st := "failed"); [|done..].
  cbn. rewrite lookup_merge. unfold failedFields. by rewrite lookup_singleton_eq.
Qed.

Lemma afterFailed_notReopened data nextTask w :
  Forall2 notReopened (repoSyncStates (db w))
    (repoSyncStates (db (afterFailed data nextTask w))).
Proof.
  destruct (afterFailed_rows data nextTask w) as [->|(s & _ & _ & ->)].
  - apply Forall2_diag_refl, notReopened_refl.
  - apply mergeRepoSyncStates_notReopened with (t := task nextTask).
    + intros t' Ht'. unfold failedFields. apply lookup_singleton_ne.
      intros Heq. by apply getStatusKey_inj in Heq.
    + intros r _ _. by rewrite failedFields_settles.
Qed.





(** ** Attempts and give-ups that settle a category *)

Lemma raisedBy_inj attempt tk e1 e2 :
  raisedBy attempt tk e1 → raisedBy attempt tk e2 → e1 = e2.
Proof.
  intros [H1|(p1 & H1 & _ & J1)] [H2|(p2 & H2 & _ & J2)]; congruence.
Qed.

Lemma deliveredBy_inj attempt tk p1 p2 :
  deliveredBy attempt tk p1 → deliveredBy attempt tk p2 → p1 = p2.
Proof. intros [H1 _] [H2 _]. congruence. Qed.

Lemma deliveredBy_raisedBy attempt tk p e :
  deliveredBy attempt tk p → raisedBy attempt tk e → False.
Proof.
  intros [Hp Hok] [He|(p' & Hp' & Hpay & He)]; [congruence|].
  assert (p' = p) as -> by congruence.
  destruct Hok; congruence.
Qed.

Lemma mergedFields_complete d s data p t rid :
  isCompleteResult p = true →
  mergedFields d s data p t rid !! getStatusKey t = Some (VStr "complete").
Proof.
  intros Hp. unfold mergedFields. rewrite Hp, lookup_merge, lookup_empty.
  apply statusFields_status.
Qed.

(** The attempts that end in the progress update with a result without
    edges. *)
Lemma attempt_ends_category data attempt now w s tk :
  findSubscriptionForMessage (db w) data = Some s →
  getNextTask (db w) s (targetTasks data) = Some tk →
  endsCategory attempt tk →
  ∃ p, isCompleteResult p = true
       ∧ doProcessInstallation data attempt now w
         = (inr (), afterUpdate data p (task tk) (repositoryId tk) (active s w)).
Proof.
  intros Hfind Hnext Hends.
  destruct (doProcessInstallation_outcome data attempt now w)
    as [Hnone|s0 Hs Hnone|s0 tk0 reset Hs Hn Hby|s0 tk0 p Hs Hn Hby
        |s0 tk0 cause Hs Hn Hby Hgh].
  - congruence.
  - congruence.
  - exfalso. assert (tk0 = tk) as -> by congruence.
    destruct Hends as [(p & Hp & _)|(err & Herr & _ & Hrl)].
    + by eapply deliveredBy_raisedBy.
    + by rewrite (raisedBy_inj _ _ _ _ Herr Hby) in Hrl.
  - assert (s0 = s) as -> by congruence. assert (tk0 = tk) as -> by congruence.
    exists p. split; [|done].
    destruct Hby as [Hdel|[-> _]]; [|done].
    destruct Hends as [(p' & Hp' & Hc)|(err & Herr & _)].
    + by rewrite (deliveredBy_inj _ _ _ _ Hdel Hp').
    + exfalso. by eapply deliveredBy_raisedBy.
  - exfalso. assert (tk0 = tk) as -> by congruence.
    destruct Hends as [(p & Hp & _)|(err & Herr & Hgh' & _)].
    + by eapply deliveredBy_raisedBy.
    + by rewrite (raisedBy_inj _ _ _ _ Herr Hby), Hgh in Hgh'.
Qed.

Lemma afterUpdate_settles data p tk w s :
  uniqueRepos (db w) →
  findSubscriptionForMessage (db w) data = Some s →
  getNextTask (db w) s (targetTasks data) = Some tk →
  task tk ≠ repository →
  isCompleteResult p = true →
  let w' := afterUpdate data p (task tk) (repositoryId tk) w in
  (pendingCount (db w') s (targetTasks data)
   < pendingCount (db w) s (targetTasks data))%nat
  ∧ ∀ r, r ∈ repoSyncStates (db w') → subscriptionId r = subId s →
         repoId r = repositoryId tk →
         rssColumns r !! getStatusKey (task tk) = Some (VStr "complete").
Proof.
  intros Hu Hfind Hnext Hne Hp w'. subst w'.
  pose proof (afterUpdate_notReopened data p tk w s Hu Hfind Hnext) as Hall.
  pose proof (afterUpdate_repoSyncStates data p (task tk) (repositoryId tk)
                w s Hfind) as Hrows.
  rewrite decide_False in Hrows by done.
  split.
  - apply getNextTask_Some in Hnext
      as [[_ ->]|(_ & _ & Hin & r0 & Hr0 & Hs0 & Hrid0 & Hout)]; [done|].
    apply list_elem_of_lookup in Hr0 as [i Hi].
    assert (ownsRepo s (repositoryId tk) r0 = true) as Howns
      by by apply bool_decide_eq_true_2.
    eapply (pendingCount_strict (db w) _ s (targetTasks data) i r0 _ (task tk));
      [exact Hall|exact Hi| |done..|].
    + rewrite Hrows. unfold mergeRepoSyncStates.
      rewrite list_lookup_fmap, Hi. cbn. by rewrite Howns.
    + apply isOutstanding_status with (st := "complete"); [|done..].
      cbn. rewrite lookup_merge. by rewrite mergedFields_complete.
  - intros r Hr Hsid Hrid.
    apply (completion_status_category data p (task tk) (repositoryId tk)
             w s Hfind Hp r Hne Hr).
    by apply bool_decide_eq_true_2.
Qed.

(** X9.  An attempt whose selected task is a category, and whose collaborators
    deliver an empty page or fail with an error of the [GithubClientError]
    hierarchy other than a rate limit, marks that category [complete] on the
    rows of the repository and, with one row per repository, strictly lowers
    the outstanding work of the Subscription. *)
Theorem doProcessInstallation_settles (data : BackfillMessagePayload)
    (attempt : Task → Attempt) (now : Z) (w : World) (s : Subscription) (tk : Task) :
  uniqueRepos (db w) →
  findSubscriptionForMessage (db w) data = Some s →
  getNextTask (db w) s (targetTasks data) = Some tk →
  task tk ≠ repository →
  endsCategory attempt tk →
  let out := doProcessInstallation data attempt now w in
  out.1 = inr ()
  ∧ (pendingCount (db out.2) s (targetTasks data)
     < pendingCount (db w) s (targetTasks data))%nat
  ∧ ∀ r, r ∈ repoSyncStates (db out.2) → subscriptionId r = subId s →
         repoId r = repositoryId tk →
         rssColumns r !! getStatusKey (task tk) = Some (VStr "complete").
Proof.
  intros Hu Hfind Hnext Hne Hends out. subst out.
  destruct (attempt_ends_category data attempt now w s tk Hfind Hnext Hends)
    as (p & Hp & ->). cbn [fst snd]. split; [done|].
  apply (afterUpdate_settles data p tk (active s w)
           (mergeSubscription {[ "syncStatus" := VStr "ACTIVE" ]} s));
    [exact Hu|by apply active_find|by rewrite active_getNextTask|done..].
Qed.

Lemma doProcessInstallation_settles_witness :
  uniqueRepos (db Sample.lastCategory)
  ∧ (pendingCount (db (doProcessInstallation Sample.data Sample.idle 0
                         Sample.lastCategory).2) Sample.subscription None
     < pendingCount (db Sample.lastCategory) Sample.subscription None)%nat.
Proof.
  assert (uniqueRepos (db Sample.lastCategory)) as Hu.
  { unfold uniqueRepos. apply NoDup_ListNoDup. cbn.
    repeat constructor; cbn; intuition congruence. }
  assert (findSubscriptionForMessage (db Sample.lastCategory) Sample.data
          = Some Sample.subscription) as Hfind by reflexivity.
  assert (getNextTask (db Sample.lastCategory) Sample.subscription
            (targetTasks Sample.data) = Some Sample.deploymentTask) as Hnext
    by (vm_compute; reflexivity).
  assert (task Sample.deploymentTask ≠ repository) as Hne by discriminate.
  assert (endsCategory Sample.idle Sample.deploymentTask) as Hends.
  { left. exists noEdges. split; [|reflexivity]. split; [reflexivity|by left]. }
  split; [exact Hu|].
  exact (proj1 (proj2 (doProcessInstallation_settles Sample.data Sample.idle 0
                         Sample.lastCategory Sample.subscription
                         Sample.deploymentTask Hu Hfind Hnext Hne Hends))).
Defined.

(** X10.  Giving up a category that is outstanding on a row of the
    Subscription strictly lowers its outstanding work, whatever rows share the
    repository. *)
Theorem markCurrentTaskAsFailedAndContinue_settles (data : BackfillMessagePayload)
    (nextTask : Task) (w : World) (s : Subscription) (r : RepoSyncState)
    (targets : option (list TaskType)) :
  findSubscriptionForMessage (db w) data = Some s →
  task nextTask ≠ repository →
  task nextTask ∈ getTargetTasks targets →
  r ∈ repoSyncStates (db w) →
  subscriptionId r = subId s → repoId r = repositoryId nextTask →
  isOutstanding r (task nextTask) = true →
  let w' := (markCurrentTaskAsFailedAndContinue data nextTask w).2 in
  (pendingCount (db w') s targets < pendingCount (db w) s targets)%nat.
Proof.
  intros Hfind Hne Hin Hr Hsid Hrid Hout w'. subst w'.
  rewrite markCurrentTaskAsFailedAndContinue_run. cbn [snd].
  pose proof (afterFailed_notReopened data nextTask w) as Hall.
  assert (ownsRepo s (repositoryId nextTask) r = true) as Howns
    by by apply bool_decide_eq_true_2.
  destruct (afterFailed_rows data nextTask w) as [Hrows|(s0 & Hs0 & _ & Hrows)].
  { exfalso. revert Hrows. unfold afterFailed.
    rewrite Hfind, decide_False by done. cbn. intros Hrows.
    apply list_elem_of_lookup in Hr as [i Hi].
    apply (f_equal (λ l, l !! i)) in Hrows. revert Hrows.
    unfold mergeRepoSyncStates. rewrite list_lookup_fmap, Hi. cbn.
    rewrite Howns. intros [= Hrow]. pose proof (failedFields_settles (task nextTask) r) as Hset.
    rewrite Hrow in Hset. congruence. }
  assert (s0 = s) as -> by congruence.
  apply list_elem_of_lookup in Hr as [i Hi].
  eapply (pendingCount_strict (db w) _ s targets i r _ (task nextTask));
    [exact Hall|exact Hi| |done..|].
  - rewrite Hrows. unfold mergeRepoSyncStates. rewrite list_lookup_fmap, Hi. cbn.
    by rewrite Howns.
  - apply failedFields_settles.
Qed.

Lemma markCurrentTaskAsFailedAndContinue_settles_witness :
  isOutstanding (Sample.row 1 8 (Some 50) ∅) pull = true
  ∧ (pendingCount
       (db (markCurrentTaskAsFailedAndContinue Sample.data samplePullTask
              Sample.world).2) Sample.subscription None
     < pendingCount (db Sample.world) Sample.subscription None)%nat.
Proof.
  assert (isOutstanding (Sample.row 1 8 (Some 50) ∅) pull = true) as Hout
    by reflexivity.
  split; [exact Hout|].
  apply (markCurrentTaskAsFailedAndContinue_settles Sample.data samplePullTask
           Sample.world Sample.subscription (Sample.row 1 8 (Some 50) ∅) None).
  - reflexivity.
  - discriminate.
  - cbn. set_solver.
  - cbn. set_solver.
  - reflexivity.
  - reflexivity.
  - exact Hout.
Defined.

(** ** The copy kept by [TaskError] *)


(** ** Routing of the fields in [updateRepo] *)

(** X12.  [updateRepo] never raises and requests no follow-up.  It splits the
    fields in two parts that are disjoint and together are all of them: the
    discovery fields go to the Subscription in one merge, the others to the
    rows of the repository in one merge, in this order, and an empty part
    issues no merge.  The instance returned carries the discovery fields. *)
Theorem updateRepo_routes (s : Subscription) (rid : Z) (values : Fields) (w : World) :
  let forSubscription := pick values subscriptionKeys in
  let forRows := omit values subscriptionKeys in
  let out := updateRepo s rid values w in
  forSubscription ∪ forRows = values
  ∧ forSubscription ##ₘ forRows
  ∧ (∀ k, is_Some (forSubscription !! k) → k ∈ subscriptionKeys)
  ∧ (∀ k, is_Some (forRows !! k) → k ∉ subscriptionKeys)
  ∧ out.1 = inr (if hasKeys forSubscription
                 then mergeSubscription forSubscription s else s)
  ∧ writes out.2
    = writes w
      ++ (if hasKeys forSubscription
          then [SubscriptionUpdate (subId s) forSubscription] else [])
      ++ (if hasKeys forRows
          then [RepoSyncStateUpdate (subId s) rid forRows] else [])
  ∧ nextTaskDelaysMs out.2 = nextTaskDelaysMs w.
Proof.
  intros forSubscription forRows out. subst out forSubscription forRows.
  split_and!.
  - unfold pick, omit. apply map_filter_union_complement.
  - unfold pick, omit. apply map_disjoint_filter_complement.
  - intros k [v Hv]. unfold pick in Hv.
    by apply map_lookup_filter_Some in Hv as [_ Hin].
  - intros k [v Hv]. unfold omit in Hv.
    by apply map_lookup_filter_Some in Hv as [_ Hin].
  - unfold updateRepo. fold subscriptionKeys.
    by destruct (hasKeys (pick values subscriptionKeys)),
         (hasKeys (omit values subscriptionKeys)).
  - unfold updateRepo. fold subscriptionKeys.
    destruct (hasKeys (pick values subscriptionKeys)),
      (hasKeys (omit values subscriptionKeys));
      unfold mbind, M_bind, mret, M_ret;
      rewrite ?subscriptionUpdate_run, ?updateRepoFromSubscription_run;
      cbn [snd writes applySubscriptionUpdate applyRepoUpdate];
      by rewrite <- ?app_assoc, ?app_nil_r.
  - unfold updateRepo. fold subscriptionKeys.
    by destruct (hasKeys (pick values subscriptionKeys)),
         (hasKeys (omit values subscriptionKeys)).
Qed.

(** ** What [handleBackfillError] raises *)

(** X13.  [handleBackfillError] returns for every error of the
    [GithubClientError] hierarchy.  For any other error it changes nothing and
    raises a [TaskError] that carries the task and that error as its cause. *)
Theorem handleBackfillError_raises (err : Error) (data : BackfillMessagePayload)
    (nextTask : Task) (now : Z) (w : World) :
  if instanceofGithubClientError err
  then (handleBackfillError err data nextTask now w).1 = inr ()
  else handleBackfillError err data nextTask now w = (inl (TaskError nextTask err), w).
Proof.
  destruct (handleBackfillError_cases err data nextTask now w)
    as [(reset & -> & ->)|[(-> & _ & ->)|(-> & ->)]]; done.
Qed.

(** ** One run of the job and the message it sends *)

Lemma maybeScheduleNextTask_single jobData delayMs :
  maybeScheduleNextTask jobData [delayMs] = ([(jobData, ceilDiv delayMs 1000)], []).
Proof. reflexivity. Qed.

(** X14.  When [processInstallation] runs the job, at most one message is
    sent.  None is sent when the attempt requested no follow-up.  Otherwise
    the one request of the attempt is sent, rounded up to seconds, and it is
    not negative.  After a rate limit the delay of the message reaches the
    reset time of the limit. *)
Theorem processInstallation_sends_at_most_one (data : BackfillMessagePayload)
    (attempt : Task → Attempt) (now : Z) (w : World) :
  let out := doProcessInstallation data attempt now (freshDelays w) in
  let sent := sentAfterAttempt data attempt now w in
  ((nextTaskDelaysMs out.2 = [] ∧ sent = [])
   ∨ ∃ delayMs, 0 ≤ delayMs ∧ nextTaskDelaysMs out.2 = [delayMs]
                ∧ sent = [(data, ceilDiv delayMs 1000)])
  ∧ ∀ s tk rateLimitReset,
      findSubscriptionForMessage (db w) data = Some s →
      getNextTask (db w) s (targetTasks data) = Some tk →
      raisedBy attempt tk (RateLimitingError rateLimitReset) →
      ∃ delaySec, sent = [(data, delaySec)] ∧ 0 ≤ delaySec
                  ∧ rateLimitReset * 1000 - now ≤ 1000 * delaySec.
Proof.
  intros out sent. subst out sent. unfold sentAfterAttempt.
  destruct (doProcessInstallation_outcome data attempt now (freshDelays w))
    as [Hnone|s0 Hs Hnone|s0 tk0 reset Hs Hn Hby|s0 tk0 p Hs Hn Hby
        |s0 tk0 cause Hs Hn Hby Hgh]; cbn [fst snd]; cbn [db freshDelays] in *.
  - split; [by left|]. intros s tk reset Hfind. congruence.
  - split; [by left|]. intros s tk reset Hfind Hnext. congruence.
  - assert (0 ≤ Z.max (reset * 1000 - now) 0) as Hpos by lia.
    pose proof (ceilDiv_spec (Z.max (reset * 1000 - now) 0)) as Hceil.
    split.
    + right. eexists. split; [exact Hpos|]. by split.
    + intros s tk reset' Hfind Hnext Hby'.
      assert (s0 = s) as -> by congruence. assert (tk0 = tk) as -> by congruence.
      pose proof (raisedBy_inj _ _ _ _ Hby Hby') as [= ->].
      eexists. split; [reflexivity|]. lia.
  - split.
    + destruct (afterUpdate_delays data p (task tk0) (repositoryId tk0)
                  (active s0 (freshDelays w))) as [Hd|Hd]; rewrite Hd; cbn.
      * by left.
      * right. exists 0. by split_and!.
    + intros s tk reset Hfind Hnext Hby'. exfalso.
      assert (tk0 = tk) as -> by congruence.
      destruct Hby as [Hdel|(_ & err & Herr & _ & Hrl)].
      * by eapply deliveredBy_raisedBy.
      * by rewrite (raisedBy_inj _ _ _ _ Herr Hby') in Hrl.
  - split; [by left|].
    intros s tk reset Hfind Hnext Hby'. exfalso.
    assert (tk0 = tk) as -> by congruence.
    by rewrite (raisedBy_inj _ _ _ _ Hby Hby') in Hgh.
Qed.

(** ** Giving up the discovery step *)

(** X15.  Unlike a category, the discovery step is selected again after it was
    given up: its status [failed] is not [complete], so for every choice of
    target categories the selector returns the discovery task, with the cursor
    stored before. *)
Theorem failed_discovery_selected_again (data : BackfillMessagePayload)
    (nextTask : Task) (w : World) (s : Subscription) :
  findSubscriptionForMessage (db w) data = Some s →
  task nextTask = repository →
  let w' := (markCurrentTaskAsFailedAndContinue data nextTask w).2 in
  ∃ s', findSubscriptionForMessage (db w') data = Some s'
        ∧ subColumns s' !! "syncStatus" = Some (VStr "FAILED")
        ∧ ∀ targets, getNextTask (db w') s' targets = Some (discoveryTask s).
Proof.
  intros Hfind Hrepo w'. subst w'.
  rewrite markCurrentTaskAsFailedAndContinue_run. cbn [snd].
  unfold afterFailed. rewrite Hfind, decide_True by done.
  eexists. split_and!.
  - apply find_applySubscriptionUpdate; [|done].
    by apply find_applySubscriptionUpdate.
  - cbn. by rewrite lookup_merge.
  - intros targets. unfold getNextTask.
    rewrite bool_decide_eq_true_2.
    + f_equal. unfold discoveryTask. f_equal. cbn.
      by rewrite !lookup_merge.
    + cbn. rewrite !lookup_merge. done.
Qed.

Lemma failed_discovery_selected_again_witness :
  findSubscriptionForMessage (db Sample.world) Sample.data = Some Sample.subscription
  ∧ ∃ s', findSubscriptionForMessage
            (db (markCurrentTaskAsFailedAndContinue Sample.data
                   (discoveryTask Sample.subscription) Sample.world).2) Sample.data
          = Some s'
          ∧ getNextTask
              (db (markCurrentTaskAsFailedAndContinue Sample.data
                     (discoveryTask Sample.subscription) Sample.world).2) s' None
            = Some (discoveryTask Sample.subscription).
Proof.
  assert (findSubscriptionForMessage (db Sample.world) Sample.data
          = Some Sample.subscription) as H by reflexivity.
  split; [exact H|].
  destruct (failed_discovery_selected_again Sample.data
              (discoveryTask Sample.subscription) Sample.world Sample.subscription
              H eq_refl) as (s' & Hs' & _ & Hnext).
  exists s'. split; [exact Hs'|exact (Hnext None)].
Defined.

(** ** What an attempt and a give-up leave alone *)




(** X17.  Giving up a task changes nothing but the status of that task — in
    the rows of its repository for a category, in the Subscription of the
    message, together with its sync status, for the discovery step.  Cursors
    and commit floors stay as they were. *)
Theorem markCurrentTaskAsFailedAndContinue_frame (data : BackfillMessagePayload)
    (nextTask : Task) (w : World) (s : Subscription) :
  findSubscriptionForMessage (db w) data = Some s →
  let w' := (markCurrentTaskAsFailedAndContinue data nextTask w).2 in
  Forall2 (λ r r',
             if decide (subscriptionId r = subId s ∧ repoId r = repositoryId nextTask
                        ∧ task nextTask ≠ repository)
             then rowChangedWithin [getStatusKey (task nextTask)] r r'
             else r' = r)
          (repoSyncStates (db w)) (repoSyncStates (db w'))
  ∧ Forall2 (λ x x',
               if decide (subId x = subId s ∧ task nextTask = repository)
               then subscriptionChangedWithin ["repositoryStatus"; "syncStatus"] x x'
               else x' = x)
            (subscriptions (db w)) (subscriptions (db w')).
Proof.
  intros Hfind w'. subst w'.
  rewrite markCurrentTaskAsFailedAndContinue_run. cbn [snd].
  unfold afterFailed. rewrite Hfind.
  destruct (decide (task nextTask = repository)) as [Ht|Ht].
  - split.
    + cbn. apply Forall_Forall2_diag, Forall_forall. intros r _.
      rewrite decide_False by (intros (_ & _ & ?); done). done.
    + cbn [applySubscriptionUpdate db subscriptions]. unfold mergeSubscriptions.
      rewrite <- list_fmap_compose.
      apply Forall2_fmap_r, Forall_Forall2_diag, Forall_forall. intros x _.
      unfold compose. cbn [subId mergeSubscription].
      destruct (decide (subId x = subId s)) as [Hx|Hx].
      * rewrite decide_True by done. rewrite decide_True by done.
        unfold subscriptionChangedWithin. cbn. split_and!; try done.
        intros k Hk. rewrite !lookup_merge. unfold failedFields.
        rewrite !lookup_singleton_ne; [done|..]; intros <-; apply Hk.
        -- by left.
        -- right. by left.
      * destruct (decide (subId x = subId s ∧ task nextTask = repository))
          as [[? _]|_]; [done|].
        by destruct (decide (subId x = subId s)).
  - split.
    + cbn [pushDelay applyRepoUpdate db repoSyncStates]. unfold mergeRepoSyncStates.
      apply Forall2_fmap_r, Forall_Forall2_diag, Forall_forall. intros r _.
      unfold compose, ownsRepo.
      destruct (decide (subscriptionId r = subId s ∧ repoId r = repositoryId nextTask
                        ∧ task nextTask ≠ repository)) as [(Hs & Hr & _)|Hno].
      * rewrite bool_decide_eq_true_2 by done.
        unfold rowChangedWithin. cbn. split_and!; try done.
        intros k Hk. rewrite lookup_merge. unfold failedFields.
        rewrite lookup_singleton_ne; [done|]. intros <-. apply Hk. by left.
      * rewrite bool_decide_eq_false_2; [done|]. intros [? ?]. by apply Hno.
    + cbn. apply Forall_Forall2_diag, Forall_forall. intros x _.
      rewrite decide_False by (intros [_ ?]; done). done.
Qed.

Lemma markCurrentTaskAsFailedAndContinue_frame_witness :
  findSubscriptionForMessage (db Sample.world) Sample.data = Some Sample.subscription
  ∧ Forall2 (λ x x',
               if decide (subId x = subId Sample.subscription
                          ∧ task samplePullTask = repository)
               then subscriptionChangedWithin ["repositoryStatus"; "syncStatus"] x x'
               else x' = x)
      (subscriptions (db Sample.world))
      (subscriptions (db (markCurrentTaskAsFailedAndContinue Sample.data
                            samplePullTask Sample.world).2)).
Proof.
  assert (findSubscriptionForMessage (db Sample.world) Sample.data
          = Some Sample.subscription) as H by reflexivity.
  split; [exact H|].
  exact (proj2 (markCurrentTaskAsFailedAndContinue_frame Sample.data samplePullTask
                  Sample.world Sample.subscription H)).
Defined.

(** ** Draining a Subscription *)

Lemma sum_list_with_zero {A} (f : A → nat) (l : list A) :
  sum_list_with f l = 0%nat ↔ ∀ x, x ∈ l → f x = 0%nat.
Proof.
  induction l as [|y l IH]; cbn [sum_list_with].
  - split; [|done]. intros _ x Hx. by apply elem_of_nil in Hx.
  - split.
    + intros Hsum x [->|Hx]%elem_of_cons; [lia|]. apply IH; [lia|done].
    + intros Hall. rewrite (Hall y) by left.
      apply IH. intros x Hx. apply Hall. by right.
Qed.

Lemma outstandingIn_zero tasks r :
  outstandingIn tasks r = 0%nat ↔ ¬ hasOutstanding tasks r.
Proof.
  unfold outstandingIn, hasOutstanding. induction tasks as [|t tasks IH].
  - split; [|done]. intros _ (t & Ht & _). by apply elem_of_nil in Ht.
  - rewrite filter_cons. destruct (decide (isOutstanding r t = true)) as [Ht|Ht].
    + split; [done|]. intros Hno. exfalso. apply Hno. exists t. split; [left|done].
    + rewrite IH. split.
      * intros Hno (t' & [->|Hin]%elem_of_cons & Hout); [done|].
        apply Hno. by exists t'.
      * intros Hno (t' & Hin & Hout). apply Hno. exists t'. split; [by right|done].
Qed.

Lemma pendingCount_zero d s targets :
  pendingCount d s targets = 0%nat ↔
  ∀ r, r ∈ repoSyncStates d → subscriptionId r = subId s →
       ¬ hasOutstanding (getTargetTasks targets) r.
Proof.
  unfold pendingCount. rewrite sum_list_with_zero. split.
  - intros Hall r Hr Hs. apply outstandingIn_zero, Hall.
    by apply list_elem_of_filter.
  - intros Hall r [Hs Hr]%list_elem_of_filter. apply outstandingIn_zero. by apply Hall.
Qed.

Lemma pendingCount_subId d s s' targets :
  subId s' = subId s → pendingCount d s' targets = pendingCount d s targets.
Proof. intros Hid. unfold pendingCount. by rewrite Hid. Qed.

Lemma getNextTask_None_count d s targets :
  discoveryComplete s →
  getNextTask d s targets = None ↔ pendingCount d s targets = 0%nat.
Proof.
  intros Hdone. rewrite getNextTask_None, pendingCount_zero. naive_solver.
Qed.

(** With nothing outstanding the attempt completes the Subscription. *)
Lemma attempt_when_done data attempt now w s :
  backfilling data s w →
  pendingCount (db w) s (targetTasks data) = 0%nat →
  let w' := (doProcessInstallation data attempt now w).2 in
  backfilling data s w'
  ∧ pendingCount (db w') s (targetTasks data) = 0%nat
  ∧ backfilled data w'.
Proof.
  intros (Hu & s' & Hfind & Hid & Hdone) Hzero w'. subst w'.
  assert (getNextTask (db w) s' (targetTasks data) = None) as Hnone.
  { apply getNextTask_None_count; [done|]. by rewrite (pendingCount_subId _ s). }
  rewrite doProcessInstallation_run. unfold afterAttempt. rewrite Hfind, Hnone.
  cbn [snd].
  assert (findSubscriptionForMessage
            (db (applySubscriptionUpdate s' (completeFields data) w)) data
          = Some (mergeSubscription (completeFields data) s')) as Hfind'
    by by apply find_applySubscriptionUpdate.
  split_and!.
  - split; [exact Hu|]. eexists. split; [exact Hfind'|]. split; [done|].
    unfold discoveryComplete. cbn. by rewrite lookup_merge, completeFields_lookup.
  - exact Hzero.
  - eexists. split; [exact Hfind'|]. split_and!.
    + cbn. by rewrite lookup_merge, completeFields_syncStatus.
    + cbn. by rewrite lookup_merge, completeFields_backfillSince.
    + rewrite <- Hnone. apply getNextTask_ext; [done| | |done]; cbn;
        by rewrite lookup_merge, completeFields_lookup.
Qed.

(** With work outstanding, an attempt whose collaborators end the selected
    category lowers the outstanding work. *)
Lemma attempt_when_pending data attempt now w s :
  backfilling data s w →
  pendingCount (db w) s (targetTasks data) ≠ 0%nat →
  (∀ tk, endsCategory attempt tk) →
  let w' := (doProcessInstallation data attempt now w).2 in
  backfilling data s w'
  ∧ (pendingCount (db w') s (targetTasks data)
     < pendingCount (db w) s (targetTasks data))%nat.
Proof.
  intros (Hu & s' & Hfind & Hid & Hdone) Hpos Hends w'. subst w'.
  destruct (getNextTask (db w) s' (targetTasks data)) as [tk|] eqn:Hnext; last first.
  { exfalso. apply Hpos. rewrite <- (pendingCount_subId _ s s') by done.
    by apply getNextTask_None_count. }
  assert (task tk ≠ repository) as Hne.
  { apply getNextTask_Some in Hnext as [[Hno _]|(_ & Hne & _)]; done. }
  destruct (attempt_ends_category data attempt now w s' tk Hfind Hnext (Hends tk))
    as (p & Hp & ->). cbn [snd].
  set (sa := mergeSubscription {[ "syncStatus" := VStr "ACTIVE" ]} s').
  assert (findSubscriptionForMessage (db (active s' w)) data = Some sa) as Hfa
    by by apply active_find.
  assert (getNextTask (db (active s' w)) sa (targetTasks data) = Some tk) as Hna
    by by (subst sa; rewrite active_getNextTask).
  destruct (afterUpdate_settles data p tk (active s' w) sa Hu Hfa Hna Hne Hp)
    as [Hlt _].
  split.
  - split; [by apply afterUpdate_uniqueRepos|].
    pose proof (completion_find data p (task tk) (repositoryId tk) (active s' w) sa
                  Hfa Hp) as Hfind'.
    unfold routeMerge in Hfind'. rewrite decide_False in Hfind' by done.
    cbn [fst snd] in Hfind'.
    set (left := getNextTask _ sa _) in Hfind'.
    destruct left; (eexists; split; [exact Hfind'|]); (split; [exact Hid|]);
      unfold discoveryComplete; cbn;
      rewrite ?lookup_merge, ?completeFields_lookup by done;
      by rewrite lookup_singleton_ne.
  - rewrite <- !(pendingCount_subId _ s sa) by done. exact Hlt.
Qed.

Lemma backfilled_stays data ops w s :
  backfilling data s w →
  pendingCount (db w) s (targetTasks data) = 0%nat →
  backfilled data w →
  Forall (draining data) ops →
  backfilled data (runOps ops w)
  ∧ pendingCount (db (runOps ops w)) s (targetTasks data) = 0%nat.
Proof.
  intros Hb Hzero Hdone Hops. revert w Hb Hzero Hdone. unfold runOps.
  induction Hops as [|o ops Ho _ IH]; intros w Hb Hzero Hdone; [done|].
  destruct o as [data' attempt now|]; [|done]. destruct Ho as [-> _].
  cbn [foldl runOp].
  destruct (attempt_when_done data attempt now w s Hb Hzero) as (Hb' & Hz' & Hd').
  by apply IH.
Qed.

(** X18.  Past discovery and with one row per repository, attempts whose
    collaborators end every category they are given (an empty page, or an
    error of the [GithubClientError] hierarchy other than a rate limit)
    complete the backfill: once there are more attempts than outstanding
    categories, the Subscription is [COMPLETE], [backfillSince] is set from
    the message and the selector finds nothing left. *)
Theorem backfill_drains (data : BackfillMessagePayload) (ops : list Op) (w : World)
    (s : Subscription) :
  uniqueRepos (db w) →
  findSubscriptionForMessage (db w) data = Some s →
  discoveryComplete s →
  Forall (draining data) ops →
  (pendingCount (db w) s (targetTasks data) < length ops)%nat →
  let w' := runOps ops w in
  backfilled data w' ∧ pendingCount (db w') s (targetTasks data) = 0%nat.
Proof.
  intros Hu Hfind Hdone Hops Hlen w'. subst w'.
  assert (backfilling data s w) as Hb by (split; [done|by exists s]).
  clear Hu Hfind Hdone. revert w Hb Hlen. unfold runOps.
  induction Hops as [|o ops Ho Hops IH]; intros w Hb Hlen; cbn [length] in Hlen;
    [lia|].
  destruct o as [data' attempt now|]; [|done]. destruct Ho as [-> Hends].
  cbn [foldl runOp].
  destruct (decide (pendingCount (db w) s (targetTasks data) = 0%nat)) as [Hz|Hnz].
  - destruct (attempt_when_done data attempt now w s Hb Hz) as (Hb' & Hz' & Hd').
    by apply (backfilled_stays data ops _ s).
  - destruct (attempt_when_pending data attempt now w s Hb Hnz Hends) as [Hb' Hlt].
    apply IH; [done|lia].
Qed.

Lemma backfill_drains_witness :
  uniqueRepos (db Sample.lastCategory)
  ∧ backfilled Sample.data
      (runOps [Process Sample.data Sample.idle 0; Process Sample.data Sample.idle 0]
         Sample.lastCategory).
Proof.
  assert (uniqueRepos (db Sample.lastCategory)) as Hu.
  { unfold uniqueRepos. apply NoDup_ListNoDup. cbn.
    repeat constructor; cbn; intuition congruence. }
  assert (findSubscriptionForMessage (db Sample.lastCategory) Sample.data
          = Some Sample.subscription) as Hfind by reflexivity.
  assert (discoveryComplete Sample.subscription) as Hdone by reflexivity.
  assert (∀ tk, endsCategory Sample.idle tk) as Hidle.
  { intros tk. left. exists noEdges. split; [|reflexivity].
    split; [reflexivity|by left]. }
  assert (Forall (draining Sample.data)
            [Process Sample.data Sample.idle 0; Process Sample.data Sample.idle 0])
    as Hops.
  { apply Forall_cons. split; [by split|].
    apply Forall_cons. split; [by split|]. apply Forall_nil_2. }
  assert (pendingCount (db Sample.lastCategory) Sample.subscription
            (targetTasks Sample.data)
          < length [Process Sample.data Sample.idle 0;
                    Process Sample.data Sample.idle 0])%nat as Hlen
    by (vm_compute; lia).
  split; [exact Hu|].
  exact (proj1 (backfill_drains Sample.data _ Sample.lastCategory Sample.subscription
                  Hu Hfind Hdone Hops Hlen)).
Defined.

(** ** A target filter without a category *)

Lemma getTargetTasks_nil targets :
  getTargetTasks targets = [] ↔
  ∃ t ts, targets = Some (t :: ts) ∧ ∀ t', t' ∈ t :: ts → t' = repository.
Proof.
  destruct targets as [[|t ts]|]; cbn [getTargetTasks].
  - split; [done|]. by intros (? & ? & ? & _).
  - rewrite intersection_allTaskTypes. split.
    + intros Hnil. exists t, ts. split; [done|]. intros t' Hin.
      destruct (decide (t' = repository)) as [|Hne]; [done|]. exfalso.
      apply (filter_nil_not_elem_of _ _ t' Hnil Hin).
      unfold allTaskTypes. destruct t'; [done|set_solver..].
    + intros (t0 & ts0 & [= <- <-] & Hall).
      destruct (filter (λ t', t' ∈ t :: ts) allTaskTypes) as [|x l] eqn:Hf; [done|].
      exfalso. assert (x ∈ filter (λ t', t' ∈ t :: ts) allTaskTypes) as Hx
        by (rewrite Hf; left).
      apply list_elem_of_filter in Hx as [Hin Hcat].
      rewrite (Hall x Hin) in Hcat. unfold allTaskTypes in Hcat. set_solver.
  - split; [done|]. by intros (? & ? & ? & _).
Qed.

(** X19.  A target filter that is not empty and names no category — only the
    discovery step — leaves no candidate category.  Past discovery the
    selector then returns nothing whatever work the rows have outstanding,
    and the attempt returns with the Subscription [COMPLETE], no row changed
    and no follow-up requested. *)
Theorem filter_without_category (data : BackfillMessagePayload)
    (attempt : Task → Attempt) (now : Z) (w : World) (s : Subscription) :
  findSubscriptionForMessage (db w) data = Some s →
  discoveryComplete s →
  (∃ t ts, targetTasks data = Some (t :: ts)
           ∧ ∀ t', t' ∈ t :: ts → t' = repository) →
  let out := doProcessInstallation data attempt now w in
  getTargetTasks (targetTasks data) = []
  ∧ getNextTask (db w) s (targetTasks data) = None
  ∧ out.1 = inr ()
  ∧ repoSyncStates (db out.2) = repoSyncStates (db w)
  ∧ nextTaskDelaysMs out.2 = nextTaskDelaysMs w
  ∧ ∃ s', findSubscriptionForMessage (db out.2) data = Some s'
          ∧ subColumns s' !! "syncStatus" = Some (VStr "COMPLETE").
Proof.
  intros Hfind Hdone Hfilter out. subst out.
  apply getTargetTasks_nil in Hfilter.
  assert (getNextTask (db w) s (targetTasks data) = None) as Hnone.
  { apply getNextTask_None. split; [done|].
    intros r _ _ (t & Ht & _). rewrite Hfilter in Ht. by apply elem_of_nil in Ht. }
  destruct (doProcessInstallation_completes data attempt now w s Hfind Hnone)
    as (Hfind' & Hsync & Hrows & Hdelays).
  split_and!; [done|done| |done|done|].
  - rewrite doProcessInstallation_run. unfold afterAttempt. by rewrite Hfind, Hnone.
  - eexists. split; [exact Hfind'|exact Hsync].
Qed.

Lemma filter_without_category_witness :
  findSubscriptionForMessage (db Sample.world) discoveryOnly
  = Some Sample.subscription
  ∧ (0 < pendingCount (db Sample.world) Sample.subscription None)%nat
  ∧ getNextTask (db Sample.world) Sample.subscription (targetTasks discoveryOnly)
    = None.
Proof.
  assert (findSubscriptionForMessage (db Sample.world) discoveryOnly
          = Some Sample.subscription) as Hfind by reflexivity.
  assert (discoveryComplete Sample.subscription) as Hdone by reflexivity.
  assert (∃ t ts, targetTasks discoveryOnly = Some (t :: ts)
                  ∧ ∀ t', t' ∈ t :: ts → t' = repository) as Hfilter.
  { exists repository, []. split; [reflexivity|].
    intros t' Ht'. by apply list_elem_of_singleton in Ht'. }
  split; [exact Hfind|]. split; [vm_compute; lia|].
  exact (proj1 (proj2 (filter_without_category discoveryOnly Sample.idle 0
                         Sample.world Sample.subscription Hfind Hdone Hfilter))).
Defined.
